(** * ORAS copy / backup orchestration: a shallow embedding

    The development follows the copy command ([src/unnamed/part_000],
    package [root]: [doCopy], [recursiveCopy], [prepareCopyOption]; it is
    called cp.go below) and [src/cmd/oras/root/backup.go] ([runBackup],
    [backupTag], [prepareBackupOutput], [findTagsToBackup],
    [parseArtifactsToBackup]).  Line numbers are those of these files.

    Go values are modelled as follows.
    - a Go [string] is a Rocq [string] (a sequence of 8-bit bytes);
    - a Go [error] is a value of [error], [nil] being [None];
    - a function returning [(T, error)] whose value is looked at on the
      error path returns a pair [T * option error]; library calls whose
      value is dropped on error return a [result];
    - a func-typed struct field is an [option]: [None] is the nil func;
    - what the stores, the replication engine, the status tracker and
      the file system answer is given by an [Oracle]; calls into the
      engine and the tracker are logged as [Event]s in the [World], which
      also holds the paths the run has created through the file system
      and through [oci.New]. *)

From Stdlib Require Import String Ascii List ZArith Lia Bool Arith.
Import ListNotations.
Open Scope string_scope.
Open Scope list_scope.



(* ================================================================== *)
(** ** Errors and results *)

(** A Go [error].  [Errorf] and [Wrapf] keep the format and its string
    operands, so that a message can be asked which values it names;
    [Wrapf] carries the operand of [%w]. *)
Inductive error : Type :=
| ErrExternal (msg : string)
| Errorf (format : string) (args : list string)
| Wrapf (format : string) (args : list string) (wrapped : error)
| OrasError (err : error) (usage recommendation : string).

Inductive result (A : Type) : Type :=
| Ok (a : A)
| Err (e : error).
Arguments Ok {A} a.
Arguments Err {A} e.

(** Outcome of calling a func value: a call through the nil func does
    not return. *)
Inductive go (A : Type) : Type :=
| Returns (a : A)
| NilFuncPanic.
Arguments Returns {A} a.
Arguments NilFuncPanic {A}.

(** The string operands an error message is built from. *)
Fixpoint names (e : error) : list string :=
  match e with
  | ErrExternal _ => []
  | Errorf _ args => args
  | Wrapf _ args wrapped => args ++ names wrapped
  | OrasError err _ _ => names err
  end.

(** The double quote character, for messages that contain one. *)
Definition dquote : string := String "034"%char EmptyString.

(* ================================================================== *)
(** ** Descriptors and targets *)

Record Descriptor : Type := mkDescriptor {
  MediaType : string;
  Digest : string;
  Size : Z;
  Annotations : list (string * string)
}.

(** [ocispec.Descriptor{}] *)
Definition zeroDescriptor : Descriptor :=
  {| MediaType := ""; Digest := ""; Size := 0; Annotations := [] |}.

(** [ocispec.MediaTypeImageIndex] *)
Definition MediaTypeImageIndex : string :=
  "application/vnd.oci.image.index.v1+json".

(** Modelled from the spec: the "manifest-list variant" of an Index, which
    is [docker.MediaTypeManifestList] of [internal/docker], a package that
    is not among the sources at hand. *)
Definition MediaTypeManifestList : string :=
  "application/vnd.docker.distribution.manifest.list.v2+json".

(** [content.Equal]: size, digest and media type; nothing else. *)
Definition Equal (a b : Descriptor) : bool :=
  (Size a =? Size b)%Z && (Digest a =? Digest b) && (MediaType a =? MediaType b).

(** [ocispec.Index], of which only [Manifests] is read. *)
Record Index : Type := mkIndex {
  Manifests : list Descriptor
}.

(** [registry.Reference], as far as the orchestration reads it. *)
Record Reference : Type := mkReference {
  Registry : string;
  Repository : string
}.

(** The dynamic types a source or destination handle can have:
    [*remote.Repository], a local OCI layout store, or a store wrapped by
    the status tracker. *)
Inductive Target : Type :=
| RemoteRepository (ref : Reference)
| OCIStore (root : string)
| TrackedTarget (inner : Target).

Inductive Context : Type :=
| ctxBackground
| ctxWithScopeHint (parent : Context).

(* ================================================================== *)
(** ** Copy options of the replication engine *)

(** Lifecycle callbacks are method values of the status handler. *)
Inductive Callback : Type :=
| HandlerPreCopy | HandlerPostCopy | HandlerOnCopySkipped | HandlerOnMounted.

Definition PredecessorFn : Type :=
  Context -> Target -> Descriptor -> go (list Descriptor * option error).

Definition MountFromFn : Type :=
  Context -> Descriptor -> list string * option error.

Record CopyGraphOptions : Type := mkCopyGraphOptions {
  Concurrency : Z;
  PreCopy : option Callback;
  PostCopy : option Callback;
  OnCopySkipped : option Callback;
  OnMounted : option Callback;
  MountFrom : option MountFromFn
}.

Record ExtendedCopyGraphOptions : Type := mkExtendedCopyGraphOptions {
  ECGO_CopyGraphOptions : CopyGraphOptions;
  FindPredecessors : option PredecessorFn
}.

Record ExtendedCopyOptions : Type := mkExtendedCopyOptions {
  ECO_ExtendedCopyGraphOptions : ExtendedCopyGraphOptions
}.

Record CopyOptions : Type := mkCopyOptions {
  CO_CopyGraphOptions : CopyGraphOptions;
  CO_TargetPlatform : option string
}.

(** [oras.DefaultCopyGraphOptions], [oras.DefaultExtendedCopyOptions]:
    the zero values. *)
Definition DefaultCopyGraphOptions : CopyGraphOptions :=
  {| Concurrency := 0; PreCopy := None; PostCopy := None;
     OnCopySkipped := None; OnMounted := None; MountFrom := None |}.

Definition DefaultExtendedCopyOptions : ExtendedCopyOptions :=
  {| ECO_ExtendedCopyGraphOptions :=
       {| ECGO_CopyGraphOptions := DefaultCopyGraphOptions;
          FindPredecessors := None |} |}.

(** Selectors through the embedded structs, as Go promotes them. *)
Definition ECO_CopyGraphOptions (o : ExtendedCopyOptions) : CopyGraphOptions :=
  ECGO_CopyGraphOptions (ECO_ExtendedCopyGraphOptions o).

Definition ECO_FindPredecessors (o : ExtendedCopyOptions) : option PredecessorFn :=
  FindPredecessors (ECO_ExtendedCopyGraphOptions o).

(** Assignments to promoted fields. *)
Definition with_CopyGraphOptions (o : ExtendedCopyOptions) (g : CopyGraphOptions)
  : ExtendedCopyOptions :=
  {| ECO_ExtendedCopyGraphOptions :=
       {| ECGO_CopyGraphOptions := g;
          FindPredecessors := ECO_FindPredecessors o |} |}.

Definition with_FindPredecessors (o : ExtendedCopyOptions) (f : PredecessorFn)
  : ExtendedCopyOptions :=
  {| ECO_ExtendedCopyGraphOptions :=
       {| ECGO_CopyGraphOptions := ECO_CopyGraphOptions o;
          FindPredecessors := Some f |} |}.

Definition with_Concurrency (g : CopyGraphOptions) (n : Z) : CopyGraphOptions :=
  {| Concurrency := n; PreCopy := PreCopy g; PostCopy := PostCopy g;
     OnCopySkipped := OnCopySkipped g; OnMounted := OnMounted g;
     MountFrom := MountFrom g |}.

Definition with_MountFrom (g : CopyGraphOptions) (f : MountFromFn) : CopyGraphOptions :=
  {| Concurrency := Concurrency g; PreCopy := PreCopy g; PostCopy := PostCopy g;
     OnCopySkipped := OnCopySkipped g; OnMounted := OnMounted g;
     MountFrom := Some f |}.

Definition with_callbacks (g : CopyGraphOptions)
  (skipped pre post mounted : option Callback) : CopyGraphOptions :=
  {| Concurrency := Concurrency g; PreCopy := pre; PostCopy := post;
     OnCopySkipped := skipped; OnMounted := mounted;
     MountFrom := MountFrom g |}.

(** Calling a func-typed field. *)
Definition callPredecessors (f : option PredecessorFn)
  (ctx : Context) (src : Target) (desc : Descriptor)
  : go (list Descriptor * option error) :=
  match f with
  | Some fn => fn ctx src desc
  | None => NilFuncPanic
  end.

(* ================================================================== *)
(** ** The world outside the orchestrator *)

(** Calls that leave the orchestrator, in the order they are made. *)
Inductive Event : Type :=
| EvStartTracking (dst : Target)
| EvStopTracking
| EvCopyGraph (src dst : Target) (root : Descriptor) (o : CopyGraphOptions)
| EvCopy (src : Target) (srcRef : string) (dst : Target) (dstRef : string)
         (o : CopyOptions)
| EvExtendedCopyGraph (src dst : Target) (root : Descriptor)
         (o : ExtendedCopyGraphOptions)
| EvExtendedCopy (src : Target) (srcRef : string) (dst : Target)
         (dstRef : string) (o : ExtendedCopyOptions)
| EvOnTagsFound (tags : list string)
| EvOnArtifactPulled (tag : string) (referrerCount : Z)
| EvOnTarExporting (path : string)
| EvOnTarExported (path : string) (size : Z)
| EvOnBackupCompleted (tagsCount : Z) (path : string)
| EvLogDebug (format : string) (args : list string).

(** [files] holds the paths this run has created and not yet removed or
    moved away: the staging directory, the entries [oci.New] lays out,
    the temporary archive and the output file.  What the replication
    engine writes inside the destination store is behind the engine's
    answers and is not listed.  [events] is the log, latest first. *)
Record World : Type := mkWorld {
  files : list string;
  events : list Event
}.

Definition emptyWorld : World := {| files := []; events := [] |}.

Definition log (e : Event) (w : World) : World :=
  {| files := files w; events := e :: events w |}.

Definition createPath (p : string) (w : World) : World :=
  {| files := p :: files w; events := events w |}.

Definition removePath (p : string) (w : World) : World :=
  {| files := filter (fun q => negb (q =? p)) (files w); events := events w |}.

Definition exists_path (p : string) (w : World) : bool :=
  existsb (fun q => q =? p) (files w).

Definition createPaths (ps : list string) (w : World) : World :=
  {| files := ps ++ files w; events := events w |}.

(** [q] is the path [p] or lies below the directory [p]. *)
Definition isUnder (p q : string) : bool :=
  (q =? p) || String.prefix (p ++ "/")%string q.

(** What [os.RemoveAll(p)] removes: [p] and everything below it. *)
Definition removeTree (p : string) (w : World) : World :=
  {| files := filter (fun q => negb (isUnder p q)) (files w);
     events := events w |}.

(** The entries [entries] of the directory [root], as paths. *)
Definition below (root : string) (entries : list string) : list string :=
  map (fun entry => (root ++ "/" ++ entry)%string) entries.

(** The cobra command, as far as [runBackup] reads it. *)
Record Command : Type := mkCommand {
  ParentCommandPath : string;
  Use : string
}.

(** Answers of the collaborators.  Reads of a store are functions of
    their arguments; the tracker, the engine and the file system also see
    the world at the time of the call.  [graph_FindPredecessors] is
    [graph.FindPredecessors] of [internal/graph], and [option_Parse],
    [UnwrapCopyError] and the handlers are other packages of the
    repository: their sources are not at hand, so what they return is
    left open here like the answers of the libraries.  [oci.New] lays an
    OCI layout out on disk: [oci_New_layout] names the entries it has
    created below its root when it returns.  The engine's answers are
    taken as they come: how it uses the options it is handed, the lookup
    among them, is its own business, so a call that is handed a lookup
    which panics has an answer here where the program would not
    return. *)
Record Oracle : Type := mkOracle {
  (* content, encoding/json, internal/graph *)
  FetchAll : Context -> Target -> Descriptor -> result string;
  UnmarshalIndex : string -> result Index;
  graph_FindPredecessors :
    Context -> Target -> list Descriptor -> ExtendedCopyOptions ->
    result (list Descriptor);
  (* registry, oras *)
  registry_Referrers : Context -> Target -> Descriptor -> string ->
    result (list Descriptor);
  registry_Tags : Context -> Target -> result (list string);
  oras_Resolve : Context -> Target -> string -> option string -> result Descriptor;
  oras_CopyGraph : World -> Context -> Target -> Target -> Descriptor ->
    CopyGraphOptions -> option error;
  oras_Copy : World -> Context -> Target -> string -> Target -> string ->
    CopyOptions -> Descriptor * option error;
  oras_ExtendedCopyGraph : World -> Context -> Target -> Target -> Descriptor ->
    ExtendedCopyGraphOptions -> option error;
  oras_ExtendedCopy : World -> Context -> Target -> string -> Target -> string ->
    ExtendedCopyOptions -> Descriptor * option error;
  (* status and metadata handlers *)
  StartTracking : World -> Target -> result Target;
  StopTracking : World -> option error;
  OnTagsFound : World -> list string -> option error;
  OnArtifactPulled : World -> string -> Z -> option error;
  OnTarExporting : World -> string -> option error;
  OnTarExported : World -> string -> Z -> option error;
  OnBackupCompleted : World -> Z -> string -> option error;
  (* option, oci, oerrors, registry *)
  option_Parse : option error;
  NewRepository : string -> result Target;
  oci_New : string -> result Target;
  oci_New_layout : string -> list string;
  UnwrapCopyError : error -> error;
  ParseReference : string -> result Reference;
  Reference_String : Reference -> string;
  (* os, path/filepath, internal/io *)
  os_MkdirTemp : World -> string -> string -> result string;
  os_RemoveAll : World -> string -> option error;
  os_Stat : World -> string -> result Z;
  os_CreateTemp : World -> string -> string -> result string;
  TarDirectory : World -> Context -> string -> string -> option error;
  file_Close : World -> string -> option error;
  filepath_IsAbs : string -> bool;
  filepath_Abs : string -> result string;
  filepath_Dir : string -> string;
  filepath_Join : string -> string -> string;
  os_MkdirAll : World -> string -> option error;
  os_Rename : World -> string -> string -> option error;
  os_Remove : World -> string -> option error
}.

(** State passing over the [World]. *)
Definition M (A : Type) : Type := World -> A * World.

Definition ret {A : Type} (a : A) : M A := fun w => (a, w).

Definition bind {A B : Type} (m : M A) (k : A -> M B) : M B :=
  fun w => let (a, w') := m w in k a w'.

Definition ask {A : Type} (f : World -> A) : M A := fun w => (f w, w).

Definition tell (e : Event) : M unit := fun w => (tt, log e w).

Definition update (f : World -> World) : M unit := fun w => (tt, f w).

Declare Scope go_scope.
Delimit Scope go_scope with go.
Notation "x <- m ;; k" := (bind m (fun x => k))
  (at level 61, m at next level, right associativity) : go_scope.
Notation "m ;;; k" := (bind m (fun _ => k))
  (at level 61, right associativity) : go_scope.
Open Scope go_scope.

(** A call answered by the oracle, then logged. *)
Definition call {A : Type} (answer : World -> A) (e : Event) : M A :=
  a <- ask answer ;; tell e ;;; ret a.

(** [defer]: [cleanup] runs after [body], sees its result and may
    change it. *)
Definition defer {A : Type} (body : M A) (cleanup : A -> M A) : M A :=
  a <- body ;; cleanup a.

(* ================================================================== *)
(** ** cp.go *)

Module Cp.

(** [copyOptions], with the fields [doCopy] reads:
    [opts.From.Reference], [opts.To.Reference], [opts.Platform.Platform]. *)
Record copyOptions : Type := mkcopyOptions {
  recursive : bool;
  concurrency : Z;
  From_Reference : string;
  To_Reference : string;
  Platform : option string
}.

(** An Index root: the media type is one of the two index variants. *)
Definition isIndex (root : Descriptor) : Prop :=
  MediaType root = MediaTypeImageIndex \/ MediaType root = MediaTypeManifestList.

(** [slices.DeleteFunc]: the elements [del] rejects, in order. *)
Definition DeleteFunc {A : Type} (s : list A) (del : A -> bool) : list A :=
  filter (fun x => negb (del x)) s.

(** The closure assigned to [opts.FindPredecessors] by
    [prepareCopyOption]; [findPredecessor], [root] and [referrers] are
    its captured variables. *)
Definition augmentedPredecessors (findPredecessor : option PredecessorFn)
  (root : Descriptor) (referrers : list Descriptor) : PredecessorFn :=
  fun ctx src desc =>
    match callPredecessors findPredecessor ctx src desc with
    | NilFuncPanic => NilFuncPanic
    | Returns (descs, Some err) => Returns ([], Some err)
    | Returns (descs, None) =>
        if Equal desc root
        then Returns (descs ++ referrers, None)
        else Returns (descs, None)
    end.

Definition prepareCopyOption (O : Oracle) (ctx : Context) (src dst : Target)
  (root : Descriptor) (opts : ExtendedCopyOptions)
  : ExtendedCopyOptions * option error :=
  if negb (MediaType root =? MediaTypeImageIndex)
     && negb (MediaType root =? MediaTypeManifestList)
  then (opts, None)
  else
    match FetchAll O ctx src root with
    | Err err => (opts, Some err)
    | Ok fetched =>
        match UnmarshalIndex O fetched with
        | Err err => (opts, Some err)
        | Ok index =>
            if (List.length (Manifests index) =? 0)%nat then (opts, None)
            else
              match graph_FindPredecessors O ctx src (Manifests index) opts with
              | Err err => (opts, Some err)
              | Ok referrers =>
                  let referrers :=
                    DeleteFunc referrers (fun desc => Equal desc root) in
                  if (List.length referrers =? 0)%nat then (opts, None)
                  else
                    let findPredecessor := ECO_FindPredecessors opts in
                    (with_FindPredecessors opts
                       (augmentedPredecessors findPredecessor root referrers),
                     None)
              end
        end
    end.

Definition recursiveCopy (O : Oracle) (ctx : Context) (src dst : Target)
  (dstRef : string) (root : Descriptor) (opts : ExtendedCopyOptions)
  : M (option error) :=
  match prepareCopyOption O ctx src dst root opts with
  | (_, Some err) => ret (Some err)
  | (opts, None) =>
      if (dstRef =? "") || (dstRef =? Digest root)
      then
        call (fun w => oras_ExtendedCopyGraph O w ctx src dst root
                         (ECO_ExtendedCopyGraphOptions opts))
             (EvExtendedCopyGraph src dst root (ECO_ExtendedCopyGraphOptions opts))
      else
        r <- call (fun w => oras_ExtendedCopy O w ctx src (Digest root) dst dstRef opts)
                  (EvExtendedCopy src (Digest root) dst dstRef opts) ;;
        ret (snd r)
  end.

(** The predecessor lookup [doCopy] installs (lines 171-173). *)
Definition referrersLookup (O : Oracle) : PredecessorFn :=
  fun ctx src desc =>
    match registry_Referrers O ctx src desc "" with
    | Ok descs => Returns (descs, None)
    | Err err => Returns ([], Some err)
    end.

(** Lines 175-181: the two type assertions and the mount hint. *)
Definition mountHint (src dst : Target) (g : CopyGraphOptions) : CopyGraphOptions :=
  match src, dst with
  | RemoteRepository srcRepo, RemoteRepository dstRepo =>
      if Registry srcRepo =? Registry dstRepo
      then with_MountFrom g (fun ctx desc => ([Repository srcRepo], None))
      else g
  | _, _ => g
  end.

(** Lines 186-191: the deferred call of [StopTracking]. *)
Definition stopTrackingDeferred {A : Type} (O : Oracle) (r : A * option error)
  : M (A * option error) :=
  stopErr <- call (StopTracking O) EvStopTracking ;;
  ret (fst r, match snd r with
              | None => stopErr
              | Some err => Some err
              end).

(** Lines 169-181 of [doCopy]: the options before tracking starts. *)
Definition doCopyOptions (O : Oracle) (src dst : Target) (opts : copyOptions)
  : ExtendedCopyOptions :=
  let extendedCopyOptions := DefaultExtendedCopyOptions in
  let extendedCopyOptions :=
    with_CopyGraphOptions extendedCopyOptions
      (with_Concurrency (ECO_CopyGraphOptions extendedCopyOptions) (concurrency opts)) in
  let extendedCopyOptions :=
    with_FindPredecessors extendedCopyOptions (referrersLookup O) in
  with_CopyGraphOptions extendedCopyOptions
    (mountHint src dst (ECO_CopyGraphOptions extendedCopyOptions)).

(** Lines 192-195 of [doCopy]: the four handlers of [copyHandler]. *)
Definition withStatusHandlers (extendedCopyOptions : ExtendedCopyOptions)
  : ExtendedCopyOptions :=
  with_CopyGraphOptions extendedCopyOptions
    (with_callbacks (ECO_CopyGraphOptions extendedCopyOptions)
       (Some HandlerOnCopySkipped) (Some HandlerPreCopy)
       (Some HandlerPostCopy) (Some HandlerOnMounted)).

(** Lines 192-221 of [doCopy]: what runs inside the tracking scope, [dst]
    being the tracked destination. *)
Definition doCopyTracked (O : Oracle) (ctx : Context) (src dst : Target)
  (opts : copyOptions) (extendedCopyOptions : ExtendedCopyOptions)
  : M (Descriptor * option error) :=
  let extendedCopyOptions := withStatusHandlers extendedCopyOptions in
  let rOpts_TargetPlatform := Platform opts in
  if recursive opts then
    match oras_Resolve O ctx src (From_Reference opts) rOpts_TargetPlatform with
    | Err err =>
        ret (zeroDescriptor,
             Some (Wrapf "failed to resolve %s: %w" [From_Reference opts] err))
    | Ok desc =>
        err <- recursiveCopy O ctx src dst (To_Reference opts) desc
                 extendedCopyOptions ;;
        ret (desc, err)
    end
  else
    if To_Reference opts =? "" then
      match oras_Resolve O ctx src (From_Reference opts) rOpts_TargetPlatform with
      | Err err =>
          ret (zeroDescriptor,
               Some (Wrapf "failed to resolve %s: %w" [From_Reference opts] err))
      | Ok desc =>
          err <- call (fun w => oras_CopyGraph O w ctx src dst desc
                                  (ECO_CopyGraphOptions extendedCopyOptions))
                      (EvCopyGraph src dst desc
                         (ECO_CopyGraphOptions extendedCopyOptions)) ;;
          ret (desc, err)
      end
    else
      let copyOptions :=
        {| CO_CopyGraphOptions := ECO_CopyGraphOptions extendedCopyOptions;
           CO_TargetPlatform := Platform opts |} in
      call (fun w => oras_Copy O w ctx src (From_Reference opts) dst
                       (To_Reference opts) copyOptions)
           (EvCopy src (From_Reference opts) dst (To_Reference opts) copyOptions).

Definition doCopy (O : Oracle) (ctx : Context) (src dst : Target)
  (opts : copyOptions) : M (Descriptor * option error) :=
  (* Prepare copy options *)
  let extendedCopyOptions := doCopyOptions O src dst opts in
  started <- call (fun w => StartTracking O w dst) (EvStartTracking dst) ;;
  match started with
  | Err err => ret (zeroDescriptor, Some err)
  | Ok dst =>
      defer (doCopyTracked O ctx src dst opts extendedCopyOptions)
            (stopTrackingDeferred O)
  end.

(** The graph options an engine call was given. *)
Definition engineOptions (e : Event) : option CopyGraphOptions :=
  match e with
  | EvCopyGraph _ _ _ o => Some o
  | EvCopy _ _ _ _ o => Some (CO_CopyGraphOptions o)
  | EvExtendedCopyGraph _ _ _ o => Some (ECGO_CopyGraphOptions o)
  | EvExtendedCopy _ _ _ _ o => Some (ECO_CopyGraphOptions o)
  | _ => None
  end.

Definition isEngineCall (e : Event) : bool :=
  match engineOptions e with
  | Some _ => true
  | None => false
  end.

(** Source and destination are both [*remote.Repository] and name the
    same registry host. *)
Definition sameRegistry (src dst : Target) : Prop :=
  exists srcRepo dstRepo,
    src = RemoteRepository srcRepo /\ dst = RemoteRepository dstRepo
    /\ Registry srcRepo = Registry dstRepo.

(** A mount hint that answers every query with [repo] alone. *)
Definition mountsFrom (g : CopyGraphOptions) (repo : string) : Prop :=
  exists f, MountFrom g = Some f
            /\ forall ctx desc, f ctx desc = ([repo], None).

Definition sourceRepository (src : Target) : string :=
  match src with
  | RemoteRepository srcRepo => Repository srcRepo
  | _ => ""
  end.

(** Graph options that carry the mount hint exactly when [src] and [dst]
    share a registry host. *)
Definition hintedFor (src dst : Target) (g : CopyGraphOptions) : Prop :=
  (sameRegistry src dst -> mountsFrom g (sourceRepository src))
  /\ (~ sameRegistry src dst -> MountFrom g = None).

End Cp.

(* ================================================================== *)
(** ** The Go [strings] functions used by backup.go, on byte strings *)

Module GoStrings.

Definition code (c : ascii) : nat := nat_of_ascii c.

(** [strings.ContainsRune] and [strings.LastIndexByte] for a one-byte
    rune. *)
Fixpoint ContainsRune (s : string) (r : ascii) : bool :=
  match s with
  | EmptyString => false
  | String c rest => Ascii.eqb c r || ContainsRune rest r
  end.

Fixpoint lastIndexFrom (s : string) (c : ascii) (i : Z) (found : Z) : Z :=
  match s with
  | EmptyString => found
  | String x rest => lastIndexFrom rest c (i + 1) (if Ascii.eqb x c then i else found)
  end.

Definition LastIndexByte (s : string) (c : ascii) : Z :=
  lastIndexFrom s c 0 (-1).

(** [s[:n]] and [s[n:]] for [0 <= n <= len(s)]. *)
Fixpoint sliceTo (s : string) (n : nat) : string :=
  match n, s with
  | S n', String c rest => String c (sliceTo rest n')
  | _, _ => EmptyString
  end.

Fixpoint sliceFrom (s : string) (n : nat) : string :=
  match n, s with
  | S n', String _ rest => sliceFrom rest n'
  | _, _ => s
  end.

(** [strings.Split(s, sep)] for a one-byte separator. *)
Fixpoint Split (s : string) (sep : ascii) : list string :=
  match s with
  | EmptyString => [EmptyString]
  | String c rest =>
      if Ascii.eqb c sep then EmptyString :: Split rest sep
      else match Split rest sep with
           | h :: t => String c h :: t
           | [] => [String c EmptyString]
           end
  end.

Fixpoint HasPrefix (s prefix : string) : bool :=
  match prefix, s with
  | EmptyString, _ => true
  | String p prefix', String c s' => Ascii.eqb c p && HasPrefix s' prefix'
  | String _ _, EmptyString => false
  end.

Definition reverse (s : string) : string :=
  string_of_list_ascii (rev (list_ascii_of_string s)).

Definition HasSuffix (s suffix : string) : bool :=
  HasPrefix (reverse s) (reverse suffix).

(** White space as [unicode.IsSpace] has it, in UTF-8.  One byte:
    TAB, LF, VT, FF, CR, SPACE. *)
Definition isAsciiSpace (c : ascii) : bool :=
  let n := code c in
  (n =? 9)%nat || (n =? 10)%nat || (n =? 11)%nat || (n =? 12)%nat
  || (n =? 13)%nat || (n =? 32)%nat.

(** Two bytes: U+0085 (C2 85) and U+00A0 (C2 A0). *)
Definition isSpace2 (a b : ascii) : bool :=
  (code a =? 194)%nat && ((code b =? 133)%nat || (code b =? 160)%nat).

(** Three bytes: U+1680 (E1 9A 80), U+2000..U+200A (E2 80 80..8A),
    U+2028, U+2029 (E2 80 A8, A9), U+202F (E2 80 AF), U+205F (E2 81 9F),
    U+3000 (E3 80 80). *)
Definition isSpace3 (a b c : ascii) : bool :=
  ((code a =? 225)%nat && (code b =? 154)%nat && (code c =? 128)%nat)
  || ((code a =? 226)%nat && (code b =? 128)%nat
      && (((128 <=? code c)%nat && (code c <=? 138)%nat)
          || (code c =? 168)%nat || (code c =? 169)%nat || (code c =? 175)%nat))
  || ((code a =? 226)%nat && (code b =? 129)%nat && (code c =? 159)%nat)
  || ((code a =? 227)%nat && (code b =? 128)%nat && (code c =? 128)%nat).

(** [strings.TrimLeftFunc(s, unicode.IsSpace)] *)
Fixpoint TrimLeftSpace (s : string) : string :=
  match s with
  | EmptyString => EmptyString
  | String a r =>
      if isAsciiSpace a then TrimLeftSpace r
      else
        match r with
        | String b r2 =>
            if isSpace2 a b then TrimLeftSpace r2
            else
              match r2 with
              | String c r3 => if isSpace3 a b c then TrimLeftSpace r3 else s
              | EmptyString => s
              end
        | EmptyString => s
        end
  end.

(** The same scan from the end, on the reversed bytes. *)
Fixpoint trimLeftSpaceReversed (s : string) : string :=
  match s with
  | EmptyString => EmptyString
  | String a r =>
      if isAsciiSpace a then trimLeftSpaceReversed r
      else
        match r with
        | String b r2 =>
            if isSpace2 b a then trimLeftSpaceReversed r2
            else
              match r2 with
              | String c r3 =>
                  if isSpace3 c b a then trimLeftSpaceReversed r3 else s
              | EmptyString => s
              end
        | EmptyString => s
        end
  end.

Definition TrimRightSpace (s : string) : string :=
  reverse (trimLeftSpaceReversed (reverse s)).

(** [strings.TrimSpace] *)
Definition TrimSpace (s : string) : string :=
  TrimRightSpace (TrimLeftSpace s).

(** Every byte, some byte of [s] satisfies [p]. *)
Fixpoint allBytes (p : ascii -> bool) (s : string) : bool :=
  match s with
  | EmptyString => true
  | String c rest => p c && allBytes p rest
  end.




(** Strings made of commas and white space only. *)
Inductive CommasAndSpace : string -> Prop :=
| cas_empty : CommasAndSpace EmptyString
| cas_comma (s : string) :
    CommasAndSpace s -> CommasAndSpace (String ","%char s)
| cas_space1 (a : ascii) (s : string) :
    isAsciiSpace a = true -> CommasAndSpace s -> CommasAndSpace (String a s)
| cas_space2 (a b : ascii) (s : string) :
    isSpace2 a b = true -> CommasAndSpace s ->
    CommasAndSpace (String a (String b s))
| cas_space3 (a b c : ascii) (s : string) :
    isSpace3 a b c = true -> CommasAndSpace s ->
    CommasAndSpace (String a (String b (String c s))).

End GoStrings.

(* ================================================================== *)
(** ** Regular expressions, as far as [tagRegexp] needs them *)

Module Regexp.

Inductive regex : Type :=
| Never
| Epsilon
| Class (p : ascii -> bool)
| Cat (r1 r2 : regex)
| Alt (r1 r2 : regex)
| Repeat (lo hi : nat) (r : regex).

Fixpoint nullable (r : regex) : bool :=
  match r with
  | Never => false
  | Epsilon => true
  | Class _ => false
  | Cat r1 r2 => nullable r1 && nullable r2
  | Alt r1 r2 => nullable r1 || nullable r2
  | Repeat lo _ r => (lo =? 0)%nat || nullable r
  end.

(** Concatenation that does not pile up units. *)
Definition cat (r1 r2 : regex) : regex :=
  match r1 with
  | Never => Never
  | Epsilon => r2
  | _ => Cat r1 r2
  end.

(** Brzozowski derivative; [r{lo,hi}] loses one round per byte. *)
Fixpoint deriv (c : ascii) (r : regex) : regex :=
  match r with
  | Never => Never
  | Epsilon => Never
  | Class p => if p c then Epsilon else Never
  | Cat r1 r2 =>
      if nullable r1
      then Alt (cat (deriv c r1) r2) (deriv c r2)
      else cat (deriv c r1) r2
  | Alt r1 r2 => Alt (deriv c r1) (deriv c r2)
  | Repeat lo hi r1 =>
      match hi with
      | O => Never
      | S hi' => cat (deriv c r1) (Repeat (Nat.pred lo) hi' r1)
      end
  end.

(** A match of the whole text: the pattern is anchored by [^] and [$],
    and without the [m] flag Go's [$] is the end of the text. *)
Fixpoint matches (r : regex) (s : string) : bool :=
  match s with
  | EmptyString => nullable r
  | String c rest => matches (deriv c r) rest
  end.

(** [\w] is [[0-9A-Za-z_]]. *)
Definition isWord (c : ascii) : bool :=
  let n := nat_of_ascii c in
  ((48 <=? n)%nat && (n <=? 57)%nat)
  || ((65 <=? n)%nat && (n <=? 90)%nat)
  || ((97 <=? n)%nat && (n <=? 122)%nat)
  || (n =? 95)%nat.

(** [[\w.-]] *)
Definition isWordDotDash (c : ascii) : bool :=
  isWord c || (nat_of_ascii c =? 46)%nat || (nat_of_ascii c =? 45)%nat.

End Regexp.

(* ================================================================== *)
(** ** backup.go *)

Module Backup.
Import GoStrings Regexp.

(** [type outputFormat int] with its two [iota] constants. *)
Definition outputFormat : Type := Z.
Definition outputFormatDir : outputFormat := 0%Z.
Definition outputFormatTar : outputFormat := 1%Z.

(** The source text of [tagRegexp] and the expression it compiles to. *)
Definition tagRegexpSource : string := "^[\w][\w.-]{0,127}$".

Definition tagRegexp : regex :=
  Cat (Class isWord) (Repeat 0 127 (Class isWordDotDash)).

Definition MatchString (re : regex) (s : string) : bool := matches re s.

Record backupOptions : Type := mkbackupOptions {
  (* flags *)
  output : string;
  includeReferrers : bool;
  concurrency : Z;
  (* derived options *)
  outputFormat_of : outputFormat;
  repository : string;
  tags : list string
}.

(** The loop of lines 369-378; [tags] is the slice built so far and
    [repository] the value returned with it. *)
Fixpoint validateTags (artifactRefs repository : string)
  (tagList : list string) (tags : list string)
  : string * list string * option error :=
  match tagList with
  | [] => (repository, tags, None)
  | tag :: rest =>
      let tag := TrimSpace tag in
      if tag =? "" then validateTags artifactRefs repository rest tags
      else if negb (MatchString tagRegexp tag)
      then ("", [],
            Some (Errorf "invalid tag %q in reference %q: tag must match %s"
                    [tag; artifactRefs; tagRegexpSource]))
      else validateTags artifactRefs repository rest (tags ++ [tag])
  end.

(** Lines 340-352: where the tags begin. *)
Definition splitRepoAndTags (artifactRefs : string) : string * string :=
  let lastSlash := LastIndexByte artifactRefs "/"%char in
  let lastColon := LastIndexByte artifactRefs ":"%char in
  if negb (lastColon =? -1)%Z && (lastSlash <? lastColon)%Z
  then (sliceTo artifactRefs (Z.to_nat lastColon),
        sliceFrom artifactRefs (Z.to_nat (lastColon + 1)))
  else (artifactRefs, "").

Definition parseArtifactsToBackup (O : Oracle) (artifactRefs : string)
  : string * list string * option error :=
  if artifactRefs =? "" then ("", [], Some (Errorf "empty reference" []))
  else if ContainsRune artifactRefs "@"%char
  then ("", [], Some (Errorf "digest references are not supported: %q" [artifactRefs]))
  else
    let '(repoParts, tagsPart) := splitRepoAndTags artifactRefs in
    match ParseReference O repoParts with
    | Err err => ("", [], Some (Wrapf "invalid repository %q: %w" [repoParts] err))
    | Ok parsedRepo =>
        let repository := Reference_String O parsedRepo in
        if tagsPart =? "" then (repository, [], None)
        else
          let tagList := Split tagsPart ","%char in
          validateTags artifactRefs repository tagList []
    end.

Definition findTagsToBackup (O : Oracle) (ctx : Context) (repo : Target)
  (opts : backupOptions) : result (list string) :=
  if (0 <? Z.of_nat (List.length (tags opts)))%Z then Ok (tags opts)
  else registry_Tags O ctx repo.

Definition backupTag (O : Oracle) (ctx : Context) (src dst : Target)
  (tag : string) (includeReferrers : bool) (copyOpts : CopyOptions)
  (extCopyOpts : ExtendedCopyOptions) : M (Z * option error) :=
  if negb includeReferrers then
    r <- call (fun w => oras_Copy O w ctx src tag dst tag copyOpts)
              (EvCopy src tag dst tag copyOpts) ;;
    match snd r with
    | Some err => ret (0%Z, Some (Wrapf "failed to copy ref %s: %w" [tag] err))
    | None => ret (0%Z, None)
    end
  else
    (* copy with referrers *)
    match oras_Resolve O ctx src tag None with
    | Err err => ret (0%Z, Some (Wrapf "failed to resolve %s: %w" [tag] err))
    | Ok desc =>
        match Cp.prepareCopyOption O ctx src dst desc extCopyOpts with
        | (_, Some err) =>
            ret (0%Z, Some (Wrapf "failed to prepare extended copy options for %s: %w"
                              [tag] err))
        | (extCopyOpts, None) =>
            r <- call (fun w => oras_ExtendedCopy O w ctx src (Digest desc) dst tag
                                  extCopyOpts)
                      (EvExtendedCopy src (Digest desc) dst tag extCopyOpts) ;;
            match snd r with
            | Some err => ret (0%Z, Some (Wrapf "failed to copy tag %s: %w" [tag] err))
            | None =>
                match registry_Referrers O ctx dst desc "" with
                | Err err =>
                    ret (0%Z, Some (Wrapf "failed to get referrers for %s: %w" [tag] err))
                | Ok referrers => ret (Z.of_nat (List.length referrers), None)
                end
            end
        end
    end.

(** The function literal of lines 200-213, applied to one tag. *)
Definition backupTagStep (O : Oracle) (ctx : Context) (srcRepo dstOCI : Target)
  (t : string) (includeReferrers : bool) (copyOpts : CopyOptions)
  (extendedCopyOpts : ExtendedCopyOptions) : M (Z * option error) :=
  started <- call (fun w => StartTracking O w dstOCI) (EvStartTracking dstOCI) ;;
  match started with
  | Err err => ret (0%Z, Some err)
  | Ok trackedDst =>
      defer
        (backupTag O ctx srcRepo trackedDst t includeReferrers copyOpts extendedCopyOpts)
        (Cp.stopTrackingDeferred O)
  end.

(** The [for] loop of lines 199-220. *)
Fixpoint backupTags (O : Oracle) (ctx : Context) (srcRepo dstOCI : Target)
  (includeReferrers : bool) (copyOpts : CopyOptions)
  (extendedCopyOpts : ExtendedCopyOptions) (tags : list string)
  : M (option error) :=
  match tags with
  | [] => ret None
  | t :: rest =>
      r <- backupTagStep O ctx srcRepo dstOCI t includeReferrers copyOpts
             extendedCopyOpts ;;
      match snd r with
      | Some err => ret (Some (UnwrapCopyError O err))
      | None =>
          e <- call (fun w => OnArtifactPulled O w t (fst r))
                    (EvOnArtifactPulled t (fst r)) ;;
          match e with
          | Some err => ret (Some err)
          | None => backupTags O ctx srcRepo dstOCI includeReferrers copyOpts
                      extendedCopyOpts rest
          end
      end
  end.

(** A file-system call that removes the file [p] when it succeeds; a
    failure is handed to [onError]. *)
Definition removing (answer : World -> option error) (p : string)
  (onError : error -> M unit) : M unit :=
  e <- ask answer ;;
  match e with
  | Some err => onError err
  | None => update (removePath p)
  end.

(** The same for [os.RemoveAll], which takes the tree below [p] too. *)
Definition removingAll (answer : World -> option error) (p : string)
  (onError : error -> M unit) : M unit :=
  e <- ask answer ;;
  match e with
  | Some err => onError err
  | None => update (removeTree p)
  end.

Definition prepareBackupOutput (O : Oracle) (ctx : Context) (dstRoot : string)
  (opts : backupOptions) : M (option error) :=
  (* Remove ingest dir for a cleaner output *)
  let ingestDir := filepath_Join O dstRoot "ingest" in
  st <- ask (fun w => os_Stat O w ingestDir) ;;
  match st with
  | Ok _ =>
      removingAll (fun w => os_RemoveAll O w ingestDir) ingestDir
        (fun _ => tell (EvLogDebug "failed to remove ingest directory: %v" []))
  | Err _ => ret tt
  end ;;;
  if negb (outputFormat_of opts =? outputFormatTar)%Z then ret None
  else
    e <- call (fun w => OnTarExporting O w (output opts)) (EvOnTarExporting (output opts)) ;;
    match e with
    | Some err => ret (Some err)
    | None =>
        (* Create a temporary file for the tarball *)
        created <- ask (fun w => os_CreateTemp O w "" "oras-backup-*.tar") ;;
        match created with
        | Err err => ret (Some (Wrapf "failed to create temporary tar file: %w" [] err))
        | Ok tempTarPath =>
            update (createPath tempTarPath) ;;;
            e <- ask (fun w => TarDirectory O w ctx tempTarPath dstRoot) ;;
            match e with
            | Some err =>
                ret (Some (Wrapf "failed to create tar archive from directory %s: %w"
                             [dstRoot] err))
            | None =>
                e <- ask (fun w => file_Close O w tempTarPath) ;;
                match e with
                | Some err =>
                    ret (Some (Wrapf "failed to close temporary tar file: %w" [] err))
                | None =>
                    (* Ensure target directory exists *)
                    match (if filepath_IsAbs O (output opts) then Ok (output opts)
                           else filepath_Abs O (output opts)) with
                    | Err err =>
                        ret (Some (Wrapf "failed to get absolute path for output file %s: %w"
                                     [output opts] err))
                    | Ok absOutput =>
                        e <- ask (fun w => os_MkdirAll O w (filepath_Dir O absOutput)) ;;
                        match e with
                        | Some err =>
                            ret (Some (Wrapf "failed to create directory for output file %s: %w"
                                         [absOutput] err))
                        | None =>
                            (* Move the temporary tar file to the final output path *)
                            e <- ask (fun w => os_Rename O w tempTarPath absOutput) ;;
                            match e with
                            | Some err =>
                                removing (fun w => os_Remove O w tempTarPath) tempTarPath
                                  (fun _ =>
                                     tell (EvLogDebug
                                             "failed to remove temporary tar file %s: %v"
                                             [tempTarPath])) ;;;
                                ret (Some err)
                            | None =>
                                update (fun w => createPath absOutput
                                                   (removePath tempTarPath w)) ;;;
                                fi <- ask (fun w => os_Stat O w absOutput) ;;
                                match fi with
                                | Err err =>
                                    ret (Some (Wrapf "failed to stat output file %s: %w"
                                                 [absOutput] err))
                                | Ok size =>
                                    call (fun w => OnTarExported O w (output opts) size)
                                         (EvOnTarExported (output opts) size)
                                end
                            end
                        end
                    end
                end
            end
        end
    end.

(** [runBackup] after [dstRoot] is chosen (lines 157-225). *)
Definition runBackupIn (O : Oracle) (cmd : Command) (ctx : Context)
  (opts : backupOptions) (dstRoot : string) : M (option error) :=
  (* Prepare copy source and destination *)
  match NewRepository O (repository opts) with
  | Err err => ret (Some err)
  | Ok srcRepo =>
      update (createPaths (below dstRoot (oci_New_layout O dstRoot))) ;;;
      match oci_New O dstRoot with
      | Err err => ret (Some (Wrapf "failed to create OCI store: %w" [] err))
      | Ok dstOCI =>
          (* Find tags to back up *)
          match findTagsToBackup O ctx srcRepo opts with
          | Err err => ret (Some (Wrapf "failed to get tags to back up: %w" [] err))
          | Ok tags =>
              if (Z.of_nat (List.length tags) =? 0)%Z then
                ret (Some (OrasError
                  (Errorf "no tags found in repository %s, please specify at least one tag to back up"
                     [repository opts])
                  (ParentCommandPath cmd ++ " " ++ Use cmd)
                  ("If you want to list available tags in " ++ repository opts
                   ++ ", use " ++ dquote ++ "oras repo tags" ++ dquote)))
              else
                e <- call (fun w => OnTagsFound O w tags) (EvOnTagsFound tags) ;;
                match e with
                | Some err => ret (Some err)
                | None =>
                    (* Prepare copy options *)
                    let copyGraphOpts := DefaultCopyGraphOptions in
                    let copyGraphOpts := with_Concurrency copyGraphOpts (concurrency opts) in
                    let copyGraphOpts :=
                      with_callbacks copyGraphOpts (Some HandlerOnCopySkipped)
                        (Some HandlerPreCopy) (Some HandlerPostCopy)
                        (OnMounted copyGraphOpts) in
                    let copyOpts :=
                      {| CO_CopyGraphOptions := copyGraphOpts;
                         CO_TargetPlatform := None |} in
                    let extendedCopyOpts :=
                      {| ECO_ExtendedCopyGraphOptions :=
                           {| ECGO_CopyGraphOptions := copyGraphOpts;
                              FindPredecessors := None |} |} in
                    e <- backupTags O ctx srcRepo dstOCI (includeReferrers opts)
                           copyOpts extendedCopyOpts tags ;;
                    match e with
                    | Some err => ret (Some err)
                    | None =>
                        e <- prepareBackupOutput O ctx dstRoot opts ;;
                        match e with
                        | Some err => ret (Some err)
                        | None =>
                            call (fun w => OnBackupCompleted O w
                                             (Z.of_nat (List.length tags)) (output opts))
                                 (EvOnBackupCompleted (Z.of_nat (List.length tags))
                                    (output opts))
                        end
                    end
                end
          end
      end
  end.

Definition runBackup (O : Oracle) (cmd : Command) (ctx : Context)
  (opts : backupOptions) : M (option error) :=
  if (outputFormat_of opts =? outputFormatDir)%Z then
    runBackupIn O cmd ctx opts (output opts)
  else if (outputFormat_of opts =? outputFormatTar)%Z then
    made <- ask (fun w => os_MkdirTemp O w "" "oras-backup-*") ;;
    match made with
    | Err err => ret (Some (Wrapf "failed to create temporary directory: %w" [] err))
    | Ok tempDir =>
        update (createPath tempDir) ;;;
        defer
          (runBackupIn O cmd ctx opts tempDir)
          (fun r =>
             removingAll (fun w => os_RemoveAll O w tempDir) tempDir
               (fun _ => tell (EvLogDebug "failed to remove temporary directory %s: %v"
                                 [tempDir])) ;;;
             ret r)
    end
  else
    (* this should not happen *)
    ret (Some (Errorf "unsupported output format" [])).

(** [PreRunE] of [backupCmd], on the single argument [Args] lets through. *)
Definition backupCmd_PreRunE (O : Oracle) (opts : backupOptions) (arg0 : string)
  : backupOptions * option error :=
  match option_Parse O with
  | Some err => (opts, Some err)
  | None =>
      (* parse repo and references *)
      let '(repo, tgs, err) := parseArtifactsToBackup O arg0 in
      let opts :=
        {| output := output opts; includeReferrers := includeReferrers opts;
           concurrency := concurrency opts; outputFormat_of := outputFormat_of opts;
           repository := repo; tags := tgs |} in
      match err with
      | Some err => (opts, Some err)
      | None =>
          (* parse output format *)
          ({| output := output opts; includeReferrers := includeReferrers opts;
              concurrency := concurrency opts;
              outputFormat_of :=
                if HasSuffix (output opts) ".tar" then outputFormatTar
                else outputFormatDir;
              repository := repository opts; tags := tags opts |}, None)
      end
  end.

(** cobra runs [RunE] only after [PreRunE] returned nil. *)
Definition backupCmd_Execute (O : Oracle) (cmd : Command) (ctx : Context)
  (opts : backupOptions) (arg0 : string) : M (option error) :=
  match backupCmd_PreRunE O opts arg0 with
  | (_, Some err) => ret (Some err)
  | (opts, None) => runBackup O cmd ctx opts
  end.

(** The tags a tag list puts forward: every segment trimmed, the empty
    ones dropped. *)
Definition candidates (tagList : list string) : list string :=
  filter (fun tag => negb (tag =? "")) (map TrimSpace tagList).

(** The grammar of [tagRegexp] read off its source text: one word
    character, then at most 127 characters that are word characters,
    dots or dashes. *)
Definition wellFormedTag (tag : string) : bool :=
  match tag with
  | EmptyString => false
  | String c rest =>
      isWord c && ((String.length rest <=? 127)%nat && allBytes isWordDotDash rest)
  end.


(** The error [runBackup] raises when there is nothing to back up. *)
Definition noTagsFoundError (cmd : Command) (repository : string) : error :=
  OrasError
    (Errorf "no tags found in repository %s, please specify at least one tag to back up"
       [repository])
    (ParentCommandPath cmd ++ " " ++ Use cmd)
    ("If you want to list available tags in " ++ repository
     ++ ", use " ++ dquote ++ "oras repo tags" ++ dquote).

(** Events of a per-tag step: tracking, engine calls, the pulled report. *)
Definition isTagStepEvent (e : Event) : bool :=
  match e with
  | EvStartTracking _ | EvStopTracking | EvOnArtifactPulled _ _ => true
  | _ => Cp.isEngineCall e
  end.

End Backup.

(** Unfolds the state-passing combinators and reduces. *)
Ltac run_go :=
  cbv beta iota delta
    [bind ask call tell update ret defer Backup.removing Backup.removingAll
     fst snd].

(* ================================================================== *)
(** ** A scripted run, for concrete evaluations *)

Module Script.
Import GoStrings.

(** What the collaborators answer in a scripted run. *)
Record Answers : Type := mkAnswers {
  indexManifests : list Descriptor;
  childReferrersFound : list Descriptor;
  rootReferrers : list Descriptor;
  remoteTags : list string;
  copyError : option error;
  stopError : option error;
  tarError : option error;
  closeError : option error;
  renameError : option error;
  removeError : option error
}.

Definition splitAtSlash (s : string) : Reference :=
  match Split s "/"%char with
  | h :: _ => {| Registry := h;
                 Repository := sliceFrom s (String.length h + 1) |}
  | [] => {| Registry := s; Repository := "" |}
  end.

Definition scripted (a : Answers) : Oracle :=
  {| FetchAll := fun _ _ _ => Ok "index bytes";
     UnmarshalIndex := fun _ => Ok {| Manifests := indexManifests a |};
     graph_FindPredecessors := fun _ _ _ _ => Ok (childReferrersFound a);
     registry_Referrers := fun _ _ _ _ => Ok (rootReferrers a);
     registry_Tags := fun _ _ => Ok (remoteTags a);
     oras_Resolve := fun _ _ ref _ =>
       Ok {| MediaType := MediaTypeImageIndex; Digest := "sha256:aaa";
             Size := 10; Annotations := [] |};
     oras_CopyGraph := fun _ _ _ _ _ _ => copyError a;
     oras_Copy := fun _ _ _ _ _ _ _ => (zeroDescriptor, copyError a);
     oras_ExtendedCopyGraph := fun _ _ _ _ _ _ => copyError a;
     oras_ExtendedCopy := fun _ _ _ _ _ _ _ => (zeroDescriptor, copyError a);
     StartTracking := fun _ dst => Ok (TrackedTarget dst);
     StopTracking := fun _ => stopError a;
     OnTagsFound := fun _ _ => None;
     OnArtifactPulled := fun _ _ _ => None;
     OnTarExporting := fun _ _ => None;
     OnTarExported := fun _ _ _ => None;
     OnBackupCompleted := fun _ _ _ => None;
     option_Parse := None;
     NewRepository := fun repo => Ok (RemoteRepository (splitAtSlash repo));
     oci_New := fun root => Ok (OCIStore root);
     oci_New_layout := fun _ => ["blobs"; "oci-layout"; "index.json"];
     UnwrapCopyError := fun e => e;
     ParseReference := fun s =>
       if ContainsRune s "/"%char then Ok (splitAtSlash s)
       else Err (ErrExternal "invalid reference: missing registry or repository");
     Reference_String := fun r => (Registry r ++ "/" ++ Repository r)%string;
     os_MkdirTemp := fun _ _ _ => Ok "/tmp/oras-backup-1";
     os_RemoveAll := fun _ _ => None;
     os_Stat := fun _ _ => Ok 2048%Z;
     os_CreateTemp := fun _ _ _ => Ok "/tmp/oras-backup-2.tar";
     TarDirectory := fun _ _ _ _ => tarError a;
     file_Close := fun _ _ => closeError a;
     filepath_IsAbs := fun p => HasPrefix p "/";
     filepath_Abs := fun p => Ok ("/work/" ++ p)%string;
     filepath_Dir := fun p => "/work";
     filepath_Join := fun a b => (a ++ "/" ++ b)%string;
     os_MkdirAll := fun _ _ => None;
     os_Rename := fun _ _ _ => renameError a;
     os_Remove := fun _ _ => removeError a |}.

Definition desc (mediaType digest : string) (size : Z) : Descriptor :=
  {| MediaType := mediaType; Digest := digest; Size := size; Annotations := [] |}.

Definition manifestType : string := "application/vnd.oci.image.manifest.v1+json".

(** The index [sha256:aaa] with children [bbb] and [ccc]; [ddd] refers
    to [ccc]. *)
Definition rootAaa : Descriptor := desc MediaTypeImageIndex "sha256:aaa" 10.
Definition childBbb : Descriptor := desc manifestType "sha256:bbb" 20.
Definition childCcc : Descriptor := desc manifestType "sha256:ccc" 30.
Definition referrerDdd : Descriptor := desc manifestType "sha256:ddd" 40.

(** [rootAaa] again, as a referrer listing would carry it: annotated. *)
Definition rootAaaAnnotated : Descriptor :=
  {| MediaType := MediaTypeImageIndex; Digest := "sha256:aaa"; Size := 10;
     Annotations := [("org.opencontainers.image.created", "today")] |}.

Definition quiet : Answers :=
  {| indexManifests := [childBbb; childCcc];
     childReferrersFound := [referrerDdd; rootAaaAnnotated];
     rootReferrers := [];
     remoteTags := ["v1"; "v2"];
     copyError := None; stopError := None; tarError := None;
     closeError := None; renameError := None; removeError := None |}.

(** Runs in which one collaborator fails. *)
Definition with_copy_and_stop_errors (a : Answers) (copy stop : option error)
  : Answers :=
  {| indexManifests := indexManifests a;
     childReferrersFound := childReferrersFound a;
     rootReferrers := rootReferrers a; remoteTags := remoteTags a;
     copyError := copy; stopError := stop; tarError := tarError a;
     closeError := closeError a; renameError := renameError a;
     removeError := removeError a |}.

Definition with_tar_error (a : Answers) (tar : option error) : Answers :=
  {| indexManifests := indexManifests a;
     childReferrersFound := childReferrersFound a;
     rootReferrers := rootReferrers a; remoteTags := remoteTags a;
     copyError := copyError a; stopError := stopError a; tarError := tar;
     closeError := closeError a; renameError := renameError a;
     removeError := removeError a |}.

Definition with_remote_tags (a : Answers) (found : list string) : Answers :=
  {| indexManifests := indexManifests a;
     childReferrersFound := childReferrersFound a;
     rootReferrers := rootReferrers a; remoteTags := found;
     copyError := copyError a; stopError := stopError a; tarError := tarError a;
     closeError := closeError a; renameError := renameError a;
     removeError := removeError a |}.

Definition with_child_referrers (a : Answers) (found : list Descriptor) : Answers :=
  {| indexManifests := indexManifests a;
     childReferrersFound := found;
     rootReferrers := rootReferrers a; remoteTags := remoteTags a;
     copyError := copyError a; stopError := stopError a; tarError := tarError a;
     closeError := closeError a; renameError := renameError a;
     removeError := removeError a |}.

Definition pushFailed : error := ErrExternal "push failed".
Definition closeFailed : error := ErrExternal "tracker close failed".
Definition tarFailed : error := ErrExternal "context canceled".

Definition srcRepo : Target :=
  RemoteRepository {| Registry := "localhost:5000"; Repository := "hello" |}.
Definition dstSameHost : Target :=
  RemoteRepository {| Registry := "localhost:5000"; Repository := "hello-copy" |}.
Definition dstOtherHost : Target :=
  RemoteRepository {| Registry := "localhost:6000"; Repository := "hello-copy" |}.

(** The options [doCopy] starts from, with the referrers lookup in. *)
Definition lookupOptions (O : Oracle) : ExtendedCopyOptions :=
  with_FindPredecessors DefaultExtendedCopyOptions (Cp.referrersLookup O).

Definition tarBackup : Backup.backupOptions :=
  {| Backup.output := "hello.tar"; Backup.includeReferrers := false;
     Backup.concurrency := 3; Backup.outputFormat_of := Backup.outputFormatTar;
     Backup.repository := "localhost:5000/hello"; Backup.tags := [] |}.

Definition recursiveTo (dstRef : string) : Cp.copyOptions :=
  {| Cp.recursive := true; Cp.concurrency := 3; Cp.From_Reference := "v1";
     Cp.To_Reference := dstRef; Cp.Platform := None |}.

Definition recursiveCp : Cp.copyOptions := recursiveTo "v1".

Definition backupCommand : Command :=
  {| ParentCommandPath := "oras";
     Use := "backup [flags] --output <path> <registry>/<repository>[:<ref1>[,<ref2>...]]" |}.

(** The runs the evaluations below are made on. *)
Definition scriptedIndex : Index := {| Manifests := [childBbb; childCcc] |}.

Definition failingCopy : Oracle :=
  scripted (with_copy_and_stop_errors quiet (Some pushFailed) (Some closeFailed)).

Definition failingStop : Oracle :=
  scripted (with_copy_and_stop_errors quiet None (Some closeFailed)).

Definition plainCopyOptions : CopyOptions :=
  {| CO_CopyGraphOptions := DefaultCopyGraphOptions; CO_TargetPlatform := None |}.

Definition helloRepo : Reference :=
  {| Registry := "localhost:5000"; Repository := "hello" |}.

Fixpoint spaces (n : nat) : string :=
  match n with
  | O => EmptyString
  | S n' => String " "%char (spaces n')
  end.

(** The tag [v1] followed by 128 spaces: 130 bytes between the commas. *)
Definition paddedTag : string := "v1" ++ spaces 128.

Definition noChildReferrers : Oracle := scripted (with_child_referrers quiet []).

Definition noRemoteTags : Oracle := scripted (with_remote_tags quiet []).

Definition failingTar : Oracle := scripted (with_tar_error quiet (Some tarFailed)).

End Script.

(* ================================================================== *)
(** ** The copy command: [copyCmd] and [runCopy] *)

Module CopyCommand.
Import GoStrings.

(** Lines 96-99 of cp.go: the second argument split at its commas into
    [opts.To.RawReference] and [opts.extraRefs]. *)
Definition splitDestination (arg1 : string) : string * list string :=
  match Split arg1 ","%char with
  | ref0 :: extra => (ref0, extra)
  | [] => (EmptyString, [])
  end.

(** [strings.Join(elems, ",")] *)
Fixpoint JoinComma (elems : list string) : string :=
  match elems with
  | [] => EmptyString
  | [e] => e
  | e :: rest => e ++ String ","%char (JoinComma rest)
  end.

(** What [runCopy] reads of its options besides what [doCopy] reads:
    [opts.From.RawReference], [opts.From.Path] and [opts.extraRefs]. *)
Record runCopyOptions : Type := mkrunCopyOptions {
  copyOpts : Cp.copyOptions;
  From_RawReference : string;
  From_Path : string;
  extraRefs : list string
}.

(** The collaborators of [runCopy] that [doCopy] does not call: the
    target constructors of [option.BinaryTarget], [digest.Parse],
    [oras.TagN] and the metadata handler. *)
Record CommandOracle : Type := mkCommandOracle {
  NewReadonlyTarget : result Target;
  EnsureSourceTargetReferenceNotEmpty : option error;
  NewTarget : result Target;
  digest_Parse : string -> result string;
  OnCopied : World -> string -> Descriptor -> option error;
  oras_TagN : World -> Context -> Target -> string -> list string -> Z ->
    option error;
  Render : World -> option error
}.

(** What [runCopy] has asked of the metadata handler and of [oras.TagN],
    in order. *)
Inductive CommandStep : Type :=
| StepOnCopied (fromRawReference : string) (desc : Descriptor)
| StepTagN (dst : Target) (srcReference : string) (dstReferences : list string)
           (concurrency : Z)
| StepRender.

(** Lines 146-149: the source reference is rewritten when it is a digest
    other than the one copied. *)
Definition correctedRawReference (C : CommandOracle) (opts : runCopyOptions)
  (desc : Descriptor) : string :=
  match digest_Parse C (Cp.From_Reference (copyOpts opts)) with
  | Ok from =>
      if negb (from =? Digest desc)
      then From_Path opts ++ "@" ++ Digest desc
      else From_RawReference opts
  | Err _ => From_RawReference opts
  end.

Definition runCopy (O : Oracle) (C : CommandOracle) (ctx : Context)
  (opts : runCopyOptions) : M (option error * list CommandStep) :=
  (* Prepare source *)
  match NewReadonlyTarget C with
  | Err err => ret (Some err, [])
  | Ok src =>
      match EnsureSourceTargetReferenceNotEmpty C with
      | Some err => ret (Some err, [])
      | None =>
          (* Prepare destination *)
          match NewTarget C with
          | Err err => ret (Some err, [])
          | Ok dst =>
              let ctx := ctxWithScopeHint ctx in
              r <- Cp.doCopy O ctx src dst (copyOpts opts) ;;
              match snd r with
              | Some err => ret (Some err, [])
              | None =>
                  let desc := fst r in
                  let rawReference := correctedRawReference C opts desc in
                  let copied := StepOnCopied rawReference desc in
                  e <- ask (fun w => OnCopied C w rawReference desc) ;;
                  match e with
                  | Some err => ret (Some err, [copied])
                  | None =>
                      if negb (List.length (extraRefs opts) =? 0)%nat then
                        let tagged :=
                          StepTagN dst (Cp.To_Reference (copyOpts opts))
                            (extraRefs opts) (Cp.concurrency (copyOpts opts)) in
                        e <- ask (fun w =>
                                    oras_TagN C w ctx dst
                                      (Cp.To_Reference (copyOpts opts))
                                      (extraRefs opts)
                                      (Cp.concurrency (copyOpts opts))) ;;
                        match e with
                        | Some err => ret (Some err, [copied; tagged])
                        | None =>
                            e <- ask (Render C) ;;
                            ret (e, [copied; tagged; StepRender])
                        end
                      else
                        e <- ask (Render C) ;;
                        ret (e, [copied; StepRender])
                  end
              end
          end
      end
  end.

End CopyCommand.

(* ================================================================== *)
(** ** What a computation logs *)

Module Trace.

(** Every event [m] adds to the log satisfies [P]. *)
Definition emits {A : Type} (P : Event -> Prop) (m : M A) : Prop :=
  forall w : World,
    exists made : list Event,
      events (snd (m w)) = made ++ events w /\ Forall P made.

Definition isTrackingEvent (e : Event) : bool :=
  match e with
  | EvStartTracking _ | EvStopTracking => true
  | _ => false
  end.

Definition isExtendedCall (e : Event) : bool :=
  match e with
  | EvExtendedCopyGraph _ _ _ _ | EvExtendedCopy _ _ _ _ _ => true
  | _ => false
  end.


(** The pulled reports in a log, in the order of the log. *)
Fixpoint pulledReports (log : list Event) : list (string * Z) :=
  match log with
  | [] => []
  | EvOnArtifactPulled tag count :: rest => (tag, count) :: pulledReports rest
  | _ :: rest => pulledReports rest
  end.

(** No lookup, or one that does not return whatever it is asked. *)
Definition noLookupOrPanics (o : ExtendedCopyOptions) : Prop :=
  ECO_FindPredecessors o = None
  \/ exists f : PredecessorFn,
       ECO_FindPredecessors o = Some f
       /\ forall (qctx : Context) (qsrc : Target) (d : Descriptor),
            f qctx qsrc d = NilFuncPanic.

(** The graph options [runBackup] builds on lines 185-189. *)
Definition backupGraphOptions (concurrency : Z) : CopyGraphOptions :=
  {| Concurrency := concurrency;
     PreCopy := Some HandlerPreCopy; PostCopy := Some HandlerPostCopy;
     OnCopySkipped := Some HandlerOnCopySkipped; OnMounted := None;
     MountFrom := None |}.

End Trace.

(* ================================================================== *)
(** ** More scripted runs *)

Module ScriptExtras.
Import Script.

(** [O] with another answer to [content.FetchAll]. *)
Definition withFetchAll (O : Oracle)
  (fetch : Context -> Target -> Descriptor -> result string) : Oracle :=
  {| FetchAll := fetch;
     UnmarshalIndex := UnmarshalIndex O;
     graph_FindPredecessors := graph_FindPredecessors O;
     registry_Referrers := registry_Referrers O;
     registry_Tags := registry_Tags O;
     oras_Resolve := oras_Resolve O;
     oras_CopyGraph := oras_CopyGraph O;
     oras_Copy := oras_Copy O;
     oras_ExtendedCopyGraph := oras_ExtendedCopyGraph O;
     oras_ExtendedCopy := oras_ExtendedCopy O;
     StartTracking := StartTracking O;
     StopTracking := StopTracking O;
     OnTagsFound := OnTagsFound O;
     OnArtifactPulled := OnArtifactPulled O;
     OnTarExporting := OnTarExporting O;
     OnTarExported := OnTarExported O;
     OnBackupCompleted := OnBackupCompleted O;
     option_Parse := option_Parse O;
     NewRepository := NewRepository O;
     oci_New := oci_New O;
     oci_New_layout := oci_New_layout O;
     UnwrapCopyError := UnwrapCopyError O;
     ParseReference := ParseReference O;
     Reference_String := Reference_String O;
     os_MkdirTemp := os_MkdirTemp O;
     os_RemoveAll := os_RemoveAll O;
     os_Stat := os_Stat O;
     os_CreateTemp := os_CreateTemp O;
     TarDirectory := TarDirectory O;
     file_Close := file_Close O;
     filepath_IsAbs := filepath_IsAbs O;
     filepath_Abs := filepath_Abs O;
     filepath_Dir := filepath_Dir O;
     filepath_Join := filepath_Join O;
     os_MkdirAll := os_MkdirAll O;
     os_Rename := os_Rename O;
     os_Remove := os_Remove O |}.

Definition fetchFailed : error := ErrExternal "manifest unknown".

(** A source whose index cannot be fetched. *)
Definition failingFetch : Oracle :=
  withFetchAll (scripted quiet) (fun _ _ _ => Err fetchFailed).

(** Two runs in which the children's referrers come back in two orders. *)
Definition referrerEee : Descriptor := desc manifestType "sha256:eee" 50.

Definition referrersOneWay : Oracle :=
  scripted (with_child_referrers quiet [referrerDdd; rootAaaAnnotated; referrerEee]).

Definition referrersOtherWay : Oracle :=
  scripted (with_child_referrers quiet [referrerEee; referrerDdd; rootAaaAnnotated]).

Definition plainCopyTo (dstRef : string) : Cp.copyOptions :=
  {| Cp.recursive := false; Cp.concurrency := 3; Cp.From_Reference := "v1";
     Cp.To_Reference := dstRef; Cp.Platform := Some "linux/arm/v5" |}.

Definition dirBackup : Backup.backupOptions :=
  {| Backup.output := "hello"; Backup.includeReferrers := true;
     Backup.concurrency := 3; Backup.outputFormat_of := Backup.outputFormatDir;
     Backup.repository := "localhost:5000/hello"; Backup.tags := ["v1"] |}.

(** A directory backup of every tag the registry lists. *)
Definition dirBackupAll : Backup.backupOptions :=
  {| Backup.output := "hello"; Backup.includeReferrers := false;
     Backup.concurrency := 3; Backup.outputFormat_of := Backup.outputFormatDir;
     Backup.repository := "localhost:5000/hello"; Backup.tags := [] |}.


(** [oras cp localhost:5000/hello:v1 localhost:6000/hello-copy:v1,v2,v3]. *)
Definition copyWithExtraTags : CopyCommand.runCopyOptions :=
  {| CopyCommand.copyOpts := plainCopyTo "v1";
     CopyCommand.From_RawReference := "localhost:5000/hello:v1";
     CopyCommand.From_Path := "localhost:5000/hello";
     CopyCommand.extraRefs := ["v2"; "v3"] |}.

(** The collaborators of [runCopy] in a run where all goes well and the
    source reference is no digest. *)
Definition quietCommand : CopyCommand.CommandOracle :=
  {| CopyCommand.NewReadonlyTarget := Ok srcRepo;
     CopyCommand.EnsureSourceTargetReferenceNotEmpty := None;
     CopyCommand.NewTarget := Ok dstOtherHost;
     CopyCommand.digest_Parse := fun _ => Err (ErrExternal "invalid checksum digest format");
     CopyCommand.OnCopied := fun _ _ _ => None;
     CopyCommand.oras_TagN := fun _ _ _ _ _ _ => None;
     CopyCommand.Render := fun _ => None |}.

End ScriptExtras.

(* ================================================================== *)
(** * Properties *)

(** ** Descriptor equality *)

Lemma Equal_spec (a b : Descriptor) :
  Equal a b = true <->
  Digest a = Digest b /\ MediaType a = MediaType b /\ Size a = Size b.
Proof.
  unfold Equal. rewrite !andb_true_iff, Z.eqb_eq, !String.eqb_eq. tauto.
Qed.

Lemma Equal_ignores_annotations (a : Descriptor) (ann : list (string * string)) :
  Equal {| MediaType := MediaType a; Digest := Digest a; Size := Size a;
           Annotations := ann |} a = true.
Proof. apply Equal_spec; simpl; auto. Qed.

(** ** The referrer-closure resolver *)

Module ClosureProofs.
Import Cp.

Lemma isIndex_test (root : Descriptor) :
  isIndex root ->
  negb (MediaType root =? MediaTypeImageIndex)
  && negb (MediaType root =? MediaTypeManifestList) = false.
Proof.
  intros [H | H]; rewrite H.
  - reflexivity.
  - rewrite String.eqb_refl, andb_false_r. reflexivity.
Qed.

Lemma length_zero_test (A : Type) (l : list A) :
  (List.length l =? 0)%nat = true <-> l = [].
Proof.
  destruct l; simpl; split; intro H; try reflexivity; discriminate.
Qed.

Lemma length_nonzero_test (A : Type) (l : list A) :
  l <> [] -> (List.length l =? 0)%nat = false.
Proof. destruct l; simpl; congruence. Qed.

Lemma DeleteFunc_In (A : Type) (del : A -> bool) (s : list A) (x : A) :
  In x (DeleteFunc s del) <-> In x s /\ del x = false.
Proof.
  unfold DeleteFunc. rewrite filter_In, negb_true_iff. tauto.
Qed.

(** What [prepareCopyOption] computes once the children's referrers
    [merged] are known. *)
Lemma prepareCopyOption_index (O : Oracle) (ctx : Context) (src dst : Target)
  (root : Descriptor) (opts : ExtendedCopyOptions)
  (fetched : string) (index : Index) (merged : list Descriptor) :
  isIndex root ->
  FetchAll O ctx src root = Ok fetched ->
  UnmarshalIndex O fetched = Ok index ->
  Manifests index <> [] ->
  graph_FindPredecessors O ctx src (Manifests index) opts = Ok merged ->
  prepareCopyOption O ctx src dst root opts =
    let referrers := DeleteFunc merged (fun desc => Equal desc root) in
    if (List.length referrers =? 0)%nat then (opts, None)
    else (with_FindPredecessors opts
            (augmentedPredecessors (ECO_FindPredecessors opts) root referrers),
          None).
Proof.
  intros Hidx Hfetch Hjson Hne Hpred.
  unfold prepareCopyOption.
  rewrite (isIndex_test root Hidx), Hfetch, Hjson, (length_nonzero_test _ _ Hne), Hpred.
  reflexivity.
Qed.

(** [prepareCopyOption] leaves every option but the lookup alone. *)
Lemma prepareCopyOption_CopyGraphOptions (O : Oracle) (ctx : Context)
  (src dst : Target) (root : Descriptor) (opts : ExtendedCopyOptions) :
  ECO_CopyGraphOptions (fst (prepareCopyOption O ctx src dst root opts))
  = ECO_CopyGraphOptions opts.
Proof.
  unfold prepareCopyOption.
  repeat match goal with
         | |- context [if ?b then _ else _] => destruct b
         | |- context [match ?x with Ok _ => _ | Err _ => _ end] => destruct x
         end; reflexivity.
Qed.

(** C1. For an Index root whose merged child-referrer set is not empty,
    the lookup [prepareCopyOption] returns answers a query [d] with the
    answer of the base lookup when [d] is not the root, with that answer
    followed by the merged set when [d] equals the root, and with the
    base lookup's error and no descriptors when the base lookup fails. *)
Theorem prepareCopyOption_augments_root_lookup
  (O : Oracle) (ctx : Context) (src dst : Target) (root : Descriptor)
  (opts : ExtendedCopyOptions) (fetched : string) (index : Index)
  (merged : list Descriptor) :
  isIndex root ->
  FetchAll O ctx src root = Ok fetched ->
  UnmarshalIndex O fetched = Ok index ->
  Manifests index <> [] ->
  graph_FindPredecessors O ctx src (Manifests index) opts = Ok merged ->
  DeleteFunc merged (fun desc => Equal desc root) <> [] ->
  let referrers := DeleteFunc merged (fun desc => Equal desc root) in
  exists (opts' : ExtendedCopyOptions) (lookup : PredecessorFn),
    prepareCopyOption O ctx src dst root opts = (opts', None)
    /\ ECO_FindPredecessors opts' = Some lookup
    /\ ECO_CopyGraphOptions opts' = ECO_CopyGraphOptions opts
    /\ forall (qctx : Context) (qsrc : Target) (d : Descriptor),
         match callPredecessors (ECO_FindPredecessors opts) qctx qsrc d with
         | Returns (descs, None) =>
             (Equal d root = false -> lookup qctx qsrc d = Returns (descs, None))
             /\ (Equal d root = true ->
                 lookup qctx qsrc d = Returns (descs ++ referrers, None))
         | Returns (_, Some err) => lookup qctx qsrc d = Returns ([], Some err)
         | NilFuncPanic => lookup qctx qsrc d = NilFuncPanic
         end.
Proof.
  intros Hidx Hfetch Hjson Hne Hpred Hrefs referrers. subst referrers.
  eexists. eexists.
  split.
  - rewrite (prepareCopyOption_index O ctx src dst root opts fetched index merged Hidx Hfetch Hjson Hne Hpred).
    cbv zeta. rewrite (length_nonzero_test _ _ Hrefs). reflexivity.
  - split; [reflexivity | split; [reflexivity |]].
    intros qctx qsrc d. unfold augmentedPredecessors.
    destruct (callPredecessors (ECO_FindPredecessors opts) qctx qsrc d)
      as [[descs [err |]] |]; try reflexivity.
    split; intros ->; reflexivity.
Qed.

(** C2. Every descriptor equal to the root is dropped from the merged
    set, the others are kept, and whatever lookup [prepareCopyOption]
    returns appends for the root exactly that set: no descriptor equal
    to the root is appended. *)
Theorem prepareCopyOption_excludes_root
  (O : Oracle) (ctx : Context) (src dst : Target) (root : Descriptor)
  (opts : ExtendedCopyOptions) (fetched : string) (index : Index)
  (merged : list Descriptor) :
  isIndex root ->
  FetchAll O ctx src root = Ok fetched ->
  UnmarshalIndex O fetched = Ok index ->
  Manifests index <> [] ->
  graph_FindPredecessors O ctx src (Manifests index) opts = Ok merged ->
  exists appended : list Descriptor,
    (forall x, In x appended -> Equal x root = false)
    /\ (forall x, In x merged -> Equal x root = true -> ~ In x appended)
    /\ (forall x, In x merged -> Equal x root = false -> In x appended)
    /\ snd (prepareCopyOption O ctx src dst root opts) = None
    /\ forall (qctx : Context) (qsrc : Target) (d : Descriptor)
              (descs : list Descriptor),
         Equal d root = true ->
         callPredecessors (ECO_FindPredecessors opts) qctx qsrc d
           = Returns (descs, None) ->
         callPredecessors
           (ECO_FindPredecessors (fst (prepareCopyOption O ctx src dst root opts)))
           qctx qsrc d
           = Returns (descs ++ appended, None).
Proof.
  intros Hidx Hfetch Hjson Hne Hpred.
  exists (DeleteFunc merged (fun desc => Equal desc root)).
  repeat split.
  - intros x Hx. apply DeleteFunc_In in Hx. tauto.
  - intros x _ Heq Hx. apply DeleteFunc_In in Hx. destruct Hx as [_ Hx].
    congruence.
  - intros x Hx Heq. apply DeleteFunc_In. tauto.
  - rewrite (prepareCopyOption_index O ctx src dst root opts fetched index merged Hidx Hfetch Hjson Hne Hpred).
    cbv zeta. destruct (List.length _ =? 0)%nat; reflexivity.
  - intros qctx qsrc d descs Hd Hbase.
    rewrite (prepareCopyOption_index O ctx src dst root opts fetched index merged Hidx Hfetch Hjson Hne Hpred).
    cbv zeta.
    destruct (List.length (DeleteFunc merged (fun desc => Equal desc root)) =? 0)%nat
      eqn:Hlen.
    + apply length_zero_test in Hlen. rewrite Hlen, app_nil_r. exact Hbase.
    + simpl. unfold augmentedPredecessors. rewrite Hbase, Hd. reflexivity.
Qed.

(** C3. For a root that is not an Index, for a root whose parsed child
    list is empty, and for a root whose merged child-referrer set is
    empty once the root itself is excluded, [prepareCopyOption] returns
    the options it was given and no error; the lookup in them answers
    every query as before. *)
Theorem prepareCopyOption_noop
  (O : Oracle) (ctx : Context) (src dst : Target) (root : Descriptor)
  (opts : ExtendedCopyOptions) :
  (MediaType root <> MediaTypeImageIndex
   /\ MediaType root <> MediaTypeManifestList)
  \/ (exists fetched index,
        isIndex root
        /\ FetchAll O ctx src root = Ok fetched
        /\ UnmarshalIndex O fetched = Ok index
        /\ Manifests index = [])
  \/ (exists fetched index merged,
        isIndex root
        /\ FetchAll O ctx src root = Ok fetched
        /\ UnmarshalIndex O fetched = Ok index
        /\ graph_FindPredecessors O ctx src (Manifests index) opts = Ok merged
        /\ DeleteFunc merged (fun desc => Equal desc root) = []) ->
  prepareCopyOption O ctx src dst root opts = (opts, None)
  /\ forall (qctx : Context) (qsrc : Target) (d : Descriptor),
       callPredecessors
         (ECO_FindPredecessors (fst (prepareCopyOption O ctx src dst root opts)))
         qctx qsrc d
       = callPredecessors (ECO_FindPredecessors opts) qctx qsrc d.
Proof.
  intros H.
  assert (Hsame : prepareCopyOption O ctx src dst root opts = (opts, None)).
  { unfold prepareCopyOption.
    destruct H as [[H1 H2] | [(fetched & index & Hidx & Hf & Hj & Hm)
                             | (fetched & index & merged & Hidx & Hf & Hj & Hp & Hd)]].
    - apply String.eqb_neq in H1, H2. rewrite H1, H2. reflexivity.
    - rewrite (isIndex_test root Hidx), Hf, Hj, Hm. reflexivity.
    - rewrite (isIndex_test root Hidx), Hf, Hj.
      destruct (List.length (Manifests index) =? 0)%nat; [reflexivity |].
      rewrite Hp, Hd. reflexivity. }
  split; [exact Hsame |].
  intros. rewrite Hsame. reflexivity.
Qed.

End ClosureProofs.

(** ** The copy orchestrator *)

Module CopyProofs.
Import Cp.

(** Running a deferred [StopTracking] after [body]. *)
Lemma defer_stopTracking (A : Type) (O : Oracle) (body : M (A * option error))
  (w : World) :
  defer body (stopTrackingDeferred O) w =
    (let (r, w1) := body w in
     ((fst r, match snd r with
              | None => StopTracking O w1
              | Some err => Some err
              end),
      log EvStopTracking w1)).
Proof.
  unfold defer, stopTrackingDeferred, bind, call, ask, tell, ret.
  destruct (body w) as [r w1]. reflexivity.
Qed.

(** In recursive mode the tracked part of [doCopy] resolves the source
    reference and hands the root to [recursiveCopy]. *)
Lemma doCopyTracked_recursive (O : Oracle) (ctx : Context) (src dst : Target)
  (opts : copyOptions) (eco : ExtendedCopyOptions) (root : Descriptor) (w : World) :
  recursive opts = true ->
  oras_Resolve O ctx src (From_Reference opts) (Platform opts) = Ok root ->
  doCopyTracked O ctx src dst opts eco w =
    (let (err, w') :=
       recursiveCopy O ctx src dst (To_Reference opts) root
         (withStatusHandlers eco) w in
     ((root, err), w')).
Proof.
  intros Hrec Hres. unfold doCopyTracked. rewrite Hrec, Hres.
  unfold bind, ret. reflexivity.
Qed.

(** C5. A recursive copy whose source reference resolved to [root], once
    the closure resolver has returned the options [prepared]: with an
    empty destination reference, or one that is the root's digest string,
    the one engine call made is the graph-only extended copy of [root],
    which tags nothing; with any other destination reference it is the
    tagging extended copy, from the root's digest string as source
    reference to that destination reference.  So it is for
    [recursiveCopy], and for the tracked part of [doCopy] in recursive
    mode, which returns [root] with the engine's error. *)
Theorem recursiveCopy_tags_unless_digest
  (O : Oracle) (ctx : Context) (src dst : Target) (opts : copyOptions)
  (eco prepared : ExtendedCopyOptions) (root : Descriptor) (w : World) :
  recursive opts = true ->
  oras_Resolve O ctx src (From_Reference opts) (Platform opts) = Ok root ->
  prepareCopyOption O ctx src dst root (withStatusHandlers eco) = (prepared, None) ->
  let dstRef := To_Reference opts in
  (dstRef = "" \/ dstRef = Digest root ->
     let err := oras_ExtendedCopyGraph O w ctx src dst root
                  (ECO_ExtendedCopyGraphOptions prepared) in
     let w' := log (EvExtendedCopyGraph src dst root
                      (ECO_ExtendedCopyGraphOptions prepared)) w in
     recursiveCopy O ctx src dst dstRef root (withStatusHandlers eco) w = (err, w')
     /\ doCopyTracked O ctx src dst opts eco w = ((root, err), w'))
  /\ (dstRef <> "" -> dstRef <> Digest root ->
     let err := snd (oras_ExtendedCopy O w ctx src (Digest root) dst dstRef
                       prepared) in
     let w' := log (EvExtendedCopy src (Digest root) dst dstRef prepared) w in
     recursiveCopy O ctx src dst dstRef root (withStatusHandlers eco) w = (err, w')
     /\ doCopyTracked O ctx src dst opts eco w = ((root, err), w')).
Proof.
  intros Hrec Hres Hprep dstRef.
  rewrite (doCopyTracked_recursive O ctx src dst opts eco root w Hrec Hres).
  fold dstRef. unfold recursiveCopy. rewrite Hprep. split.
  - intros Href.
    assert (Htest : (dstRef =? "") || (dstRef =? Digest root) = true).
    { apply orb_true_iff. rewrite !String.eqb_eq. exact Href. }
    rewrite Htest. split; reflexivity.
  - intros Hne Hnd.
    apply String.eqb_neq in Hne, Hnd. rewrite Hne, Hnd. split; reflexivity.
Qed.

Lemma mountHint_hinted (src dst : Target) (g : CopyGraphOptions) :
  MountFrom g = None -> hintedFor src dst (mountHint src dst g).
Proof.
  intros Hg. unfold hintedFor, mountHint, sameRegistry, mountsFrom.
  destruct src as [srcRepo | root | inner];
    try (split; [intros (s & d & Hs & _); discriminate | intros _; exact Hg]).
  destruct dst as [dstRepo | root | inner];
    try (split; [intros (s & d & _ & Hd & _); discriminate | intros _; exact Hg]).
  destruct (Registry srcRepo =? Registry dstRepo) eqn:Hreg.
  - split.
    + intros _. simpl. eexists. split; [reflexivity | reflexivity].
    + intros Hno. exfalso. apply Hno. exists srcRepo, dstRepo.
      apply String.eqb_eq in Hreg. auto.
  - split.
    + intros (s & d & Hs & Hd & Heq). inversion Hs; inversion Hd; subst.
      apply String.eqb_neq in Hreg. contradiction.
    + intros _. exact Hg.
Qed.

Lemma sameRegistry_dec (src dst : Target) :
  sameRegistry src dst \/ ~ sameRegistry src dst.
Proof.
  unfold sameRegistry.
  destruct src as [s | |]; try (right; intros (a & b & H & _); discriminate).
  destruct dst as [d | |]; try (right; intros (a & b & _ & H & _); discriminate).
  destruct (String.eqb_spec (Registry s) (Registry d)) as [Heq | Hne].
  - left. exists s, d. auto.
  - right. intros (a & b & Ha & Hb & Hab). inversion Ha; inversion Hb; subst.
    contradiction.
Qed.

Lemma doCopyOptions_hinted (O : Oracle) (src dst : Target) (opts : copyOptions) :
  hintedFor src dst (ECO_CopyGraphOptions (doCopyOptions O src dst opts)).
Proof.
  unfold doCopyOptions. apply mountHint_hinted. reflexivity.
Qed.

Lemma hintedFor_MountFrom (src dst : Target) (g g' : CopyGraphOptions) :
  MountFrom g' = MountFrom g -> hintedFor src dst g -> hintedFor src dst g'.
Proof.
  unfold hintedFor, mountsFrom. intros ->. tauto.
Qed.

Lemma prepared_hinted (O : Oracle) (ctx : Context) (src dst osrc odst : Target)
  (root : Descriptor) (eco : ExtendedCopyOptions) :
  hintedFor osrc odst (ECO_CopyGraphOptions eco) ->
  hintedFor osrc odst
    (ECO_CopyGraphOptions (fst (prepareCopyOption O ctx src dst root eco))).
Proof.
  rewrite ClosureProofs.prepareCopyOption_CopyGraphOptions. auto.
Qed.

Lemma doCopy_started (O : Oracle) (ctx : Context) (src dst tracked : Target)
  (opts : copyOptions) (w : World) :
  StartTracking O w dst = Ok tracked ->
  doCopy O ctx src dst opts w
  = defer (doCopyTracked O ctx src tracked opts (doCopyOptions O src dst opts))
          (stopTrackingDeferred O) (log (EvStartTracking dst) w).
Proof.
  intros Hstart. unfold doCopy.
  unfold bind at 1. unfold call at 1, bind, ask, tell, ret.
  rewrite Hstart. reflexivity.
Qed.

Lemma doCopy_not_started (O : Oracle) (ctx : Context) (src dst : Target)
  (opts : copyOptions) (w : World) (err : error) :
  StartTracking O w dst = Err err ->
  doCopy O ctx src dst opts w
  = ((zeroDescriptor, Some err), log (EvStartTracking dst) w).
Proof.
  intros Hstart. unfold doCopy.
  unfold bind at 1. unfold call at 1, bind, ask, tell, ret.
  rewrite Hstart. reflexivity.
Qed.

(** What the tracked part of [doCopy] adds to the log: nothing when the
    source reference does not resolve or the closure resolver fails, and
    otherwise one engine call, whose graph options carry the mount hint
    of the options it was given. *)
Lemma doCopyTracked_events (O : Oracle) (ctx : Context) (src dst : Target)
  (opts : copyOptions) (eco : ExtendedCopyOptions) (w : World) :
  let run := doCopyTracked O ctx src dst opts eco w in
  let called : Prop :=
    exists e ge,
      events (snd run) = e :: events w
      /\ engineOptions e = Some ge
      /\ MountFrom ge = MountFrom (ECO_CopyGraphOptions eco) in
  (events (snd run) = events w \/ called)
  /\ (recursive opts = false -> To_Reference opts <> "" -> called)
  /\ forall desc : Descriptor,
       oras_Resolve O ctx src (From_Reference opts) (Platform opts) = Ok desc ->
       (recursive opts = false -> To_Reference opts = "" -> called)
       /\ (recursive opts = true ->
           snd (prepareCopyOption O ctx src dst desc (withStatusHandlers eco)) = None ->
           called).
Proof.
  cbv zeta. unfold doCopyTracked.
  destruct (recursive opts).
  - destruct (oras_Resolve O ctx src (From_Reference opts) (Platform opts))
      as [desc | err].
    + unfold bind, ret, recursiveCopy.
      pose proof (ClosureProofs.prepareCopyOption_CopyGraphOptions O ctx src dst
                    desc (withStatusHandlers eco)) as Hframe.
      destruct (prepareCopyOption O ctx src dst desc (withStatusHandlers eco))
        as [prepared [err |]] eqn:Hprep; simpl in Hframe.
      * split; [left; reflexivity | split; [discriminate |]].
        intros d Hd. inversion Hd; subst d.
        split; [discriminate | rewrite Hprep; intros _ H; discriminate H].
      * assert (Hcall :
          exists e ge,
            events
              (snd
                 (let (err, w') :=
                    (if (To_Reference opts =? "") || (To_Reference opts =? Digest desc)
                     then
                       call (fun w0 => oras_ExtendedCopyGraph O w0 ctx src dst desc
                                         (ECO_ExtendedCopyGraphOptions prepared))
                            (EvExtendedCopyGraph src dst desc
                               (ECO_ExtendedCopyGraphOptions prepared))
                     else
                       r <- call (fun w0 => oras_ExtendedCopy O w0 ctx src
                                              (Digest desc) dst (To_Reference opts)
                                              prepared)
                                 (EvExtendedCopy src (Digest desc) dst
                                    (To_Reference opts) prepared) ;;
                       ret (snd r)) w in
                  ((desc, err), w')))
            = e :: events w
            /\ engineOptions e = Some ge
            /\ MountFrom ge = MountFrom (ECO_CopyGraphOptions eco)).
        { destruct ((To_Reference opts =? "") || (To_Reference opts =? Digest desc));
            run_go; do 2 eexists;
            (split; [reflexivity | split; [reflexivity |]]);
            unfold ECO_CopyGraphOptions in Hframe |- *; rewrite Hframe;
            reflexivity. }
        split; [right; exact Hcall | split; [discriminate |]].
        intros d Hd. inversion Hd; subst d. split; [discriminate |].
        intros _ _. exact Hcall.
    + split; [left; reflexivity | split; [discriminate |]].
      intros d Hd. discriminate Hd.
  - destruct (To_Reference opts =? "") eqn:Href.
    + apply String.eqb_eq in Href.
      destruct (oras_Resolve O ctx src (From_Reference opts) (Platform opts))
        as [desc | err].
      * assert (Hcall :
          exists e ge,
            events
              (snd
                 ((err <- call (fun w0 => oras_CopyGraph O w0 ctx src dst desc
                                            (ECO_CopyGraphOptions
                                               (withStatusHandlers eco)))
                               (EvCopyGraph src dst desc
                                  (ECO_CopyGraphOptions (withStatusHandlers eco))) ;;
                   ret (desc, err)) w))
            = e :: events w
            /\ engineOptions e = Some ge
            /\ MountFrom ge = MountFrom (ECO_CopyGraphOptions eco)).
        { run_go. do 2 eexists. split; [reflexivity | split; reflexivity]. }
        split; [right; exact Hcall | split; [intros _ Hne; contradiction |]].
        intros d Hd. inversion Hd; subst. split; [intros _ _; exact Hcall |].
        discriminate.
      * split; [left; reflexivity | split; [intros _ Hne; contradiction |]].
        intros d Hd. discriminate Hd.
    + apply String.eqb_neq in Href.
      assert (Hcall :
        exists e ge,
          events
            (snd
               (call (fun w0 => oras_Copy O w0 ctx src (From_Reference opts) dst
                                  (To_Reference opts)
                                  {| CO_CopyGraphOptions :=
                                       ECO_CopyGraphOptions (withStatusHandlers eco);
                                     CO_TargetPlatform := Platform opts |})
                     (EvCopy src (From_Reference opts) dst (To_Reference opts)
                        {| CO_CopyGraphOptions :=
                             ECO_CopyGraphOptions (withStatusHandlers eco);
                           CO_TargetPlatform := Platform opts |}) w))
          = e :: events w
          /\ engineOptions e = Some ge
          /\ MountFrom ge = MountFrom (ECO_CopyGraphOptions eco)).
      { run_go. do 2 eexists. split; [reflexivity | split; reflexivity]. }
      split; [right; exact Hcall | split; [intros _ _; exact Hcall |]].
      intros d Hd. split; [intros _ He; contradiction | discriminate].
Qed.

(** C6. A mount hint, answering with the source repository's name, is
    supplied to the replication engine exactly when source and
    destination are both remote repositories on the same registry host.
    Every call [doCopy] makes into the engine is given graph options with
    the hint in that case and without a hint otherwise; and [doCopy] does
    call the engine, once, whenever tracking starts and what the mode
    needs before the copy succeeds: nothing for a plain tagged copy, the
    resolution of the source reference for a copy without a destination
    reference, the resolution and the closure resolver in recursive
    mode. *)
Theorem doCopy_mount_hint_scope
  (O : Oracle) (ctx : Context) (src dst : Target) (opts : copyOptions)
  (w : World) :
  let run := doCopy O ctx src dst opts w in
  let supplied (ge : CopyGraphOptions) : Prop :=
    (sameRegistry src dst <-> mountsFrom ge (sourceRepository src))
    /\ (~ sameRegistry src dst <-> MountFrom ge = None) in
  let called : Prop :=
    exists e ge,
      events (snd run) = EvStopTracking :: e :: EvStartTracking dst :: events w
      /\ engineOptions e = Some ge /\ supplied ge in
  (exists made : list Event,
     events (snd run) = made ++ events w
     /\ forall e ge, In e made -> engineOptions e = Some ge -> supplied ge)
  /\ forall tracked : Target,
       StartTracking O w dst = Ok tracked ->
       (recursive opts = false -> To_Reference opts <> "" -> called)
       /\ forall desc : Descriptor,
            oras_Resolve O ctx src (From_Reference opts) (Platform opts) = Ok desc ->
            (recursive opts = false -> To_Reference opts = "" -> called)
            /\ (recursive opts = true ->
                snd (prepareCopyOption O ctx src tracked desc
                       (withStatusHandlers (doCopyOptions O src dst opts))) = None ->
                called).
Proof.
  cbv zeta.
  assert (Hiff : forall ge,
            MountFrom ge
            = MountFrom (ECO_CopyGraphOptions (doCopyOptions O src dst opts)) ->
            (sameRegistry src dst <-> mountsFrom ge (sourceRepository src))
            /\ (~ sameRegistry src dst <-> MountFrom ge = None)).
  { intros ge Hge.
    destruct (hintedFor_MountFrom src dst _ ge Hge
                (doCopyOptions_hinted O src dst opts)) as [Hyes Hno].
    destruct (sameRegistry_dec src dst) as [Hs | Hn].
    - destruct (Hyes Hs) as (f & Hf & Hans). split; split.
      + intros _. exists f. auto.
      + intros _. exact Hs.
      + intros Hn. contradiction.
      + intros Hnone. congruence.
    - split; split.
      + intros Hs. contradiction.
      + intros (f & Hf & _). rewrite (Hno Hn) in Hf. discriminate.
      + intros _. exact (Hno Hn).
      + intros _. exact Hn. }
  destruct (StartTracking O w dst) as [tracked | err] eqn:Hstart.
  - rewrite (doCopy_started O ctx src dst tracked opts w Hstart),
      defer_stopTracking.
    pose proof (doCopyTracked_events O ctx src tracked opts
                  (doCopyOptions O src dst opts) (log (EvStartTracking dst) w))
      as Hev.
    cbv zeta in Hev.
    destruct (doCopyTracked O ctx src tracked opts (doCopyOptions O src dst opts)
                (log (EvStartTracking dst) w)) as [r w1].
    cbn [snd events log] in Hev |- *.
    assert (Hlift :
      (exists e ge, events w1 = e :: EvStartTracking dst :: events w
                    /\ engineOptions e = Some ge
                    /\ MountFrom ge
                       = MountFrom (ECO_CopyGraphOptions
                                      (doCopyOptions O src dst opts))) ->
      exists e ge,
        EvStopTracking :: events w1
        = EvStopTracking :: e :: EvStartTracking dst :: events w
        /\ engineOptions e = Some ge
        /\ (sameRegistry src dst <-> mountsFrom ge (sourceRepository src))
        /\ (~ sameRegistry src dst <-> MountFrom ge = None)).
    { intros (e & ge & He & Hge & Hm). exists e, ge.
      rewrite He. split; [reflexivity | split; [exact Hge | apply Hiff; exact Hm]]. }
    destruct Hev as (Hany & Hplain & Hresolved). split.
    + destruct Hany as [Hnone | (e & ge & He & Hge & Hm)].
      * exists [EvStopTracking; EvStartTracking dst]. rewrite Hnone.
        split; [reflexivity |].
        intros e0 g0 [<- | [<- | []]]; discriminate.
      * exists [EvStopTracking; e; EvStartTracking dst]. rewrite He.
        split; [reflexivity |].
        intros e0 g0 [<- | [<- | [<- | []]]]; try discriminate.
        intros Hg0. rewrite Hge in Hg0. inversion Hg0; subst.
        apply Hiff. exact Hm.
    + intros tracked' Htracked. inversion Htracked; subst tracked'. split.
      * intros Hrec Hne. apply Hlift. apply Hplain; assumption.
      * intros desc Hdesc. destruct (Hresolved desc Hdesc) as [Hgraph Hrecur].
        split.
        -- intros Hrec Href. apply Hlift. apply Hgraph; assumption.
        -- intros Hrec Hprep. apply Hlift. apply Hrecur; assumption.
  - rewrite (doCopy_not_started O ctx src dst opts w err Hstart).
    split.
    + exists [EvStartTracking dst]. split; [reflexivity |].
      intros e ge [<- | []]; discriminate.
    + intros tracked Htracked. discriminate Htracked.
Qed.

Lemma backupTagStep_started (O : Oracle) (ctx : Context)
  (srcRepo dstOCI tracked : Target) (t : string) (includeReferrers : bool)
  (copyOpts : CopyOptions) (extendedCopyOpts : ExtendedCopyOptions) (w : World) :
  StartTracking O w dstOCI = Ok tracked ->
  Backup.backupTagStep O ctx srcRepo dstOCI t includeReferrers copyOpts
    extendedCopyOpts w
  = defer (Backup.backupTag O ctx srcRepo tracked t includeReferrers copyOpts
             extendedCopyOpts)
          (stopTrackingDeferred O) (log (EvStartTracking dstOCI) w).
Proof.
  intros Hstart. unfold Backup.backupTagStep.
  unfold bind at 1. unfold call at 1, bind, ask, tell, ret.
  rewrite Hstart. reflexivity.
Qed.

(** C7. In a per-tag backup step and in [doCopy] alike, once tracking
    has started: an error of the work inside the tracking scope is the
    error returned, whatever [StopTracking] answers; and when that work
    succeeded, the error returned is the answer of [StopTracking]. *)
Theorem stop_tracking_error_never_masks
  (O : Oracle) (ctx : Context) (src dst tracked : Target) (w : World)
  (t : string) (includeReferrers : bool) (copyOpts : CopyOptions)
  (extendedCopyOpts : ExtendedCopyOptions) (opts : copyOptions) :
  StartTracking O w dst = Ok tracked ->
  (let primary :=
     Backup.backupTag O ctx src tracked t includeReferrers copyOpts
       extendedCopyOpts (log (EvStartTracking dst) w) in
   let final :=
     Backup.backupTagStep O ctx src dst t includeReferrers copyOpts
       extendedCopyOpts w in
   (forall err, snd (fst primary) = Some err -> snd (fst final) = Some err)
   /\ (snd (fst primary) = None ->
       snd (fst final) = StopTracking O (snd primary))
   /\ fst (fst final) = fst (fst primary))
  /\ (let primary :=
        doCopyTracked O ctx src tracked opts (doCopyOptions O src dst opts)
          (log (EvStartTracking dst) w) in
      let final := doCopy O ctx src dst opts w in
      (forall err, snd (fst primary) = Some err -> snd (fst final) = Some err)
      /\ (snd (fst primary) = None ->
          snd (fst final) = StopTracking O (snd primary))
      /\ fst (fst final) = fst (fst primary)).
Proof.
  intros Hstart. split; cbv zeta.
  - rewrite (backupTagStep_started O ctx src dst tracked t includeReferrers
               copyOpts extendedCopyOpts w Hstart), defer_stopTracking.
    destruct (Backup.backupTag O ctx src tracked t includeReferrers copyOpts
                extendedCopyOpts (log (EvStartTracking dst) w)) as [[n e] w1].
    simpl. repeat split.
    + intros err ->. reflexivity.
    + intros ->. reflexivity.
  - rewrite (doCopy_started O ctx src dst tracked opts w Hstart),
      defer_stopTracking.
    destruct (doCopyTracked O ctx src tracked opts (doCopyOptions O src dst opts)
                (log (EvStartTracking dst) w)) as [[n e] w1].
    simpl. repeat split.
    + intros err ->. reflexivity.
    + intros ->. reflexivity.
Qed.

End CopyProofs.

(** ** Byte strings *)

Module StringFacts.
Import GoStrings.

Lemma ContainsRune_app (a b : string) (c : ascii) :
  ContainsRune (a ++ b) c = ContainsRune a c || ContainsRune b c.
Proof.
  induction a as [| x a IH]; simpl.
  - reflexivity.
  - rewrite IH, orb_assoc. reflexivity.
Qed.

Lemma lastIndexFrom_absent (s : string) (c : ascii) (i found : Z) :
  ContainsRune s c = false -> lastIndexFrom s c i found = found.
Proof.
  revert i found. induction s as [| x s IH]; simpl; intros i found H.
  - reflexivity.
  - apply orb_false_iff in H. destruct H as [Hx Hs].
    rewrite Hx. apply IH. exact Hs.
Qed.

Lemma lastIndexFrom_app_absent (a b : string) (c : ascii) (i found : Z) :
  ContainsRune b c = false ->
  lastIndexFrom (a ++ b) c i found = lastIndexFrom a c i found.
Proof.
  intros Hb. revert i found. induction a as [| x a IH]; simpl; intros i found.
  - apply lastIndexFrom_absent. exact Hb.
  - apply IH.
Qed.

Lemma lastIndexFrom_app_last (a b : string) (c : ascii) (i found : Z) :
  ContainsRune b c = false ->
  lastIndexFrom (a ++ String c b) c i found = (i + Z.of_nat (String.length a))%Z.
Proof.
  intros Hb. revert i found. induction a as [| x a IH]; intros i found.
  - simpl. rewrite Ascii.eqb_refl, (lastIndexFrom_absent b c _ _ Hb). lia.
  - simpl String.append. simpl lastIndexFrom. rewrite IH.
    simpl String.length. lia.
Qed.

Lemma lastIndexFrom_bound (a : string) (c : ascii) (i found : Z) :
  (found < i + Z.of_nat (String.length a))%Z ->
  (lastIndexFrom a c i found < i + Z.of_nat (String.length a))%Z.
Proof.
  revert i found. induction a as [| x a IH]; intros i found H.
  - exact H.
  - simpl lastIndexFrom. simpl String.length in *.
    replace (i + Z.of_nat (S (String.length a)))%Z
      with ((i + 1) + Z.of_nat (String.length a))%Z by lia.
    apply IH. destruct (Ascii.eqb x c); lia.
Qed.

Lemma sliceTo_app (a b : string) : sliceTo (a ++ b) (String.length a) = a.
Proof.
  induction a as [| x a IH]; simpl.
  - destruct b; reflexivity.
  - rewrite IH. reflexivity.
Qed.

Lemma sliceFrom_app_next (a b : string) (c : ascii) :
  sliceFrom (a ++ String c b) (S (String.length a)) = b.
Proof.
  induction a as [| x a IH]; simpl.
  - destruct b; reflexivity.
  - exact IH.
Qed.

Lemma Split_nonempty (s : string) (sep : ascii) :
  exists h t, Split s sep = h :: t.
Proof.
  induction s as [| c s IH]; simpl.
  - eauto.
  - destruct (Ascii.eqb c sep); [eauto |].
    destruct IH as (h & t & ->). eauto.
Qed.

Lemma Split_cons_other (c sep : ascii) (s h : string) (t : list string) :
  Ascii.eqb c sep = false -> Split s sep = h :: t ->
  Split (String c s) sep = String c h :: t.
Proof. intros Hc Hs. simpl. rewrite Hc, Hs. reflexivity. Qed.


(** Trimming on the left drops a leading white-space rune. *)
Lemma TrimSpace_space1 (a : ascii) (s : string) :
  isAsciiSpace a = true -> TrimSpace (String a s) = TrimSpace s.
Proof.
  intros Ha. unfold TrimSpace. simpl TrimLeftSpace. rewrite Ha. reflexivity.
Qed.

Lemma isSpace2_not_ascii (a b : ascii) :
  isSpace2 a b = true -> isAsciiSpace a = false.
Proof.
  unfold isSpace2, isAsciiSpace. intros H.
  apply andb_true_iff in H. destruct H as [H _].
  apply Nat.eqb_eq in H. rewrite H. reflexivity.
Qed.

Lemma isSpace3_lead (a b c : ascii) :
  isSpace3 a b c = true ->
  code a = 225%nat \/ code a = 226%nat \/ code a = 227%nat.
Proof.
  unfold isSpace3. rewrite !orb_true_iff, !andb_true_iff, !Nat.eqb_eq.
  intros [[[H | H] | H] | H]; tauto.
Qed.

Lemma isSpace3_not_ascii (a b c : ascii) :
  isSpace3 a b c = true -> isAsciiSpace a = false /\ isSpace2 a b = false.
Proof.
  intros H. apply isSpace3_lead in H. unfold isAsciiSpace, isSpace2.
  destruct H as [H | [H | H]]; rewrite H; split; reflexivity.
Qed.

Lemma TrimSpace_space2 (a b : ascii) (s : string) :
  isSpace2 a b = true -> TrimSpace (String a (String b s)) = TrimSpace s.
Proof.
  intros H. unfold TrimSpace. simpl TrimLeftSpace.
  rewrite (isSpace2_not_ascii a b H), H. reflexivity.
Qed.

Lemma TrimSpace_space3 (a b c : ascii) (s : string) :
  isSpace3 a b c = true ->
  TrimSpace (String a (String b (String c s))) = TrimSpace s.
Proof.
  intros H. unfold TrimSpace. simpl TrimLeftSpace.
  destruct (isSpace3_not_ascii a b c H) as [H1 H2].
  rewrite H1, H2, H. reflexivity.
Qed.

Lemma not_comma (a : ascii) : code a <> 44%nat -> Ascii.eqb a ","%char = false.
Proof.
  intros H. destruct (Ascii.eqb_spec a ","%char) as [-> | ]; [| reflexivity].
  exfalso. apply H. reflexivity.
Qed.

Lemma space_not_comma (a : ascii) :
  isAsciiSpace a = true -> Ascii.eqb a ","%char = false.
Proof.
  unfold isAsciiSpace. cbv zeta. rewrite !orb_true_iff, !Nat.eqb_eq.
  intros H. apply not_comma. lia.
Qed.

Lemma space2_not_comma (a b : ascii) :
  isSpace2 a b = true ->
  Ascii.eqb a ","%char = false /\ Ascii.eqb b ","%char = false.
Proof.
  unfold isSpace2. rewrite andb_true_iff, orb_true_iff, !Nat.eqb_eq.
  intros H. split; apply not_comma; lia.
Qed.

Lemma space3_not_comma (a b c : ascii) :
  isSpace3 a b c = true ->
  Ascii.eqb a ","%char = false /\ Ascii.eqb b ","%char = false
  /\ Ascii.eqb c ","%char = false.
Proof.
  unfold isSpace3.
  repeat first [rewrite orb_true_iff | rewrite andb_true_iff
               | rewrite Nat.eqb_eq | rewrite Nat.leb_le].
  intros H. repeat split; apply not_comma; lia.
Qed.

End StringFacts.

(** ** The tag grammar *)

Module GrammarProofs.
Import GoStrings Regexp Backup StringFacts.

Lemma matches_Never (s : string) : matches Never s = false.
Proof. induction s as [| c s IH]; simpl; auto. Qed.

(** A bounded repetition of one character class. *)
Lemma matches_Repeat_Class (p : ascii -> bool) (n : nat) (s : string) :
  matches (Repeat 0 n (Class p)) s
  = (String.length s <=? n)%nat && allBytes p s.
Proof.
  revert n. induction s as [| c s IH]; intros n.
  - reflexivity.
  - destruct n as [| n].
    + simpl. apply matches_Never.
    + simpl matches. simpl deriv. destruct (p c) eqn:Hc; simpl cat.
      * rewrite IH. simpl. rewrite Hc. reflexivity.
      * rewrite matches_Never. simpl. rewrite Hc, andb_false_r. reflexivity.
Qed.

(** [tagRegexp] accepts exactly the strings of the grammar. *)
Lemma MatchString_tagRegexp (tag : string) :
  MatchString tagRegexp tag = wellFormedTag tag.
Proof.
  unfold MatchString, tagRegexp. destruct tag as [| c rest].
  - reflexivity.
  - simpl matches. simpl deriv. unfold wellFormedTag.
    destruct (isWord c); simpl cat.
    + rewrite matches_Repeat_Class. reflexivity.
    + rewrite matches_Never. reflexivity.
Qed.

Lemma isWord_isWordDotDash (c : ascii) : isWord c = true -> isWordDotDash c = true.
Proof. unfold isWordDotDash. intros ->. reflexivity. Qed.

Lemma wellFormedTag_allBytes (tag : string) :
  wellFormedTag tag = true -> allBytes isWordDotDash tag = true.
Proof.
  destruct tag as [| c rest]; [discriminate |]. simpl.
  rewrite !andb_true_iff. intros (Hc & _ & Hrest).
  split; [apply isWord_isWordDotDash; exact Hc | exact Hrest].
Qed.








(** ** The tag loop *)

Lemma validateTags_valid (artifactRefs repository : string)
  (tagList tags : list string) :
  forallb (MatchString tagRegexp) (candidates tagList) = true ->
  validateTags artifactRefs repository tagList tags
  = (repository, tags ++ candidates tagList, None).
Proof.
  revert tags. induction tagList as [| seg rest IH]; intros tags Hall.
  - simpl. rewrite app_nil_r. reflexivity.
  - simpl validateTags. unfold candidates in *. simpl in Hall |- *.
    destruct (TrimSpace seg =? "") eqn:Hempty; simpl in Hall |- *.
    + apply IH. exact Hall.
    + apply andb_true_iff in Hall. destruct Hall as [Hseg Hrest].
      rewrite Hseg. simpl. rewrite (IH _ Hrest), <- app_assoc. reflexivity.
Qed.


(** ** Where the tags begin *)

(** A reference [repo:tagsPart] whose tag part has no colon and no
    slash is split at that colon. *)
Lemma splitRepoAndTags_at_colon (repo tagsPart : string) :
  ContainsRune tagsPart ":"%char = false ->
  ContainsRune tagsPart "/"%char = false ->
  splitRepoAndTags (repo ++ String ":"%char tagsPart) = (repo, tagsPart).
Proof.
  intros Hcolon Hslash. unfold splitRepoAndTags, LastIndexByte.
  rewrite (lastIndexFrom_app_last repo tagsPart ":"%char 0 (-1) Hcolon).
  rewrite (lastIndexFrom_app_absent repo (String ":"%char tagsPart) "/"%char 0 (-1))
    by (simpl; exact Hslash).
  pose proof (lastIndexFrom_bound repo "/"%char 0 (-1)) as Hb.
  assert (Hlt : (lastIndexFrom repo "/"%char 0 (-1)
                 <? 0 + Z.of_nat (String.length repo))%Z = true)
    by (apply Z.ltb_lt; apply Hb; lia).
  assert (Hne : negb (0 + Z.of_nat (String.length repo) =? -1)%Z = true)
    by (apply negb_true_iff, Z.eqb_neq; lia).
  rewrite Hlt, Hne. simpl andb. cbv iota.
  replace (Z.to_nat (0 + Z.of_nat (String.length repo))) with (String.length repo)
    by lia.
  replace (Z.to_nat (0 + Z.of_nat (String.length repo) + 1))
    with (S (String.length repo)) by lia.
  rewrite sliceTo_app, sliceFrom_app_next. reflexivity.
Qed.

Lemma append_colon_nonempty (repo tagsPart : string) :
  (repo ++ String ":"%char tagsPart =? "") = false.
Proof. destruct repo; reflexivity. Qed.

(** [parseArtifactsToBackup] on [repo:tagsPart] comes down to the tag
    loop on the comma-separated segments of [tagsPart]. *)
Lemma parseArtifactsToBackup_tagged (O : Oracle) (repo tagsPart : string)
  (parsedRepo : Reference) :
  ContainsRune repo "@"%char = false ->
  ContainsRune tagsPart "@"%char = false ->
  ContainsRune tagsPart ":"%char = false ->
  ContainsRune tagsPart "/"%char = false ->
  tagsPart <> "" ->
  ParseReference O repo = Ok parsedRepo ->
  parseArtifactsToBackup O (repo ++ String ":"%char tagsPart)
  = validateTags (repo ++ String ":"%char tagsPart)
      (Reference_String O parsedRepo) (Split tagsPart ","%char) [].
Proof.
  intros Hat1 Hat2 Hcolon Hslash Hne Hparse.
  unfold parseArtifactsToBackup.
  rewrite append_colon_nonempty, ContainsRune_app. simpl ContainsRune.
  rewrite Hat1, Hat2. simpl orb. cbv iota.
  rewrite (splitRepoAndTags_at_colon repo tagsPart Hcolon Hslash), Hparse.
  apply String.eqb_neq in Hne. rewrite Hne. reflexivity.
Qed.

(** A tag part of commas and white space puts no tag forward. *)
Lemma CommasAndSpace_candidates (s : string) :
  CommasAndSpace s -> candidates (Split s ","%char) = [].
Proof.
  assert (Hhead : forall h t x, candidates (h :: t) = [] ->
                    TrimSpace x = TrimSpace h -> candidates (x :: t) = []).
  { unfold candidates. simpl. intros h t x Hc Hx. rewrite Hx. exact Hc. }
  induction 1 as [| s _ IH | a s Ha _ IH | a b s Hab _ IH | a b c s Habc _ IH].
  - reflexivity.
  - simpl. unfold candidates in *. simpl. exact IH.
  - destruct (Split_nonempty s ","%char) as (h & t & Hs).
    rewrite (Split_cons_other a _ s h t (space_not_comma a Ha) Hs).
    rewrite Hs in IH. apply (Hhead h t _ IH). apply TrimSpace_space1. exact Ha.
  - destruct (Split_nonempty s ","%char) as (h & t & Hs).
    destruct (space2_not_comma a b Hab) as [Hca Hcb].
    rewrite (Split_cons_other a _ _ (String b h) t Hca
               (Split_cons_other b _ s h t Hcb Hs)).
    rewrite Hs in IH. apply (Hhead h t _ IH). apply TrimSpace_space2. exact Hab.
  - destruct (Split_nonempty s ","%char) as (h & t & Hs).
    destruct (space3_not_comma a b c Habc) as (Hca & Hcb & Hcc).
    rewrite (Split_cons_other a _ _ (String b (String c h)) t Hca
               (Split_cons_other b _ _ (String c h) t Hcb
                  (Split_cons_other c _ s h t Hcc Hs))).
    rewrite Hs in IH. apply (Hhead h t _ IH). apply TrimSpace_space3. exact Habc.
Qed.

End GrammarProofs.

(** ** The backup orchestrator *)

Module BackupProofs.
Import GoStrings Regexp Backup StringFacts GrammarProofs.

Lemma CommasAndSpace_ContainsRune (s : string) (x : ascii) :
  code x = 64%nat \/ code x = 58%nat \/ code x = 47%nat ->
  CommasAndSpace s -> ContainsRune s x = false.
Proof.
  intros Hx.
  assert (Hne : forall a, code a <> code x -> Ascii.eqb a x = false).
  { intros a Ha. destruct (Ascii.eqb_spec a x) as [-> | ]; congruence. }
  induction 1 as [| s _ IH | a s Ha _ IH | a b s Hab _ IH | a b c s Habc _ IH];
    cbn [ContainsRune]; rewrite ?IH, ?orb_false_r.
  - reflexivity.
  - apply Hne. change (code ","%char) with 44%nat. lia.
  - apply Hne. revert Ha. unfold isAsciiSpace. cbv zeta.
    rewrite !orb_true_iff, !Nat.eqb_eq. lia.
  - revert Hab. unfold isSpace2.
    rewrite andb_true_iff, orb_true_iff, !Nat.eqb_eq. intros Hab.
    rewrite !Hne by lia. reflexivity.
  - revert Habc. unfold isSpace3.
    repeat first [rewrite orb_true_iff | rewrite andb_true_iff
                 | rewrite Nat.eqb_eq | rewrite Nat.leb_le].
    intros Habc. rewrite !Hne by lia. reflexivity.
Qed.





(** C10. For a reference [repo:tagsPart]: the tags returned are the
    segments of [tagsPart] between commas, each trimmed of surrounding
    white space before it is matched against [tagRegexp], the segments
    that are empty after trimming left out.  So [repo:v1,,v2] gives
    [[v1; v2]], a tag written with spaces around it is returned without
    them, and a tag part of commas and white space gives no tags, after
    which [findTagsToBackup] asks the registry for its tags. *)
Theorem tags_trimmed_and_empty_skipped
  (O : Oracle) (repo : string) (parsedRepo : Reference) :
  ContainsRune repo "@"%char = false ->
  ParseReference O repo = Ok parsedRepo ->
  (forall tagsPart : string,
     ContainsRune tagsPart "@"%char = false ->
     ContainsRune tagsPart ":"%char = false ->
     ContainsRune tagsPart "/"%char = false ->
     tagsPart <> "" ->
     forallb (MatchString tagRegexp) (candidates (Split tagsPart ","%char)) = true ->
     parseArtifactsToBackup O (repo ++ String ":"%char tagsPart)
     = (Reference_String O parsedRepo,
        filter (fun tag => negb (tag =? ""))
          (map TrimSpace (Split tagsPart ","%char)),
        None))
  /\ parseArtifactsToBackup O (repo ++ ":v1,,v2")
     = (Reference_String O parsedRepo, ["v1"; "v2"], None)
  /\ parseArtifactsToBackup O (repo ++ ": v1 ,v2  ")
     = (Reference_String O parsedRepo, ["v1"; "v2"], None)
  /\ (forall tagsPart : string,
        CommasAndSpace tagsPart -> tagsPart <> "" ->
        parseArtifactsToBackup O (repo ++ String ":"%char tagsPart)
        = (Reference_String O parsedRepo, [], None)
        /\ forall (opts : backupOptions) (ctx : Context) (srcRepo : Target),
             option_Parse O = None ->
             findTagsToBackup O ctx srcRepo
               (fst (backupCmd_PreRunE O opts (repo ++ String ":"%char tagsPart)))
             = registry_Tags O ctx srcRepo).
Proof.
  intros Hat Hparse.
  assert (Hgen : forall tagsPart : string,
     ContainsRune tagsPart "@"%char = false ->
     ContainsRune tagsPart ":"%char = false ->
     ContainsRune tagsPart "/"%char = false ->
     tagsPart <> "" ->
     forallb (MatchString tagRegexp) (candidates (Split tagsPart ","%char)) = true ->
     parseArtifactsToBackup O (repo ++ String ":"%char tagsPart)
     = (Reference_String O parsedRepo, candidates (Split tagsPart ","%char), None)).
  { intros tagsPart H1 H2 H3 H4 H5.
    rewrite (parseArtifactsToBackup_tagged O repo tagsPart parsedRepo
               Hat H1 H2 H3 H4 Hparse).
    rewrite (validateTags_valid _ _ _ [] H5). reflexivity. }
  split; [exact Hgen | split; [| split]].
  - apply (Hgen "v1,,v2"); try reflexivity. discriminate.
  - apply (Hgen " v1 ,v2  "); try reflexivity. discriminate.
  - intros tagsPart Hcas Hne.
    pose proof (CommasAndSpace_candidates tagsPart Hcas) as Hnone.
    assert (Hres : parseArtifactsToBackup O (repo ++ String ":"%char tagsPart)
                   = (Reference_String O parsedRepo, [], None)).
    { rewrite <- Hnone. apply Hgen; try assumption.
      - apply CommasAndSpace_ContainsRune; auto.
      - apply CommasAndSpace_ContainsRune; auto.
      - apply CommasAndSpace_ContainsRune; auto.
      - rewrite Hnone. reflexivity. }
    split; [exact Hres |].
    intros opts ctx srcRepo Hopt.
    unfold backupCmd_PreRunE. rewrite Hopt, Hres. reflexivity.
Qed.

(** ** Paths *)

Lemma prefix_below (p entry : string) :
  String.prefix (p ++ "/") (p ++ "/" ++ entry) = true.
Proof.
  induction p as [| c p IH]; simpl.
  - destruct (Ascii.ascii_dec "/"%char "/"%char) as [_ | Hne];
      [destruct entry; reflexivity | contradiction].
  - destruct (Ascii.ascii_dec c c) as [_ | Hne]; [exact IH | contradiction].
Qed.

Lemma below_isUnder (root : string) (entries : list string) (q : string) :
  In q (below root entries) -> isUnder root q = true.
Proof.
  unfold below. rewrite in_map_iff. intros (entry & <- & _).
  unfold isUnder. rewrite prefix_below. apply orb_true_r.
Qed.

Lemma isUnder_refl (p : string) : isUnder p p = true.
Proof. unfold isUnder. rewrite String.eqb_refl. reflexivity. Qed.

Lemma removeTree_gone (p q : string) (w : World) :
  isUnder p q = true -> exists_path q (removeTree p w) = false.
Proof.
  intros Hq. unfold exists_path, removeTree. simpl.
  induction (files w) as [| x l IH]; simpl; [reflexivity |].
  destruct (isUnder p x) eqn:Hx; simpl; [exact IH |].
  rewrite IH, orb_false_r. apply String.eqb_neq. intros ->. congruence.
Qed.

Lemma removeTree_In (p q : string) (w : World) :
  In q (files (removeTree p w)) <-> In q (files w) /\ isUnder p q = false.
Proof.
  unfold removeTree. simpl. rewrite filter_In, negb_true_iff. reflexivity.
Qed.

(** C9, amended. With no explicit tags and a registry that lists no
    tags, [runBackup] returns the "no tags found" error, with the usage
    line and the recommendation to list tags.  No per-tag step is taken
    and nothing is finalized: nothing is tracked, copied, reported as
    pulled, exported or completed; the log gains at most the debug
    message of a failed removal of the staging directory.  With a [.tar]
    output whose staging directory is removed, no path the run created
    remains, so no archive was written.  With a directory output the
    entries [oci.New] laid out below the output path remain: the run
    leaves an empty layout there. *)
Theorem runBackup_no_tags_found
  (O : Oracle) (cmd : Command) (ctx : Context) (opts : backupOptions)
  (w : World) (dstRoot : string) (srcRepo dstOCI : Target) :
  tags opts = [] ->
  (outputFormat_of opts = outputFormatDir /\ dstRoot = output opts)
  \/ (outputFormat_of opts = outputFormatTar
      /\ os_MkdirTemp O w "" "oras-backup-*" = Ok dstRoot) ->
  NewRepository O (repository opts) = Ok srcRepo ->
  oci_New O dstRoot = Ok dstOCI ->
  registry_Tags O ctx srcRepo = Ok [] ->
  let final := runBackup O cmd ctx opts w in
  let layout := below dstRoot (oci_New_layout O dstRoot) in
  fst final
  = Some (OrasError
            (Errorf "no tags found in repository %s, please specify at least one tag to back up"
               [repository opts])
            (ParentCommandPath cmd ++ " " ++ Use cmd)
            ("If you want to list available tags in " ++ repository opts
             ++ ", use " ++ dquote ++ "oras repo tags" ++ dquote))
  /\ (exists made : list Event,
        events (snd final) = made ++ events w
        /\ forallb (fun e => negb (isTagStepEvent e)) made = true
        /\ Forall (fun e => exists format args, e = EvLogDebug format args) made)
  /\ (outputFormat_of opts = outputFormatDir ->
      events (snd final) = events w
      /\ files (snd final) = layout ++ files w)
  /\ (outputFormat_of opts = outputFormatTar ->
      os_RemoveAll O (createPaths layout (createPath dstRoot w)) dstRoot = None ->
      events (snd final) = events w
      /\ forall q : string,
           In q (files (snd final))
           <-> In q (files w) /\ isUnder dstRoot q = false).
Proof.
  intros Htags Hroot Hrepo Hoci Hlist. cbv zeta.
  assert (Hin : forall w', runBackupIn O cmd ctx opts dstRoot w'
                           = (Some (noTagsFoundError cmd (repository opts)),
                              createPaths (below dstRoot (oci_New_layout O dstRoot))
                                w')).
  { intros w'. unfold runBackupIn, findTagsToBackup.
    rewrite Hrepo, Hoci, Htags. simpl. rewrite Hlist. reflexivity. }
  unfold runBackup.
  destruct Hroot as [[Hfmt ->] | [Hfmt Hmk]]; rewrite Hfmt.
  - change (outputFormatDir =? outputFormatDir)%Z with true. cbv iota.
    rewrite Hin. split; [reflexivity | split; [| split]].
    + exists []. split; [reflexivity | split; [reflexivity | constructor]].
    + intros _. split; reflexivity.
    + intros H. discriminate H.
  - change (outputFormatTar =? outputFormatDir)%Z with false.
    change (outputFormatTar =? outputFormatTar)%Z with true. cbv iota.
    run_go. rewrite Hmk. run_go. rewrite Hin. run_go.
    destruct (os_RemoveAll O
                (createPaths (below dstRoot (oci_New_layout O dstRoot))
                   (createPath dstRoot w)) dstRoot) as [err |].
    + split; [reflexivity | split; [| split]].
      * eexists [_].
        split; [reflexivity | split; [reflexivity |]].
        repeat constructor. eauto.
      * intros H. discriminate H.
      * intros _ H. discriminate H.
    + split; [reflexivity | split; [| split]].
      * exists []. split; [reflexivity | split; [reflexivity | constructor]].
      * intros H. discriminate H.
      * intros _ _. split; [reflexivity |].
        intros q. rewrite removeTree_In. simpl. rewrite in_app_iff. split.
        -- intros [[Hlay | [<- | Hw]] Hun].
           ++ apply below_isUnder in Hlay. congruence.
           ++ rewrite isUnder_refl in Hun. discriminate.
           ++ split; assumption.
        -- intros [Hw Hun]. split; [right; right; exact Hw | exact Hun].
Qed.

(** C4 fails on the code: when serializing the staged directory or
    closing the temporary archive fails, [prepareBackupOutput] returns
    the error and the temporary archive file is still there. *)
Theorem prepareBackupOutput_leaves_temp_tar
  (O : Oracle) (ctx : Context) (dstRoot : string) (opts : backupOptions)
  (w : World) (tempTarPath : string) (err : error) :
  outputFormat_of opts = outputFormatTar ->
  (forall w', OnTarExporting O w' (output opts) = None) ->
  (forall w', os_CreateTemp O w' "" "oras-backup-*.tar" = Ok tempTarPath) ->
  (forall w', TarDirectory O w' ctx tempTarPath dstRoot = Some err)
  \/ ((forall w', TarDirectory O w' ctx tempTarPath dstRoot = None)
      /\ forall w', file_Close O w' tempTarPath = Some err) ->
  (exists e, fst (prepareBackupOutput O ctx dstRoot opts w) = Some e)
  /\ exists_path tempTarPath (snd (prepareBackupOutput O ctx dstRoot opts w)) = true.
Proof.
  intros Hfmt Hexp Htmp Hfail.
  assert (Hthere : forall w', exists_path tempTarPath (createPath tempTarPath w') = true).
  { intros w'. unfold exists_path. simpl. rewrite String.eqb_refl. reflexivity. }
  unfold prepareBackupOutput. rewrite Hfmt.
  change (negb (outputFormatTar =? outputFormatTar)%Z) with false.
  run_go.
  destruct (os_Stat O w (filepath_Join O dstRoot "ingest")) as [sz | e0];
    [destruct (os_RemoveAll O w (filepath_Join O dstRoot "ingest")) as [e1 |] |];
    run_go; rewrite Hexp; run_go; rewrite Htmp; run_go;
    (destruct Hfail as [Htar | [Htar Hclose]];
     [rewrite Htar | rewrite Htar; run_go; rewrite Hclose]);
    run_go; (split; [eexists; reflexivity | apply Hthere]).
Qed.

(** The sibling path: when the move fails and [os.Remove] succeeds, the
    temporary archive file is gone. *)
Lemma prepareBackupOutput_removes_after_failed_move
  (O : Oracle) (ctx : Context) (dstRoot : string) (opts : backupOptions)
  (w : World) (tempTarPath absOutput : string) (err : error) :
  outputFormat_of opts = outputFormatTar ->
  (forall w', OnTarExporting O w' (output opts) = None) ->
  (forall w', os_CreateTemp O w' "" "oras-backup-*.tar" = Ok tempTarPath) ->
  (forall w', TarDirectory O w' ctx tempTarPath dstRoot = None) ->
  (forall w', file_Close O w' tempTarPath = None) ->
  (if filepath_IsAbs O (output opts) then Ok (output opts)
   else filepath_Abs O (output opts)) = Ok absOutput ->
  (forall w', os_MkdirAll O w' (filepath_Dir O absOutput) = None) ->
  (forall w', os_Rename O w' tempTarPath absOutput = Some err) ->
  (forall w', os_Remove O w' tempTarPath = None) ->
  fst (prepareBackupOutput O ctx dstRoot opts w) = Some err
  /\ exists_path tempTarPath (snd (prepareBackupOutput O ctx dstRoot opts w)) = false.
Proof.
  intros Hfmt Hexp Htmp Htar Hclose Habs Hmk Hmv Hrm.
  assert (Hgone : forall w', exists_path tempTarPath (removePath tempTarPath w') = false).
  { intros w'. unfold exists_path, removePath. simpl.
    induction (files w') as [| q l IH]; simpl; [reflexivity |].
    destruct (q =? tempTarPath) eqn:Hq; simpl; [exact IH |].
    rewrite Hq. exact IH. }
  unfold prepareBackupOutput. rewrite Hfmt.
  change (negb (outputFormatTar =? outputFormatTar)%Z) with false.
  run_go.
  destruct (os_Stat O w (filepath_Join O dstRoot "ingest")) as [sz | e0];
    [destruct (os_RemoveAll O w (filepath_Join O dstRoot "ingest")) as [e1 |] |];
    run_go; rewrite Hexp; run_go; rewrite Htmp; run_go; rewrite Htar; run_go;
    rewrite Hclose; run_go; rewrite Habs; run_go; rewrite Hmk; run_go;
    rewrite Hmv; run_go; rewrite Hrm; run_go;
    (split; [reflexivity | apply Hgone]).
Qed.

End BackupProofs.

(** ** Scripted runs *)

Module Runs.
Import GoStrings Regexp Backup Script.

(** C1 on the index [sha256:aaa]: asked for the root, the returned lookup
    answers with the referrer [ddd] of child [ccc]; asked for child
    [bbb], it answers as the base lookup does. *)
Lemma augments_root_lookup_run :
  Cp.isIndex rootAaa
  /\ exists lookup : PredecessorFn,
       ECO_FindPredecessors
         (fst (Cp.prepareCopyOption (scripted quiet) ctxBackground srcRepo
                 dstSameHost rootAaa (lookupOptions (scripted quiet))))
       = Some lookup
       /\ lookup ctxBackground srcRepo rootAaa = Returns ([referrerDdd], None)
       /\ lookup ctxBackground srcRepo childBbb = Returns ([], None).
Proof.
  assert (Hidx : Cp.isIndex rootAaa) by (left; reflexivity).
  split; [exact Hidx |].
  destruct (ClosureProofs.prepareCopyOption_augments_root_lookup
              (scripted quiet) ctxBackground srcRepo dstSameHost rootAaa
              (lookupOptions (scripted quiet)) "index bytes" scriptedIndex
              [referrerDdd; rootAaaAnnotated])
    as (opts' & lookup & Hprep & Hlook & _ & Hq).
  - exact Hidx.
  - reflexivity.
  - reflexivity.
  - discriminate.
  - reflexivity.
  - vm_compute. discriminate.
  - exists lookup. rewrite Hprep. split; [exact Hlook | split].
    + destruct (Hq ctxBackground srcRepo rootAaa) as [_ H]. apply H. reflexivity.
    + destruct (Hq ctxBackground srcRepo childBbb) as [H _]. apply H. reflexivity.
Defined.

(** C2 on the same index: the annotated copy of the root among the
    children's referrers is not appended for the root. *)
Lemma excludes_root_run :
  In rootAaaAnnotated (childReferrersFound quiet)
  /\ Equal rootAaaAnnotated rootAaa = true
  /\ exists appended : list Descriptor,
       ~ In rootAaaAnnotated appended
       /\ callPredecessors
            (ECO_FindPredecessors
               (fst (Cp.prepareCopyOption (scripted quiet) ctxBackground srcRepo
                       dstSameHost rootAaa (lookupOptions (scripted quiet)))))
            ctxBackground srcRepo rootAaa
          = Returns ([] ++ appended, None).
Proof.
  split; [right; left; reflexivity | split; [reflexivity |]].
  destruct (ClosureProofs.prepareCopyOption_excludes_root
              (scripted quiet) ctxBackground srcRepo dstSameHost rootAaa
              (lookupOptions (scripted quiet)) "index bytes" scriptedIndex
              [referrerDdd; rootAaaAnnotated])
    as (appended & _ & Hout & _ & _ & Hq).
  - left; reflexivity.
  - reflexivity.
  - reflexivity.
  - discriminate.
  - reflexivity.
  - exists appended. split.
    + apply Hout; [right; left; reflexivity | reflexivity].
    + apply Hq; reflexivity.
Defined.

(** C3 on a plain manifest: the options come back as they were. *)
Lemma noop_run :
  Cp.prepareCopyOption (scripted quiet) ctxBackground srcRepo dstSameHost
    childBbb (lookupOptions (scripted quiet))
  = (lookupOptions (scripted quiet), None)
  /\ forall (qctx : Context) (qsrc : Target) (d : Descriptor),
       callPredecessors
         (ECO_FindPredecessors
            (fst (Cp.prepareCopyOption (scripted quiet) ctxBackground srcRepo
                    dstSameHost childBbb (lookupOptions (scripted quiet)))))
         qctx qsrc d
       = callPredecessors (ECO_FindPredecessors (lookupOptions (scripted quiet)))
           qctx qsrc d.
Proof.
  apply (ClosureProofs.prepareCopyOption_noop (scripted quiet) ctxBackground
           srcRepo dstSameHost childBbb (lookupOptions (scripted quiet))).
  left. split; discriminate.
Defined.

(** C5 on the index [sha256:aaa], whose children have no referrers here:
    the destination reference [v1] is tagged, the index's own digest is
    not. *)
Lemma tags_unless_digest_run :
  events (snd (Cp.doCopyTracked noChildReferrers ctxBackground srcRepo dstOtherHost
                 (recursiveTo "sha256:aaa") DefaultExtendedCopyOptions emptyWorld))
  = [EvExtendedCopyGraph srcRepo dstOtherHost rootAaa
       (ECO_ExtendedCopyGraphOptions
          (Cp.withStatusHandlers DefaultExtendedCopyOptions))]
  /\ events (snd (Cp.doCopyTracked noChildReferrers ctxBackground srcRepo
                    dstOtherHost (recursiveTo "v1") DefaultExtendedCopyOptions
                    emptyWorld))
     = [EvExtendedCopy srcRepo "sha256:aaa" dstOtherHost "v1"
          (Cp.withStatusHandlers DefaultExtendedCopyOptions)].
Proof.
  destruct (CopyProofs.recursiveCopy_tags_unless_digest noChildReferrers
              ctxBackground srcRepo dstOtherHost (recursiveTo "sha256:aaa")
              DefaultExtendedCopyOptions
              (Cp.withStatusHandlers DefaultExtendedCopyOptions) rootAaa
              emptyWorld eq_refl eq_refl eq_refl) as [Hdigest _].
  destruct (CopyProofs.recursiveCopy_tags_unless_digest noChildReferrers
              ctxBackground srcRepo dstOtherHost (recursiveTo "v1")
              DefaultExtendedCopyOptions
              (Cp.withStatusHandlers DefaultExtendedCopyOptions) rootAaa
              emptyWorld eq_refl eq_refl eq_refl) as [_ Htag].
  split.
  - destruct Hdigest as [_ H]; [right; reflexivity |]. rewrite H. reflexivity.
  - destruct Htag as [_ H]; [discriminate | discriminate |]. rewrite H. reflexivity.
Defined.

(** C6 on a recursive copy within [localhost:5000], where the engine is
    handed the hint [hello], and on a plain copy to [localhost:6000],
    where it is handed none. *)
Lemma mount_hint_scope_run :
  (exists e ge,
     events (snd (Cp.doCopy (scripted quiet) ctxBackground srcRepo dstSameHost
                    recursiveCp emptyWorld))
     = [EvStopTracking; e; EvStartTracking dstSameHost]
     /\ Cp.engineOptions e = Some ge
     /\ Cp.mountsFrom ge "hello")
  /\ (exists e ge,
        events (snd (Cp.doCopy (scripted quiet) ctxBackground srcRepo dstOtherHost
                       (ScriptExtras.plainCopyTo "v1") emptyWorld))
        = [EvStopTracking; e; EvStartTracking dstOtherHost]
        /\ Cp.engineOptions e = Some ge
        /\ MountFrom ge = None).
Proof.
  split.
  - destruct (CopyProofs.doCopy_mount_hint_scope (scripted quiet) ctxBackground
                srcRepo dstSameHost recursiveCp emptyWorld) as [_ Hcalled].
    destruct (Hcalled (TrackedTarget dstSameHost) eq_refl) as [_ Hresolved].
    destruct (Hresolved rootAaa eq_refl) as [_ Hrecursive].
    destruct (Hrecursive eq_refl eq_refl) as (e & ge & Hev & Hge & Hyes & _).
    exists e, ge. split; [exact Hev | split; [exact Hge |]].
    apply Hyes.
    exists {| Registry := "localhost:5000"; Repository := "hello" |},
           {| Registry := "localhost:5000"; Repository := "hello-copy" |}.
    repeat split; reflexivity.
  - destruct (CopyProofs.doCopy_mount_hint_scope (scripted quiet) ctxBackground
                srcRepo dstOtherHost (ScriptExtras.plainCopyTo "v1") emptyWorld)
      as [_ Hcalled].
    destruct (Hcalled (TrackedTarget dstOtherHost) eq_refl) as [Hplain _].
    assert (Hne : Cp.To_Reference (ScriptExtras.plainCopyTo "v1") <> "")
      by discriminate.
    destruct (Hplain eq_refl Hne) as (e & ge & Hev & Hge & _ & Hno).
    exists e, ge. split; [exact Hev | split; [exact Hge |]].
    apply Hno. intros (s & d & Hs & Hd & Heq).
    inversion Hs; inversion Hd; subst. discriminate Heq.
Defined.

(** C7 on a failing push and a failing tracker: the push error is what
    comes back, from the backup step and from [doCopy]. *)
Lemma never_masks_run :
  StopTracking failingCopy emptyWorld = Some closeFailed
  /\ snd (fst (backupTagStep failingCopy ctxBackground srcRepo (OCIStore "out")
                 "v1" false plainCopyOptions DefaultExtendedCopyOptions emptyWorld))
     = Some (Wrapf "failed to copy ref %s: %w" ["v1"] pushFailed)
  /\ snd (fst (Cp.doCopy failingCopy ctxBackground srcRepo (OCIStore "out")
                 recursiveCp emptyWorld))
     = Some pushFailed.
Proof.
  destruct (CopyProofs.stop_tracking_error_never_masks failingCopy ctxBackground
              srcRepo (OCIStore "out") (TrackedTarget (OCIStore "out")) emptyWorld
              "v1" false plainCopyOptions DefaultExtendedCopyOptions recursiveCp
              eq_refl)
    as [(Hstep & _ & _) (Hcopy & _ & _)].
  split; [reflexivity | split].
  - apply Hstep. reflexivity.
  - apply Hcopy. reflexivity.
Defined.

(** C7, the other way round: when the step succeeds, the tracker's error
    is what comes back. *)
Lemma stop_error_surfaces_run :
  snd (fst (backupTagStep failingStop ctxBackground srcRepo (OCIStore "out")
              "v1" false plainCopyOptions DefaultExtendedCopyOptions emptyWorld))
  = Some closeFailed.
Proof. reflexivity. Qed.



(** C9 as the claim has it fails for a directory output: the registry
    lists no tags, the backup to the directory [hello] returns the "no
    tags found" error, and the layout [oci.New] laid out at [hello]
    before the tags were asked for is still there. *)
Lemma empty_layout_left_run :
  let run := runBackup noRemoteTags backupCommand ctxBackground
               ScriptExtras.dirBackupAll emptyWorld in
  fst run = Some (noTagsFoundError backupCommand "localhost:5000/hello")
  /\ files (snd run) = ["hello/blobs"; "hello/oci-layout"; "hello/index.json"]
  /\ exists_path "hello/index.json" (snd run) = true.
Proof. cbv zeta. repeat split; vm_compute; reflexivity. Qed.

(** C9, amended, on that registry: for a [.tar] output nothing the run
    created remains, for the directory output [hello] the layout does. *)
Lemma no_tags_found_run :
  fst (runBackup noRemoteTags backupCommand ctxBackground tarBackup emptyWorld)
  = Some (OrasError
            (Errorf "no tags found in repository %s, please specify at least one tag to back up"
               ["localhost:5000/hello"])
            ("oras" ++ " " ++ Use backupCommand)
            ("If you want to list available tags in " ++ "localhost:5000/hello"
             ++ ", use " ++ dquote ++ "oras repo tags" ++ dquote))
  /\ snd (runBackup noRemoteTags backupCommand ctxBackground tarBackup emptyWorld)
     = emptyWorld
  /\ files (snd (runBackup noRemoteTags backupCommand ctxBackground
                   ScriptExtras.dirBackupAll emptyWorld))
     = below "hello" ["blobs"; "oci-layout"; "index.json"] ++ [].
Proof.
  destruct (BackupProofs.runBackup_no_tags_found noRemoteTags backupCommand
              ctxBackground tarBackup emptyWorld "/tmp/oras-backup-1"
              (RemoteRepository helloRepo) (OCIStore "/tmp/oras-backup-1")
              eq_refl (or_intror (conj eq_refl eq_refl)) eq_refl eq_refl eq_refl)
    as (Herr & _ & _ & Htar).
  destruct (BackupProofs.runBackup_no_tags_found noRemoteTags backupCommand
              ctxBackground ScriptExtras.dirBackupAll emptyWorld "hello"
              (RemoteRepository helloRepo) (OCIStore "hello")
              eq_refl (or_introl (conj eq_refl eq_refl)) eq_refl eq_refl eq_refl)
    as (_ & _ & Hdir & _).
  split; [exact Herr | split; [reflexivity |]].
  destruct (Hdir eq_refl) as [_ Hfiles]. exact Hfiles.
Defined.

(** C10 on [v1,,v2], on tags with spaces around them, and on a tag part
    of commas and spaces. *)
Lemma trimmed_and_skipped_run :
  parseArtifactsToBackup (scripted quiet) "localhost:5000/hello:v1,,v2"
  = ("localhost:5000/hello", ["v1"; "v2"], None)
  /\ parseArtifactsToBackup (scripted quiet) "localhost:5000/hello: v1 ,v2  "
     = ("localhost:5000/hello", ["v1"; "v2"], None)
  /\ parseArtifactsToBackup (scripted quiet) "localhost:5000/hello: , ,"
     = ("localhost:5000/hello", [], None)
  /\ findTagsToBackup (scripted quiet) ctxBackground srcRepo
       (fst (backupCmd_PreRunE (scripted quiet) tarBackup
               "localhost:5000/hello: , ,"))
     = Ok ["v1"; "v2"].
Proof.
  destruct (BackupProofs.tags_trimmed_and_empty_skipped (scripted quiet)
              "localhost:5000/hello" helloRepo eq_refl eq_refl)
    as (_ & Hskip & Htrim & Hblank).
  destruct (Hblank " , ,") as [Hnone Hfind].
  - apply cas_space1; [reflexivity |]. apply cas_comma.
    apply cas_space1; [reflexivity |]. apply cas_comma. apply cas_empty.
  - discriminate.
  - split; [exact Hskip | split; [exact Htrim | split; [exact Hnone |]]].
    apply (Hfind tarBackup ctxBackground srcRepo). reflexivity.
Defined.

(** C4 on a failing [TarDirectory]: the error comes back and the
    temporary archive is still there. *)
Lemma leaves_temp_tar_run :
  (exists e, fst (prepareBackupOutput failingTar ctxBackground "/tmp/oras-backup-1"
                    tarBackup emptyWorld) = Some e)
  /\ exists_path "/tmp/oras-backup-2.tar"
       (snd (prepareBackupOutput failingTar ctxBackground "/tmp/oras-backup-1"
               tarBackup emptyWorld)) = true.
Proof.
  apply (BackupProofs.prepareBackupOutput_leaves_temp_tar failingTar ctxBackground
           "/tmp/oras-backup-1" tarBackup emptyWorld "/tmp/oras-backup-2.tar"
           tarFailed).
  - reflexivity.
  - intros w'. reflexivity.
  - intros w'. reflexivity.
  - left. intros w'. reflexivity.
Defined.

(** The whole command on that run: the staging directory is removed on
    the way out, the temporary archive is what remains. *)
Lemma backup_tar_failure_run :
  let run := backupCmd_Execute failingTar backupCommand ctxBackground tarBackup
               "localhost:5000/hello:v1" emptyWorld in
  fst run
  = Some (Wrapf "failed to create tar archive from directory %s: %w"
            ["/tmp/oras-backup-1"] tarFailed)
  /\ files (snd run) = ["/tmp/oras-backup-2.tar"].
Proof. split; vm_compute; reflexivity. Qed.

(** The same command when nothing fails: only the output file remains. *)
Lemma backup_tar_success_run :
  let run := backupCmd_Execute (scripted quiet) backupCommand ctxBackground
               tarBackup "localhost:5000/hello:v1" emptyWorld in
  fst run = None /\ files (snd run) = ["/work/hello.tar"].
Proof. split; vm_compute; reflexivity. Qed.

End Runs.

(* ================================================================== *)
(** * Further properties *)

From Stdlib Require Import Permutation.

(** ** Logs of computations *)

Module TraceFacts.
Import Trace.

Lemma emits_ret (A : Type) (P : Event -> Prop) (a : A) : emits P (ret a).
Proof. intros w. exists []. split; [reflexivity | constructor]. Qed.

Lemma emits_ask (A : Type) (P : Event -> Prop) (f : World -> A) : emits P (ask f).
Proof. intros w. exists []. split; [reflexivity | constructor]. Qed.

Lemma emits_tell (P : Event -> Prop) (e : Event) : P e -> emits P (tell e).
Proof.
  intros He w. exists [e]. split; [reflexivity | constructor; [exact He | constructor]].
Qed.

Lemma emits_update (P : Event -> Prop) (f : World -> World) :
  (forall w, events (f w) = events w) -> emits P (update f).
Proof.
  intros Hf w. exists []. split; [apply Hf | constructor].
Qed.

Lemma emits_bind (A B : Type) (P : Event -> Prop) (m : M A) (k : A -> M B) :
  emits P m -> (forall a, emits P (k a)) -> emits P (bind m k).
Proof.
  intros Hm Hk w. unfold bind.
  destruct (Hm w) as (made1 & E1 & F1).
  destruct (m w) as [a w1]. simpl in E1.
  destruct (Hk a w1) as (made2 & E2 & F2).
  exists (made2 ++ made1). split.
  - rewrite E2, E1, app_assoc. reflexivity.
  - apply Forall_app. split; assumption.
Qed.

Lemma emits_call (A : Type) (P : Event -> Prop) (answer : World -> A) (e : Event) :
  P e -> emits P (call answer e).
Proof.
  intros He. unfold call.
  apply emits_bind; [apply emits_ask |]. intros a.
  apply emits_bind; [apply emits_tell; exact He |]. intros _. apply emits_ret.
Qed.

Lemma emits_defer (A : Type) (P : Event -> Prop) (body : M A) (cleanup : A -> M A) :
  emits P body -> (forall a, emits P (cleanup a)) -> emits P (defer body cleanup).
Proof. intros Hb Hc. unfold defer. apply emits_bind; assumption. Qed.

Lemma emits_weaken (A : Type) (P Q : Event -> Prop) (m : M A) :
  (forall e, P e -> Q e) -> emits P m -> emits Q m.
Proof.
  intros HPQ Hm w. destruct (Hm w) as (made & E & F).
  exists made. split; [exact E |].
  eapply Forall_impl; [exact HPQ | exact F].
Qed.

Lemma stopTrackingDeferred_emits (A : Type) (P : Event -> Prop) (O : Oracle)
  (r : A * option error) :
  P EvStopTracking -> emits P (Cp.stopTrackingDeferred O r).
Proof.
  intros HP. unfold Cp.stopTrackingDeferred.
  apply emits_bind; [apply emits_call; exact HP |]. intros a. apply emits_ret.
Qed.


End TraceFacts.

(** ** More on the referrer-closure resolver *)

Module ClosureExtras.
Import Cp ClosureProofs.

(** Whatever the collaborators answer, [prepareCopyOption] returns
    either the options it was given or those options with the lookup
    replaced by the augmented one over a non-empty list free of the
    root; the graph options (concurrency, handlers, mount hint) are
    always those of the input. *)
Theorem prepareCopyOption_only_changes_lookup
  (O : Oracle) (ctx : Context) (src dst : Target) (root : Descriptor)
  (opts : ExtendedCopyOptions) :
  let opts' := fst (prepareCopyOption O ctx src dst root opts) in
  ECO_CopyGraphOptions opts' = ECO_CopyGraphOptions opts
  /\ (opts' = opts
      \/ exists referrers : list Descriptor,
           referrers <> []
           /\ (forall x, In x referrers -> Equal x root = false)
           /\ snd (prepareCopyOption O ctx src dst root opts) = None
           /\ opts' = with_FindPredecessors opts
                        (augmentedPredecessors (ECO_FindPredecessors opts)
                           root referrers)).
Proof.
  cbv zeta. split; [apply prepareCopyOption_CopyGraphOptions |].
  unfold prepareCopyOption.
  destruct (negb (MediaType root =? MediaTypeImageIndex)
            && negb (MediaType root =? MediaTypeManifestList)); [left; reflexivity |].
  destruct (FetchAll O ctx src root) as [fetched | e]; [| left; reflexivity].
  destruct (UnmarshalIndex O fetched) as [index | e]; [| left; reflexivity].
  destruct (List.length (Manifests index) =? 0)%nat; [left; reflexivity |].
  destruct (graph_FindPredecessors O ctx src (Manifests index) opts)
    as [merged | e]; [| left; reflexivity].
  cbv zeta.
  destruct (List.length (DeleteFunc merged (fun desc => Equal desc root)) =? 0)%nat
    eqn:Hlen; [left; reflexivity |].
  right. exists (DeleteFunc merged (fun desc => Equal desc root)).
  repeat split.
  - intros Hnil. rewrite Hnil in Hlen. discriminate.
  - intros x Hx. apply DeleteFunc_In in Hx. tauto.
Qed.

(** When [prepareCopyOption] returns an error, the root is an Index, the
    error is the one a collaborator returned (the fetch of the root, the
    decoding of the index, or the lookup of the children's referrers, in
    that order), and the options come back untouched: no lookup built on
    a part of the referrers is ever returned. *)
Theorem prepareCopyOption_error_is_collaborators
  (O : Oracle) (ctx : Context) (src dst : Target) (root : Descriptor)
  (opts : ExtendedCopyOptions) (err : error) :
  snd (prepareCopyOption O ctx src dst root opts) = Some err ->
  fst (prepareCopyOption O ctx src dst root opts) = opts
  /\ isIndex root
  /\ (FetchAll O ctx src root = Err err
      \/ (exists fetched,
            FetchAll O ctx src root = Ok fetched
            /\ UnmarshalIndex O fetched = Err err)
      \/ (exists fetched index,
            FetchAll O ctx src root = Ok fetched
            /\ UnmarshalIndex O fetched = Ok index
            /\ Manifests index <> []
            /\ graph_FindPredecessors O ctx src (Manifests index) opts = Err err)).
Proof.
  intros Herr.
  assert (Hidx : isIndex root).
  { unfold isIndex.
    destruct (String.eqb_spec (MediaType root) MediaTypeImageIndex) as [H1 | H1];
      [left; exact H1 |].
    destruct (String.eqb_spec (MediaType root) MediaTypeManifestList) as [H2 | H2];
      [right; exact H2 |].
    exfalso. unfold prepareCopyOption in Herr.
    apply String.eqb_neq in H1, H2. rewrite H1, H2 in Herr. discriminate Herr. }
  unfold prepareCopyOption in *. rewrite (isIndex_test root Hidx) in *.
  destruct (FetchAll O ctx src root) as [fetched | e] eqn:Hfetch.
  - destruct (UnmarshalIndex O fetched) as [index | e] eqn:Hjson.
    + destruct (List.length (Manifests index) =? 0)%nat eqn:Hlen;
        [discriminate Herr |].
      destruct (graph_FindPredecessors O ctx src (Manifests index) opts)
        as [merged | e] eqn:Hpred.
      * cbv zeta in Herr.
        destruct (List.length (DeleteFunc merged (fun desc => Equal desc root))
                  =? 0)%nat; discriminate Herr.
      * inversion Herr; subst. repeat split; auto.
        right; right. exists fetched, index. repeat split; auto.
        intros Hnil. rewrite Hnil in Hlen. discriminate Hlen.
    + inversion Herr; subst. repeat split; auto.
      right; left. exists fetched. auto.
  - inversion Herr; subst. repeat split; auto.
Qed.

Lemma DeleteFunc_Permutation (A : Type) (del : A -> bool) (l1 l2 : list A) :
  Permutation l1 l2 -> Permutation (DeleteFunc l1 del) (DeleteFunc l2 del).
Proof.
  unfold DeleteFunc. induction 1 as [| x l l' _ IH | x y l | l l' l'' _ IH1 _ IH2];
    simpl.
  - constructor.
  - destruct (negb (del x)); [constructor |]; exact IH.
  - destruct (negb (del x)), (negb (del y)); try apply Permutation_refl.
    apply perm_swap.
  - eapply Permutation_trans; eassumption.
Qed.

(** The order in which the children's referrers come back (they are
    gathered concurrently) does not matter: for two answers of
    [graph.FindPredecessors] that are permutations of each other, the
    lookups [prepareCopyOption] returns agree on every query up to the
    order of the descriptors, and on errors and panics exactly. *)
Theorem prepareCopyOption_order_independent
  (O1 O2 : Oracle) (ctx : Context) (src dst : Target) (root : Descriptor)
  (opts : ExtendedCopyOptions) (fetched : string) (index : Index)
  (merged1 merged2 : list Descriptor) :
  isIndex root ->
  FetchAll O1 ctx src root = Ok fetched ->
  FetchAll O2 ctx src root = Ok fetched ->
  UnmarshalIndex O1 fetched = Ok index ->
  UnmarshalIndex O2 fetched = Ok index ->
  Manifests index <> [] ->
  graph_FindPredecessors O1 ctx src (Manifests index) opts = Ok merged1 ->
  graph_FindPredecessors O2 ctx src (Manifests index) opts = Ok merged2 ->
  Permutation merged1 merged2 ->
  forall (qctx : Context) (qsrc : Target) (d : Descriptor),
    match
      callPredecessors
        (ECO_FindPredecessors (fst (prepareCopyOption O1 ctx src dst root opts)))
        qctx qsrc d,
      callPredecessors
        (ECO_FindPredecessors (fst (prepareCopyOption O2 ctx src dst root opts)))
        qctx qsrc d
    with
    | Returns (descs1, err1), Returns (descs2, err2) =>
        err1 = err2 /\ Permutation descs1 descs2
    | NilFuncPanic, NilFuncPanic => True
    | _, _ => False
    end.
Proof.
  intros Hidx Hf1 Hf2 Hj1 Hj2 Hne Hp1 Hp2 Hperm qctx qsrc d.
  rewrite (prepareCopyOption_index O1 ctx src dst root opts fetched index merged1
             Hidx Hf1 Hj1 Hne Hp1).
  rewrite (prepareCopyOption_index O2 ctx src dst root opts fetched index merged2
             Hidx Hf2 Hj2 Hne Hp2).
  cbv zeta.
  pose proof (DeleteFunc_Permutation Descriptor (fun desc => Equal desc root)
                merged1 merged2 Hperm) as Hdel.
  set (r1 := DeleteFunc merged1 (fun desc => Equal desc root)) in *.
  set (r2 := DeleteFunc merged2 (fun desc => Equal desc root)) in *.
  pose proof (Permutation_length Hdel) as Hlen. rewrite <- Hlen.
  destruct (List.length r1 =? 0)%nat eqn:Hzero.
  - simpl.
    destruct (callPredecessors (ECO_FindPredecessors opts) qctx qsrc d)
      as [[descs e] |]; [split; [reflexivity | apply Permutation_refl] | exact I].
  - simpl. unfold augmentedPredecessors.
    destruct (callPredecessors (ECO_FindPredecessors opts) qctx qsrc d)
      as [[descs [e |]] |].
    + split; [reflexivity | constructor].
    + destruct (Equal d root).
      * split; [reflexivity | apply Permutation_app_head; exact Hdel].
      * split; [reflexivity | apply Permutation_refl].
    + exact I.
Qed.

End ClosureExtras.

(** ** More on the copy orchestrator *)

Module CopyExtras.
Import Cp Trace TraceFacts.

(** Splits a goal [emits P m] along the structure of [m]. *)
Ltac emits_step :=
  first
    [ apply emits_ret
    | apply emits_ask
    | apply emits_call
    | apply emits_tell
    | apply emits_bind; [| intros ?]
    | apply emits_defer; [| intros ?]
    | apply stopTrackingDeferred_emits
    | match goal with
      | |- emits _ (match ?x with _ => _ end) => destruct x eqn:?
      end ].

Lemma recursiveCopy_emits (P : Event -> Prop) (O : Oracle) (ctx : Context)
  (src dst : Target) (dstRef : string) (root : Descriptor)
  (opts : ExtendedCopyOptions) :
  (forall prepared o,
     ECO_CopyGraphOptions prepared = ECO_CopyGraphOptions opts ->
     o = ECO_ExtendedCopyGraphOptions prepared ->
     P (EvExtendedCopyGraph src dst root o)) ->
  (forall prepared,
     ECO_CopyGraphOptions prepared = ECO_CopyGraphOptions opts ->
     P (EvExtendedCopy src (Digest root) dst dstRef prepared)) ->
  emits P (recursiveCopy O ctx src dst dstRef root opts).
Proof.
  intros Hgraph Htag. unfold recursiveCopy.
  pose proof (ClosureProofs.prepareCopyOption_CopyGraphOptions O ctx src dst root opts)
    as Hframe.
  destruct (prepareCopyOption O ctx src dst root opts) as [prepared [err |]];
    simpl in Hframe.
  - apply emits_ret.
  - destruct ((dstRef =? "") || (dstRef =? Digest root)).
    + apply emits_call. apply (Hgraph prepared); auto.
    + apply emits_bind; [apply emits_call; apply Htag; auto |].
      intros r. apply emits_ret.
Qed.

(** What every engine call of [doCopyTracked] satisfies, given what the
    four kinds of call satisfy for graph options equal to those of the
    options with the handlers in. *)
Lemma doCopyTracked_emits (P : Event -> Prop) (O : Oracle) (ctx : Context)
  (src dst : Target) (opts : copyOptions) (eco : ExtendedCopyOptions) :
  let G := ECO_CopyGraphOptions (withStatusHandlers eco) in
  (recursive opts = true ->
   forall root o, ECGO_CopyGraphOptions o = G ->
                  P (EvExtendedCopyGraph src dst root o)) ->
  (recursive opts = true ->
   forall srcRef dstRef prepared, ECO_CopyGraphOptions prepared = G ->
                  P (EvExtendedCopy src srcRef dst dstRef prepared)) ->
  (recursive opts = false ->
   forall root, P (EvCopyGraph src dst root G)) ->
  (recursive opts = false ->
   forall srcRef dstRef platform,
     P (EvCopy src srcRef dst dstRef
          {| CO_CopyGraphOptions := G; CO_TargetPlatform := platform |})) ->
  emits P (doCopyTracked O ctx src dst opts eco).
Proof.
  intros G Hg Ht Hc Hp. unfold doCopyTracked. fold G.
  destruct (recursive opts).
  - destruct (oras_Resolve O ctx src (From_Reference opts) (Platform opts))
      as [desc | err]; [| apply emits_ret].
    apply emits_bind; [| intros e; apply emits_ret].
    apply recursiveCopy_emits.
    + intros prepared o Hpre ->. apply Hg; [reflexivity |]. exact Hpre.
    + intros prepared Hpre. apply Ht; [reflexivity |]. exact Hpre.
  - destruct (To_Reference opts =? "").
    + destruct (oras_Resolve O ctx src (From_Reference opts) (Platform opts))
        as [desc | err]; [| apply emits_ret].
      apply emits_bind; [| intros e; apply emits_ret].
      apply emits_call. apply Hc. reflexivity.
    + apply emits_call. apply Hp. reflexivity.
Qed.

Lemma doCopy_emits (P : Event -> Prop) (O : Oracle) (ctx : Context)
  (src dst : Target) (opts : copyOptions) :
  P (EvStartTracking dst) -> P EvStopTracking ->
  (forall tracked,
     emits P (doCopyTracked O ctx src tracked opts (doCopyOptions O src dst opts))) ->
  emits P (doCopy O ctx src dst opts).
Proof.
  intros Hstart Hstop Hbody. unfold doCopy.
  apply emits_bind; [apply emits_call; exact Hstart |]. intros started.
  destruct started as [tracked | err]; [| apply emits_ret].
  apply emits_defer; [apply Hbody |]. intros r.
  apply stopTrackingDeferred_emits. exact Hstop.
Qed.

(** Every call [doCopy] makes into the replication engine is given the
    concurrency of the command's options and the four handlers of the
    status handler, in every mode. *)
Theorem doCopy_passes_concurrency_and_handlers
  (O : Oracle) (ctx : Context) (src dst : Target) (opts : copyOptions) :
  emits
    (fun e =>
       forall g, engineOptions e = Some g ->
         Concurrency g = concurrency opts
         /\ PreCopy g = Some HandlerPreCopy
         /\ PostCopy g = Some HandlerPostCopy
         /\ OnCopySkipped g = Some HandlerOnCopySkipped
         /\ OnMounted g = Some HandlerOnMounted)
    (doCopy O ctx src dst opts).
Proof.
  assert (HG : forall g,
            g = ECO_CopyGraphOptions (withStatusHandlers (doCopyOptions O src dst opts)) ->
            Concurrency g = concurrency opts
            /\ PreCopy g = Some HandlerPreCopy
            /\ PostCopy g = Some HandlerPostCopy
            /\ OnCopySkipped g = Some HandlerOnCopySkipped
            /\ OnMounted g = Some HandlerOnMounted).
  { intros g ->. unfold doCopyOptions, mountHint.
    destruct src as [s | |]; destruct dst as [d | |];
      try (repeat split; reflexivity).
    destruct (Registry s =? Registry d); repeat split; reflexivity. }
  apply doCopy_emits.
  - intros g Hg. discriminate Hg.
  - intros g Hg. discriminate Hg.
  - intros tracked. apply doCopyTracked_emits.
    + intros _ root o Ho g Hg. inversion Hg; subst. apply HG. exact Ho.
    + intros _ srcRef dstRef prepared Hpre g Hg. inversion Hg; subst.
      apply HG. exact Hpre.
    + intros _ root g Hg. inversion Hg; subst. apply HG. reflexivity.
    + intros _ srcRef dstRef platform g Hg. inversion Hg; subst.
      apply HG. reflexivity.
Qed.

(** The engine calls of [doCopy] are the extended ones exactly in
    recursive mode: without it no referrer is copied, and with it no
    plain copy is made. *)
Theorem doCopy_extended_iff_recursive
  (O : Oracle) (ctx : Context) (src dst : Target) (opts : copyOptions) :
  emits (fun e => isEngineCall e = true -> isExtendedCall e = recursive opts)
        (doCopy O ctx src dst opts).
Proof.
  apply doCopy_emits.
  - discriminate.
  - discriminate.
  - intros tracked. apply doCopyTracked_emits.
    + intros -> root o _ _. reflexivity.
    + intros -> srcRef dstRef prepared _ _. reflexivity.
    + intros -> root _. reflexivity.
    + intros -> srcRef dstRef platform _. reflexivity.
Qed.

(** Without recursive mode: an empty destination reference makes
    [doCopy] resolve the source reference and copy the graph of the
    descriptor found, tagging nothing; a resolve failure there ends the
    copy before any engine call, with an error naming the source
    reference; any other destination reference leads to one tagged copy
    from the source reference, which the orchestrator does not resolve
    itself. *)
Theorem doCopyTracked_plain_modes
  (O : Oracle) (ctx : Context) (src dst : Target) (opts : copyOptions)
  (eco : ExtendedCopyOptions) (w : World) :
  recursive opts = false ->
  let G := ECO_CopyGraphOptions (withStatusHandlers eco) in
  (To_Reference opts = "" ->
     match oras_Resolve O ctx src (From_Reference opts) (Platform opts) with
     | Ok desc =>
         doCopyTracked O ctx src dst opts eco w
         = ((desc, oras_CopyGraph O w ctx src dst desc G),
            log (EvCopyGraph src dst desc G) w)
     | Err err =>
         doCopyTracked O ctx src dst opts eco w
         = ((zeroDescriptor,
             Some (Wrapf "failed to resolve %s: %w" [From_Reference opts] err)), w)
     end)
  /\ (To_Reference opts <> "" ->
      let copyOptions :=
        {| CO_CopyGraphOptions := G; CO_TargetPlatform := Platform opts |} in
      doCopyTracked O ctx src dst opts eco w
      = (oras_Copy O w ctx src (From_Reference opts) dst (To_Reference opts)
           copyOptions,
         log (EvCopy src (From_Reference opts) dst (To_Reference opts)
                copyOptions) w)).
Proof.
  intros Hrec G. unfold doCopyTracked. rewrite Hrec. fold G. split.
  - intros ->. rewrite String.eqb_refl.
    destruct (oras_Resolve O ctx src (From_Reference opts) (Platform opts));
      reflexivity.
  - intros Hne. apply String.eqb_neq in Hne. rewrite Hne. reflexivity.
Qed.

(** A tracking scope is closed exactly when it was opened: if
    [StartTracking] fails, [doCopy] and the per-tag backup step return
    its error and call neither the engine nor [StopTracking]; if it
    succeeds, [StopTracking] is called once, last, whatever happens in
    between. *)
Theorem tracking_scope_is_closed_once
  (O : Oracle) (ctx : Context) (src dst : Target) (opts : copyOptions)
  (t : string) (includeReferrers : bool) (copyOpts : CopyOptions)
  (extendedCopyOpts : ExtendedCopyOptions) (w : World) :
  let balanced (A : Type) (run : A * option error * World) : Prop :=
    match StartTracking O w dst with
    | Ok _ =>
        exists between : list Event,
          events (snd run)
          = EvStopTracking :: between ++ EvStartTracking dst :: events w
          /\ Forall (fun e => isTrackingEvent e = false) between
    | Err err =>
        snd (fst run) = Some err
        /\ events (snd run) = EvStartTracking dst :: events w
    end in
  balanced Descriptor (doCopy O ctx src dst opts w)
  /\ balanced Z (Backup.backupTagStep O ctx src dst t includeReferrers copyOpts
                   extendedCopyOpts w).
Proof.
  cbv zeta. split.
  - destruct (StartTracking O w dst) as [tracked | err] eqn:Hstart.
    + rewrite (CopyProofs.doCopy_started O ctx src dst tracked opts w Hstart),
        CopyProofs.defer_stopTracking.
      assert (Hbody : emits (fun e => isTrackingEvent e = false)
                (doCopyTracked O ctx src tracked opts (doCopyOptions O src dst opts))).
      { apply doCopyTracked_emits; intros; reflexivity. }
      destruct (Hbody (log (EvStartTracking dst) w)) as (between & E & F).
      destruct (doCopyTracked O ctx src tracked opts (doCopyOptions O src dst opts)
                  (log (EvStartTracking dst) w)) as [r w1].
      simpl in *. exists between. rewrite E. split; [reflexivity | exact F].
    + unfold doCopy. run_go. rewrite Hstart. simpl. auto.
  - destruct (StartTracking O w dst) as [tracked | err] eqn:Hstart.
    + rewrite (CopyProofs.backupTagStep_started O ctx src dst tracked t
                 includeReferrers copyOpts extendedCopyOpts w Hstart),
        CopyProofs.defer_stopTracking.
      assert (Hbody : emits (fun e => isTrackingEvent e = false)
                (Backup.backupTag O ctx src tracked t includeReferrers copyOpts
                   extendedCopyOpts)).
      { unfold Backup.backupTag.
        repeat (emits_step; try reflexivity). }
      destruct (Hbody (log (EvStartTracking dst) w)) as (between & E & F).
      destruct (Backup.backupTag O ctx src tracked t includeReferrers copyOpts
                  extendedCopyOpts (log (EvStartTracking dst) w)) as [r w1].
      simpl in *. exists between. rewrite E. split; [reflexivity | exact F].
    + unfold Backup.backupTagStep. run_go. rewrite Hstart. simpl. auto.
Qed.

End CopyExtras.

(** ** More on the backup orchestrator *)

Module BackupExtras.
Import GoStrings Regexp Backup Trace TraceFacts.
Import CopyExtras.

(** Whenever [backupTag] returns an error, the referrer count it returns
    is zero and the error is the error of the collaborator that failed,
    wrapped in the message of that step with the tag as its operand: the
    copy, the resolution, the closure resolver, the extended copy or the
    referrers query at the destination. *)
Theorem backupTag_error_names_tag
  (O : Oracle) (ctx : Context) (src dst : Target) (tag : string)
  (includeReferrers : bool) (copyOpts : CopyOptions)
  (extCopyOpts : ExtendedCopyOptions) (w : World) (err : error) :
  snd (fst (backupTag O ctx src dst tag includeReferrers copyOpts extCopyOpts w))
  = Some err ->
  fst (fst (backupTag O ctx src dst tag includeReferrers copyOpts extCopyOpts w))
  = 0%Z
  /\ In tag (names err)
  /\ ((includeReferrers = false
       /\ exists cause,
            snd (oras_Copy O w ctx src tag dst tag copyOpts) = Some cause
            /\ err = Wrapf "failed to copy ref %s: %w" [tag] cause)
      \/ (includeReferrers = true
          /\ exists cause,
               oras_Resolve O ctx src tag None = Err cause
               /\ err = Wrapf "failed to resolve %s: %w" [tag] cause)
      \/ (includeReferrers = true
          /\ exists desc cause,
               oras_Resolve O ctx src tag None = Ok desc
               /\ snd (Cp.prepareCopyOption O ctx src dst desc extCopyOpts)
                  = Some cause
               /\ err = Wrapf "failed to prepare extended copy options for %s: %w"
                          [tag] cause)
      \/ (includeReferrers = true
          /\ exists desc prepared cause,
               oras_Resolve O ctx src tag None = Ok desc
               /\ Cp.prepareCopyOption O ctx src dst desc extCopyOpts
                  = (prepared, None)
               /\ snd (oras_ExtendedCopy O w ctx src (Digest desc) dst tag prepared)
                  = Some cause
               /\ err = Wrapf "failed to copy tag %s: %w" [tag] cause)
      \/ (includeReferrers = true
          /\ exists desc prepared cause,
               oras_Resolve O ctx src tag None = Ok desc
               /\ Cp.prepareCopyOption O ctx src dst desc extCopyOpts
                  = (prepared, None)
               /\ snd (oras_ExtendedCopy O w ctx src (Digest desc) dst tag prepared)
                  = None
               /\ registry_Referrers O ctx dst desc "" = Err cause
               /\ err = Wrapf "failed to get referrers for %s: %w" [tag] cause)).
Proof.
  unfold backupTag.
  destruct includeReferrers;
    [change (negb true) with false | change (negb false) with true]; cbv iota.
  - destruct (oras_Resolve O ctx src tag None) as [desc | e] eqn:Hres.
    + destruct (Cp.prepareCopyOption O ctx src dst desc extCopyOpts)
        as [prepared [e |]] eqn:Hprep.
      * run_go. intros H; inversion H; subst.
        split; [reflexivity | split; [left; reflexivity |]].
        right; right; left. split; [reflexivity |]. exists desc, e.
        rewrite Hprep. repeat split; reflexivity.
      * run_go.
        destruct (oras_ExtendedCopy O w ctx src (Digest desc) dst tag prepared)
          as [d [e |]] eqn:Hcopy; run_go.
        -- intros H; inversion H; subst.
           split; [reflexivity | split; [left; reflexivity |]].
           right; right; right; left. split; [reflexivity |].
           exists desc, prepared, e. rewrite Hcopy.
           repeat split; try reflexivity; assumption.
        -- destruct (registry_Referrers O ctx dst desc "") as [refs | e] eqn:Href;
             run_go.
           ++ discriminate.
           ++ intros H; inversion H; subst.
              split; [reflexivity | split; [left; reflexivity |]].
              right; right; right; right. split; [reflexivity |].
              exists desc, prepared, e. rewrite Hcopy.
              repeat split; try reflexivity; assumption.
    + run_go. intros H; inversion H; subst.
      split; [reflexivity | split; [left; reflexivity |]].
      right; left. split; [reflexivity |]. exists e. repeat split; reflexivity.
  - run_go.
    destruct (oras_Copy O w ctx src tag dst tag copyOpts) as [d [e |]] eqn:Hcopy;
      run_go.
    + intros H; inversion H; subst.
      split; [reflexivity | split; [left; reflexivity |]].
      left. split; [reflexivity |]. exists e. repeat split; reflexivity.
    + discriminate.
Qed.

(** A failing tag ends the loop: when the step of tag [t] fails in every
    world, the tags listed after [t] change nothing, neither the result
    nor the world, and the loop returns an error. *)
Theorem backupTags_stops_at_failing_tag
  (O : Oracle) (ctx : Context) (srcRepo dstOCI : Target)
  (includeReferrers : bool) (copyOpts : CopyOptions)
  (extendedCopyOpts : ExtendedCopyOptions)
  (before after : list string) (t : string) (w : World) :
  (forall w', snd (fst (backupTagStep O ctx srcRepo dstOCI t includeReferrers
                          copyOpts extendedCopyOpts w')) <> None) ->
  backupTags O ctx srcRepo dstOCI includeReferrers copyOpts extendedCopyOpts
    (before ++ t :: after) w
  = backupTags O ctx srcRepo dstOCI includeReferrers copyOpts extendedCopyOpts
      (before ++ [t]) w
  /\ fst (backupTags O ctx srcRepo dstOCI includeReferrers copyOpts
            extendedCopyOpts (before ++ t :: after) w) <> None.
Proof.
  intros Hfail. revert w. induction before as [| b before IH]; intros w.
  - simpl app. cbn [backupTags]. unfold bind.
    specialize (Hfail w).
    destruct (backupTagStep O ctx srcRepo dstOCI t includeReferrers copyOpts
                extendedCopyOpts w) as [[n [e |]] w1]; simpl in *.
    + split; [reflexivity | discriminate].
    + contradiction.
  - simpl app. cbn [backupTags]. unfold bind.
    destruct (backupTagStep O ctx srcRepo dstOCI b includeReferrers copyOpts
                extendedCopyOpts w) as [[n [e |]] w1]; simpl.
    + split; [reflexivity | discriminate].
    + unfold call, bind, ask, tell, ret.
      destruct (OnArtifactPulled O w1 b n) as [e |]; simpl.
      * split; [reflexivity | discriminate].
      * apply IH.
Qed.





Lemma removing_emits (P : Event -> Prop) (answer : World -> option error)
  (p : string) (onError : error -> M unit) :
  (forall err, emits P (onError err)) -> emits P (removing answer p onError).
Proof.
  intros H. unfold removing. apply emits_bind; [apply emits_ask |].
  intros [err |]; [apply H |]. apply emits_update. reflexivity.
Qed.

Lemma removingAll_emits (P : Event -> Prop) (answer : World -> option error)
  (p : string) (onError : error -> M unit) :
  (forall err, emits P (onError err)) -> emits P (removingAll answer p onError).
Proof.
  intros H. unfold removingAll. apply emits_bind; [apply emits_ask |].
  intros [err |]; [apply H |]. apply emits_update. reflexivity.
Qed.

Lemma prepareBackupOutput_emits (P : Event -> Prop) (O : Oracle) (ctx : Context)
  (dstRoot : string) (opts : backupOptions) :
  (forall e, Cp.isEngineCall e = false -> isTrackingEvent e = false ->
             pulledReports [e] = [] -> P e) ->
  emits P (prepareBackupOutput O ctx dstRoot opts).
Proof.
  intros HP. unfold prepareBackupOutput.
  apply emits_bind; [apply emits_ask |]. intros st.
  apply emits_bind.
  { destruct st; [| apply emits_ret].
    apply removingAll_emits. intros err. apply emits_tell. apply HP; reflexivity. }
  intros _.
  destruct (negb (outputFormat_of opts =? outputFormatTar)%Z); [apply emits_ret |].
  apply emits_bind; [apply emits_call; apply HP; reflexivity |].
  intros [err |]; [apply emits_ret |].
  apply emits_bind; [apply emits_ask |].
  intros [tempTarPath | err]; [| apply emits_ret].
  apply emits_bind; [apply emits_update; reflexivity |]. intros _.
  apply emits_bind; [apply emits_ask |].
  intros [err |]; [apply emits_ret |].
  apply emits_bind; [apply emits_ask |].
  intros [err |]; [apply emits_ret |].
  destruct (if filepath_IsAbs O (output opts) then Ok (output opts)
            else filepath_Abs O (output opts)) as [absOutput | err];
    [| apply emits_ret].
  apply emits_bind; [apply emits_ask |].
  intros [err |]; [apply emits_ret |].
  apply emits_bind; [apply emits_ask |].
  intros [err |].
  - apply emits_bind; [| intros _; apply emits_ret].
    apply removing_emits. intros e. apply emits_tell. apply HP; reflexivity.
  - apply emits_bind; [apply emits_update; reflexivity |]. intros _.
    apply emits_bind; [apply emits_ask |].
    intros [size | err]; [| apply emits_ret].
    apply emits_call. apply HP; reflexivity.
Qed.

Lemma backupTags_emits (P : Event -> Prop) (O : Oracle) (ctx : Context)
  (srcRepo dstOCI : Target) (includeReferrers : bool) (copyOpts : CopyOptions)
  (extendedCopyOpts : ExtendedCopyOptions) (tags : list string) :
  (forall e, Cp.isEngineCall e = false -> P e) ->
  (forall src srcRef dst dstRef, P (EvCopy src srcRef dst dstRef copyOpts)) ->
  (forall src srcRef dst dstRef prepared,
     ECO_CopyGraphOptions prepared = ECO_CopyGraphOptions extendedCopyOpts ->
     P (EvExtendedCopy src srcRef dst dstRef prepared)) ->
  emits P (backupTags O ctx srcRepo dstOCI includeReferrers copyOpts
             extendedCopyOpts tags).
Proof.
  intros Hother Hcopy Hext.
  assert (Htag : forall dst t,
            emits P (backupTag O ctx srcRepo dst t includeReferrers copyOpts
                       extendedCopyOpts)).
  { intros dst t. unfold backupTag.
    destruct (negb includeReferrers).
    - apply emits_bind; [apply emits_call; apply Hcopy |].
      intros r. destruct (snd r); apply emits_ret.
    - destruct (oras_Resolve O ctx srcRepo t None) as [desc | e]; [| apply emits_ret].
      pose proof (ClosureProofs.prepareCopyOption_CopyGraphOptions O ctx srcRepo dst
                    desc extendedCopyOpts) as Hframe.
      destruct (Cp.prepareCopyOption O ctx srcRepo dst desc extendedCopyOpts)
        as [prepared [e |]]; [apply emits_ret |]. simpl in Hframe.
      apply emits_bind; [apply emits_call; apply Hext; exact Hframe |].
      intros r. destruct (snd r); [apply emits_ret |].
      destruct (registry_Referrers O ctx dst desc ""); apply emits_ret. }
  induction tags as [| t tags IH]; cbn [backupTags]; [apply emits_ret |].
  apply emits_bind.
  - unfold backupTagStep.
    apply emits_bind; [apply emits_call; apply Hother; reflexivity |].
    intros [tracked | e]; [| apply emits_ret].
    apply emits_defer; [apply Htag |]. intros r.
    apply stopTrackingDeferred_emits. apply Hother. reflexivity.
  - intros r. destruct (snd r); [apply emits_ret |].
    apply emits_bind; [apply emits_call; apply Hother; reflexivity |].
    intros [e |]; [apply emits_ret | exact IH].
Qed.

Lemma runBackup_emits (P : Event -> Prop) (O : Oracle) (cmd : Command)
  (ctx : Context) (opts : backupOptions) :
  (forall e, Cp.isEngineCall e = false -> P e) ->
  (forall e g, Cp.engineOptions e = Some g ->
               g = backupGraphOptions (concurrency opts) -> P e) ->
  emits P (runBackup O cmd ctx opts).
Proof.
  intros Hother Hengine.
  assert (Hin : forall dstRoot, emits P (runBackupIn O cmd ctx opts dstRoot)).
  { intros dstRoot. unfold runBackupIn.
    destruct (NewRepository O (repository opts)) as [srcRepo | e]; [| apply emits_ret].
    apply emits_bind; [apply emits_update; reflexivity |]. intros _.
    destruct (oci_New O dstRoot) as [dstOCI | e]; [| apply emits_ret].
    destruct (findTagsToBackup O ctx srcRepo opts) as [tags | e]; [| apply emits_ret].
    destruct (Z.of_nat (List.length tags) =? 0)%Z; [apply emits_ret |].
    apply emits_bind; [apply emits_call; apply Hother; reflexivity |].
    intros [e |]; [apply emits_ret |].
    apply emits_bind.
    - apply backupTags_emits.
      + exact Hother.
      + intros src srcRef dst dstRef. eapply Hengine; reflexivity.
      + intros src srcRef dst dstRef prepared Hframe.
        eapply Hengine; [reflexivity | exact Hframe].
    - intros [e |]; [apply emits_ret |].
      apply emits_bind.
      + apply prepareBackupOutput_emits. intros e He _ _. apply Hother. exact He.
      + intros [e |]; [apply emits_ret |].
        apply emits_call. apply Hother. reflexivity. }
  unfold runBackup.
  destruct (outputFormat_of opts =? outputFormatDir)%Z; [apply Hin |].
  destruct (outputFormat_of opts =? outputFormatTar)%Z; [| apply emits_ret].
  apply emits_bind; [apply emits_ask |].
  intros [tempDir | e]; [| apply emits_ret].
  apply emits_bind; [apply emits_update; reflexivity |]. intros _.
  apply emits_defer; [apply Hin |]. intros r.
  apply emits_bind; [| intros _; apply emits_ret].
  apply removingAll_emits. intros e. apply emits_tell. apply Hother. reflexivity.
Qed.

(** Every call [runBackup] makes into the replication engine, for every
    tag and with or without referrers, is given the concurrency of the
    command's options and the pre-copy, post-copy and skipped handlers,
    and neither a mounted handler nor a mount hint: a backup never asks
    for a blob mount. *)
Theorem runBackup_engine_options
  (O : Oracle) (cmd : Command) (ctx : Context) (opts : backupOptions) :
  emits
    (fun e =>
       forall g, Cp.engineOptions e = Some g ->
         Concurrency g = concurrency opts
         /\ PreCopy g = Some HandlerPreCopy
         /\ PostCopy g = Some HandlerPostCopy
         /\ OnCopySkipped g = Some HandlerOnCopySkipped
         /\ OnMounted g = None
         /\ MountFrom g = None)
    (runBackup O cmd ctx opts).
Proof.
  apply runBackup_emits.
  - intros e He g Hg. unfold Cp.isEngineCall in He. rewrite Hg in He. discriminate.
  - intros e g Hg -> g' Hg'. rewrite Hg in Hg'. inversion Hg'; subst.
    repeat split; reflexivity.
Qed.

Lemma removePath_gone (p : string) (w : World) :
  exists_path p (removePath p w) = false.
Proof.
  unfold exists_path, removePath. simpl.
  induction (files w) as [| q l IH]; simpl; [reflexivity |].
  destruct (q =? p) eqn:Hq; simpl; [exact IH |].
  rewrite Hq. exact IH.
Qed.

(** With a [.tar] output the staging directory is removed on every way
    out of [runBackup] once it was created, success or failure: the
    deferred [os.RemoveAll] runs after whatever [runBackup] did.  When
    that removal itself fails, the failure is logged and the result of
    the backup is what it was: the cleanup never becomes the command's
    error. *)
Theorem runBackup_removes_staging_directory
  (O : Oracle) (cmd : Command) (ctx : Context) (opts : backupOptions)
  (w : World) (tempDir : string) :
  outputFormat_of opts = outputFormatTar ->
  os_MkdirTemp O w "" "oras-backup-*" = Ok tempDir ->
  let staged := runBackupIn O cmd ctx opts tempDir (createPath tempDir w) in
  let final := runBackup O cmd ctx opts w in
  fst final = fst staged
  /\ match os_RemoveAll O (snd staged) tempDir with
     | None => exists_path tempDir (snd final) = false
     | Some _ =>
         events (snd final)
         = EvLogDebug "failed to remove temporary directory %s: %v" [tempDir]
           :: events (snd staged)
     end.
Proof.
  intros Hfmt Hmk. cbv zeta. unfold runBackup. rewrite Hfmt.
  change (outputFormatTar =? outputFormatDir)%Z with false.
  change (outputFormatTar =? outputFormatTar)%Z with true. cbv iota.
  run_go. rewrite Hmk. run_go.
  destruct (runBackupIn O cmd ctx opts tempDir (createPath tempDir w)) as [r w1].
  run_go.
  destruct (os_RemoveAll O w1 tempDir) as [e |]; run_go.
  - split; reflexivity.
  - split; [reflexivity |].
    apply BackupProofs.removeTree_gone, BackupProofs.isUnder_refl.
Qed.

(** With a directory output [prepareBackupOutput] cannot fail and only
    tidies up: it returns nil whatever [os.Stat] and [os.RemoveAll]
    answer for the ingest directory, creates no path, and reports no tar
    export. *)
Theorem prepareBackupOutput_directory_never_fails
  (O : Oracle) (ctx : Context) (dstRoot : string) (opts : backupOptions)
  (w : World) :
  outputFormat_of opts <> outputFormatTar ->
  let final := prepareBackupOutput O ctx dstRoot opts w in
  fst final = None
  /\ (forall p, In p (files (snd final)) -> In p (files w))
  /\ exists made,
       events (snd final) = made ++ events w
       /\ Forall (fun e => exists format args, e = EvLogDebug format args) made.
Proof.
  intros Hfmt. apply Z.eqb_neq in Hfmt. cbv zeta.
  unfold prepareBackupOutput. rewrite Hfmt. simpl negb. cbv iota.
  run_go.
  destruct (os_Stat O w (filepath_Join O dstRoot "ingest")) as [sz | e0];
    [destruct (os_RemoveAll O w (filepath_Join O dstRoot "ingest")) as [e1 |] |];
    run_go; (split; [reflexivity | split]).
  - auto.
  - eexists [_]. split; [reflexivity |]. repeat constructor. eauto.
  - intros p Hp. apply BackupProofs.removeTree_In in Hp. tauto.
  - exists []. split; [reflexivity | constructor].
  - auto.
  - exists []. split; [reflexivity | constructor].
Qed.

(** With a [.tar] output and every step of the finalization succeeding,
    the temporary archive has been moved away, the output path exists,
    and the export is reported with the size [os.Stat] gives for the
    output. *)
Theorem prepareBackupOutput_tar_success
  (O : Oracle) (ctx : Context) (dstRoot : string) (opts : backupOptions)
  (w : World) (tempTarPath absOutput : string) (size : Z) :
  outputFormat_of opts = outputFormatTar ->
  (forall w', OnTarExporting O w' (output opts) = None) ->
  (forall w', os_CreateTemp O w' "" "oras-backup-*.tar" = Ok tempTarPath) ->
  (forall w', TarDirectory O w' ctx tempTarPath dstRoot = None) ->
  (forall w', file_Close O w' tempTarPath = None) ->
  (if filepath_IsAbs O (output opts) then Ok (output opts)
   else filepath_Abs O (output opts)) = Ok absOutput ->
  (forall w', os_MkdirAll O w' (filepath_Dir O absOutput) = None) ->
  (forall w', os_Rename O w' tempTarPath absOutput = None) ->
  (forall w', os_Stat O w' absOutput = Ok size) ->
  (forall w', OnTarExported O w' (output opts) size = None) ->
  tempTarPath <> absOutput ->
  let final := prepareBackupOutput O ctx dstRoot opts w in
  fst final = None
  /\ exists_path absOutput (snd final) = true
  /\ exists_path tempTarPath (snd final) = false
  /\ exists earlier,
       events (snd final) = EvOnTarExported (output opts) size :: earlier.
Proof.
  intros Hfmt Hexp Htmp Htar Hclose Habs Hmk Hmv Hstat Hdone Hne.
  assert (Hmoved : forall w',
            exists_path absOutput (createPath absOutput (removePath tempTarPath w'))
            = true
            /\ exists_path tempTarPath
                 (createPath absOutput (removePath tempTarPath w')) = false).
  { intros w'. split.
    - unfold exists_path. simpl. rewrite String.eqb_refl. reflexivity.
    - unfold exists_path. simpl.
      assert (Hq : (absOutput =? tempTarPath) = false)
        by (apply String.eqb_neq; congruence).
      rewrite Hq. simpl. apply (removePath_gone tempTarPath w'). }
  cbv zeta. unfold prepareBackupOutput. rewrite Hfmt.
  change (negb (outputFormatTar =? outputFormatTar)%Z) with false.
  run_go.
  destruct (os_Stat O w (filepath_Join O dstRoot "ingest")) as [sz | e0];
    [destruct (os_RemoveAll O w (filepath_Join O dstRoot "ingest")) as [e1 |] |];
    run_go; rewrite Hexp; run_go; rewrite Htmp; run_go; rewrite Htar; run_go;
    rewrite Hclose; run_go; rewrite Habs; run_go; rewrite Hmk; run_go;
    rewrite Hmv; run_go; rewrite Hstat; run_go; rewrite Hdone;
    (split; [reflexivity |]);
    match goal with
    | |- exists_path _ (log _ (createPath _ (removePath _ ?w'))) = _ /\ _ =>
        destruct (Hmoved w') as [H1 H2]
    end;
    (split; [exact H1 | split; [exact H2 | eexists; reflexivity]]).
Qed.

(** When the closure resolver fails, no copy is attempted: the
    recursive copy returns the resolver's error, the backup of a tag
    returns it wrapped with the tag's name, and in both the world is as
    it was, the engine not having been called. *)
Theorem closure_failure_aborts_before_copy
  (O : Oracle) (ctx : Context) (src dst : Target) (root : Descriptor)
  (opts : ExtendedCopyOptions) (err : error) (dstRef tag : string)
  (copyOpts : CopyOptions) (w : World) :
  snd (Cp.prepareCopyOption O ctx src dst root opts) = Some err ->
  Cp.recursiveCopy O ctx src dst dstRef root opts w = (Some err, w)
  /\ (oras_Resolve O ctx src tag None = Ok root ->
      backupTag O ctx src dst tag true copyOpts opts w
      = ((0%Z,
          Some (Wrapf "failed to prepare extended copy options for %s: %w"
                  [tag] err)), w)).
Proof.
  intros Hprep. split.
  - unfold Cp.recursiveCopy.
    destruct (Cp.prepareCopyOption O ctx src dst root opts) as [prepared [e |]];
      simpl in Hprep; [| discriminate]. inversion Hprep; subst. reflexivity.
  - intros Hres. unfold backupTag. simpl negb. cbv iota. rewrite Hres.
    destruct (Cp.prepareCopyOption O ctx src dst root opts) as [prepared [e |]];
      simpl in Hprep; [| discriminate]. inversion Hprep; subst. reflexivity.
Qed.

End BackupExtras.

(** ** More on the parsing of the backup reference *)

Module ParseExtras.
Import GoStrings Regexp Backup StringFacts GrammarProofs.

Lemma lastIndexFrom_ge (s : string) (c : ascii) (i found : Z) :
  (found <= i)%Z -> (found <= lastIndexFrom s c i found)%Z.
Proof.
  revert i found. induction s as [| x s IH]; intros i found H; simpl.
  - lia.
  - destruct (Ascii.eqb x c).
    + specialize (IH (i + 1)%Z i). lia.
    + apply IH. lia.
Qed.

Lemma lastIndexFrom_app_present (a b : string) (c : ascii) (i found : Z) :
  (i + Z.of_nat (String.length a) <= lastIndexFrom (a ++ String c b) c i found)%Z.
Proof.
  revert i found. induction a as [| x a IH]; intros i found.
  - simpl. rewrite Ascii.eqb_refl.
    pose proof (lastIndexFrom_ge b c (i + 1) i). lia.
  - simpl String.append. simpl lastIndexFrom. simpl String.length.
    specialize (IH (i + 1)%Z (if Ascii.eqb x c then i else found)). lia.
Qed.

(** A reference [host/name] whose last path element has no colon is not
    split: a colon before the last slash, as in a registry port, does not
    start the tags. *)
Lemma splitRepoAndTags_no_tags (host name : string) :
  ContainsRune name ":"%char = false ->
  splitRepoAndTags (host ++ String "/"%char name)
  = ((host ++ String "/"%char name)%string, "").
Proof.
  intros Hcolon. unfold splitRepoAndTags, LastIndexByte.
  rewrite (lastIndexFrom_app_absent host (String "/"%char name) ":"%char 0 (-1))
    by (simpl; exact Hcolon).
  pose proof (lastIndexFrom_bound host ":"%char 0 (-1)) as Hb.
  pose proof (lastIndexFrom_app_present host name "/"%char 0 (-1)) as Hs.
  assert (Hlt : (lastIndexFrom (host ++ String "/"%char name)%string "/"%char 0 (-1)
                 <? lastIndexFrom host ":"%char 0 (-1))%Z = false)
    by (apply Z.ltb_ge; lia).
  rewrite Hlt, andb_false_r. reflexivity.
Qed.

(** A reference without a tag part gives the repository and no tags,
    and the registry is asked later: the colon of a registry port is not
    taken for the start of the tags, and neither is a colon with nothing
    after it. *)
Theorem parseArtifactsToBackup_without_tags
  (O : Oracle) (host name : string) (parsedRepo : Reference) :
  ContainsRune host "@"%char = false ->
  ContainsRune name "@"%char = false ->
  ContainsRune name ":"%char = false ->
  ContainsRune name "/"%char = false ->
  ParseReference O (host ++ String "/"%char name) = Ok parsedRepo ->
  parseArtifactsToBackup O (host ++ String "/"%char name)
  = (Reference_String O parsedRepo, [], None)
  /\ parseArtifactsToBackup O ((host ++ String "/"%char name) ++ ":")
     = (Reference_String O parsedRepo, [], None).
Proof.
  intros Hat1 Hat2 Hcolon Hslash Hparse. split.
  - unfold parseArtifactsToBackup.
    assert (Hne : ((host ++ String "/"%char name)%string =? "") = false)
      by (destruct host; reflexivity).
    rewrite Hne, ContainsRune_app. simpl ContainsRune.
    rewrite Hat1, Hat2. simpl orb. cbv iota.
    rewrite (splitRepoAndTags_no_tags host name Hcolon), Hparse. reflexivity.
  - unfold parseArtifactsToBackup.
    rewrite append_colon_nonempty, !ContainsRune_app. simpl ContainsRune.
    rewrite Hat1, Hat2. simpl orb. cbv iota.
    rewrite (splitRepoAndTags_at_colon (host ++ String "/"%char name) ""
               eq_refl eq_refl), Hparse.
    reflexivity.
Qed.


(** The repository is validated before the tags: when
    [registry.ParseReference] rejects the part before the tags, the
    error names that part and wraps the registry's error, whether or not
    the tags are valid. *)
Theorem parseArtifactsToBackup_invalid_repository
  (O : Oracle) (repo tagsPart : string) (err : error) :
  ContainsRune repo "@"%char = false ->
  ContainsRune tagsPart "@"%char = false ->
  ContainsRune tagsPart ":"%char = false ->
  ContainsRune tagsPart "/"%char = false ->
  ParseReference O repo = Err err ->
  parseArtifactsToBackup O (repo ++ String ":"%char tagsPart)
  = ("", [], Some (Wrapf "invalid repository %q: %w" [repo] err)).
Proof.
  intros Hat1 Hat2 Hcolon Hslash Hparse. unfold parseArtifactsToBackup.
  rewrite append_colon_nonempty, ContainsRune_app. simpl ContainsRune.
  rewrite Hat1, Hat2. simpl orb. cbv iota.
  rewrite (splitRepoAndTags_at_colon repo tagsPart Hcolon Hslash), Hparse.
  reflexivity.
Qed.

Lemma validateTags_sound (artifactRefs repository : string)
  (tagList tags : list string) (repo' : string) (tags' : list string) :
  validateTags artifactRefs repository tagList tags = (repo', tags', None) ->
  repo' = repository
  /\ exists added,
       tags' = tags ++ added
       /\ Forall (fun t => MatchString tagRegexp t = true) added.
Proof.
  revert tags. induction tagList as [| seg rest IH]; intros tags H.
  - simpl in H. inversion H; subst. split; [reflexivity |].
    exists []. rewrite app_nil_r. split; [reflexivity | constructor].
  - simpl in H.
    destruct (TrimSpace seg =? ""); [apply IH; exact H |].
    destruct (MatchString tagRegexp (TrimSpace seg)) eqn:Hm; simpl in H;
      [| discriminate H].
    destruct (IH _ H) as (Hrepo & added & Htags & Hall).
    split; [exact Hrepo |].
    exists (TrimSpace seg :: added). split.
    + rewrite Htags, <- app_assoc. reflexivity.
    + constructor; assumption.
Qed.

(** Whatever the input, what [parseArtifactsToBackup] returns without
    an error is sound: every tag matches [tagRegexp], so it is not empty,
    is at most 128 bytes long and is made of word characters, dots and
    dashes only, and the repository is the string form of a reference
    that [registry.ParseReference] accepted. *)
Theorem parseArtifactsToBackup_sound
  (O : Oracle) (artifactRefs repository : string) (tags : list string) :
  parseArtifactsToBackup O artifactRefs = (repository, tags, None) ->
  Forall (fun t => MatchString tagRegexp t = true
                   /\ 1 <= String.length t <= 128
                   /\ allBytes isWordDotDash t = true) tags
  /\ exists repoParts parsedRepo,
       ParseReference O repoParts = Ok parsedRepo
       /\ repository = Reference_String O parsedRepo.
Proof.
  unfold parseArtifactsToBackup.
  destruct (artifactRefs =? ""); [discriminate |].
  destruct (ContainsRune artifactRefs "@"%char); [discriminate |].
  destruct (splitRepoAndTags artifactRefs) as [repoParts tagsPart].
  destruct (ParseReference O repoParts) as [parsedRepo | e] eqn:Hparse;
    [| discriminate].
  assert (Hshape : forall t, MatchString tagRegexp t = true ->
            MatchString tagRegexp t = true
            /\ 1 <= String.length t <= 128
            /\ allBytes isWordDotDash t = true).
  { intros t Ht. split; [exact Ht |].
    pose proof Ht as Hwf. rewrite MatchString_tagRegexp in Hwf.
    split; [| apply wellFormedTag_allBytes; exact Hwf].
    destruct t as [| c rest]; [discriminate Hwf |].
    simpl in Hwf |- *. rewrite !andb_true_iff in Hwf.
    destruct Hwf as (_ & Hlen & _). apply Nat.leb_le in Hlen. lia. }
  destruct (tagsPart =? "").
  - intros H. inversion H; subst. split; [constructor | eauto].
  - intros H.
    destruct (validateTags_sound _ _ _ [] _ _ H)
      as (Hrepo & added & Htags & Hall).
    simpl in Htags. subst. split; [| eauto].
    eapply Forall_impl; [exact Hshape | exact Hall].
Qed.

(** [tagRegexp] accepts exactly the strings made of one word character
    followed by word characters, dots and dashes, 128 bytes at most in
    all. *)
Theorem tagRegexp_accepts_iff (tag : string) :
  MatchString tagRegexp tag = true
  <-> exists c rest,
        tag = String c rest
        /\ isWord c = true
        /\ allBytes isWordDotDash rest = true
        /\ String.length tag <= 128.
Proof.
  rewrite MatchString_tagRegexp. split.
  - destruct tag as [| c rest]; [discriminate |]. simpl.
    rewrite !andb_true_iff, Nat.leb_le. intros (Hc & Hlen & Hrest).
    exists c, rest. repeat split; auto. simpl. lia.
  - intros (c & rest & -> & Hc & Hrest & Hlen). simpl in *.
    rewrite Hc, Hrest. simpl. rewrite andb_true_r. apply Nat.leb_le. lia.
Qed.

Lemma list_ascii_app (a b : string) :
  list_ascii_of_string (a ++ b)
  = (list_ascii_of_string a ++ list_ascii_of_string b)%list.
Proof. induction a as [| x a IH]; simpl; [reflexivity | rewrite IH; reflexivity]. Qed.

Lemma string_of_list_app (l1 l2 : list ascii) :
  string_of_list_ascii (l1 ++ l2)
  = (string_of_list_ascii l1 ++ string_of_list_ascii l2)%string.
Proof. induction l1 as [| x l IH]; simpl; [reflexivity | rewrite IH; reflexivity]. Qed.

Lemma reverse_app (a b : string) :
  reverse (a ++ b) = (reverse b ++ reverse a)%string.
Proof.
  unfold reverse. rewrite list_ascii_app, rev_app_distr, string_of_list_app.
  reflexivity.
Qed.

Lemma reverse_involutive (s : string) : reverse (reverse s) = s.
Proof.
  unfold reverse.
  rewrite list_ascii_of_string_of_list_ascii, rev_involutive,
    string_of_list_ascii_of_string.
  reflexivity.
Qed.

Lemma HasPrefix_spec (s prefix : string) :
  HasPrefix s prefix = true <-> exists rest, s = (prefix ++ rest)%string.
Proof.
  revert s. induction prefix as [| p prefix IH]; intros s; simpl.
  - split; [intros _; exists s; reflexivity | intros _; destruct s; reflexivity].
  - destruct s as [| c s]; simpl.
    + split; [discriminate | intros (rest & H); discriminate H].
    + rewrite andb_true_iff, IH. split.
      * intros [Hc (rest & ->)]. apply Ascii.eqb_eq in Hc. subst.
        exists rest. reflexivity.
      * intros (rest & H). inversion H; subst. split.
        -- apply Ascii.eqb_refl.
        -- exists rest. reflexivity.
Qed.

Lemma HasSuffix_spec (s suffix : string) :
  HasSuffix s suffix = true <-> exists front, s = (front ++ suffix)%string.
Proof.
  unfold HasSuffix. rewrite HasPrefix_spec. split.
  - intros (rest & H). exists (reverse rest).
    rewrite <- (reverse_involutive s), H, reverse_app, reverse_involutive.
    reflexivity.
  - intros (front & ->). exists (reverse front). apply reverse_app.
Qed.

(** When the arguments parse, [PreRunE] keeps the flags, takes the
    repository and the tags from the reference, and chooses the output
    format by the end of the output path alone: the tar format exactly
    when the path ends in [.tar], the directory format otherwise. *)
Theorem backupCmd_PreRunE_output_format
  (O : Oracle) (opts : backupOptions) (arg0 : string)
  (repo : string) (tgs : list string) :
  option_Parse O = None ->
  parseArtifactsToBackup O arg0 = (repo, tgs, None) ->
  let opts' := fst (backupCmd_PreRunE O opts arg0) in
  snd (backupCmd_PreRunE O opts arg0) = None
  /\ (outputFormat_of opts' = outputFormatTar
      <-> exists front, output opts = (front ++ ".tar")%string)
  /\ (outputFormat_of opts' = outputFormatDir
      <-> ~ exists front, output opts = (front ++ ".tar")%string)
  /\ output opts' = output opts
  /\ includeReferrers opts' = includeReferrers opts
  /\ concurrency opts' = concurrency opts
  /\ repository opts' = repo
  /\ tags opts' = tgs.
Proof.
  intros Hopt Hparse. cbv zeta. unfold backupCmd_PreRunE.
  rewrite Hopt, Hparse. simpl.
  pose proof (HasSuffix_spec (output opts) ".tar") as Hspec.
  destruct (HasSuffix (output opts) ".tar").
  - repeat split; try reflexivity.
    + intros _. apply Hspec. reflexivity.
    + discriminate.
    + intros Hno. exfalso. apply Hno. apply Hspec. reflexivity.
  - repeat split; try reflexivity.
    + discriminate.
    + intros H. apply Hspec in H. discriminate H.
    + intros _ H. apply Hspec in H. discriminate H.
Qed.

End ParseExtras.

(** ** The copy command *)

Module CommandExtras.
Import GoStrings CopyCommand.

(** Splits a membership in a literal list into its cases. *)
Ltac in_cases H :=
  simpl in H;
  repeat match type of H with
         | _ \/ _ => destruct H as [H | H]
         | False => contradiction
         end.

Lemma JoinComma_cons (h : string) (t : list string) :
  t <> [] -> JoinComma (h :: t) = (h ++ String ","%char (JoinComma t))%string.
Proof. destruct t; [contradiction | reflexivity]. Qed.

Lemma JoinComma_Split (s : string) : JoinComma (Split s ","%char) = s.
Proof.
  induction s as [| c s IH]; [reflexivity |].
  simpl Split. destruct (Ascii.eqb_spec c ","%char) as [-> | Hc].
  - destruct (StringFacts.Split_nonempty s ","%char) as (h & t & Hs).
    rewrite JoinComma_cons by (rewrite Hs; discriminate).
    rewrite IH. reflexivity.
  - destruct (Split s ","%char) as [| h t] eqn:Hs.
    + destruct (StringFacts.Split_nonempty s ","%char) as (h & t & H).
      congruence.
    + destruct t as [| h2 t].
      * simpl in *. rewrite IH. reflexivity.
      * change (JoinComma (String c h :: h2 :: t))
          with (String c (h ++ String ","%char (JoinComma (h2 :: t))))%string.
        change (JoinComma (h :: h2 :: t))
          with (h ++ String ","%char (JoinComma (h2 :: t)))%string in IH.
        rewrite IH. reflexivity.
Qed.

Lemma Split_no_separator (s : string) :
  Forall (fun r => ContainsRune r ","%char = false) (Split s ","%char).
Proof.
  induction s as [| c s IH]; simpl.
  - repeat constructor.
  - destruct (Ascii.eqb c ","%char) eqn:Hc.
    + constructor; [reflexivity | exact IH].
    + destruct (Split s ","%char) as [| h t].
      * repeat constructor. simpl. rewrite Hc. reflexivity.
      * inversion IH; subst. constructor; [| assumption].
        simpl. rewrite Hc. assumption.
Qed.

(** The copy command loses nothing of its second argument: the
    destination reference and the extra references, joined by commas,
    are the argument again, and none of them holds a comma.  Empty
    segments are kept as references, and nothing is trimmed. *)
Theorem splitDestination_round_trip (arg1 : string) :
  let (ref0, extra) := splitDestination arg1 in
  JoinComma (ref0 :: extra) = arg1
  /\ Forall (fun r => ContainsRune r ","%char = false) (ref0 :: extra).
Proof.
  unfold splitDestination.
  pose proof (JoinComma_Split arg1) as Hjoin.
  pose proof (Split_no_separator arg1) as Hsep.
  destruct (Split arg1 ","%char) as [| ref0 extra].
  - destruct (StringFacts.Split_nonempty arg1 ","%char) as (h & t & H).
    split; [exact Hjoin | repeat constructor].
  - split; assumption.
Qed.

(** [runCopy] tags the extra references after the copy and its report
    have succeeded, and only then: any call of [oras.TagN] is made on
    the destination, from the destination reference, to all the extra
    references at once and with the command's concurrency, after a
    successful copy and report; when the copy fails its error is returned
    and nothing is reported, tagged or rendered; and when copy and
    report succeed, the call is made, once, exactly when there are extra
    references: then its error ends the command before the rendering,
    and otherwise the result is that of the rendering. *)
Theorem runCopy_tags_only_after_copy
  (O : Oracle) (C : CommandOracle) (ctx : Context) (opts : runCopyOptions)
  (w : World) :
  let run := runCopy O C ctx opts w in
  (forall dst srcRef refs n,
     In (StepTagN dst srcRef refs n) (snd (fst run)) ->
     refs = extraRefs opts /\ refs <> []
     /\ srcRef = Cp.To_Reference (copyOpts opts)
     /\ n = Cp.concurrency (copyOpts opts)
     /\ NewTarget C = Ok dst
     /\ exists src copied,
          NewReadonlyTarget C = Ok src
          /\ Cp.doCopy O (ctxWithScopeHint ctx) src dst (copyOpts opts) w
             = (fst copied, None, snd copied)
          /\ OnCopied C (snd copied)
               (correctedRawReference C opts (fst copied)) (fst copied) = None)
  /\ (forall src dst err,
        NewReadonlyTarget C = Ok src ->
        EnsureSourceTargetReferenceNotEmpty C = None ->
        NewTarget C = Ok dst ->
        snd (fst (Cp.doCopy O (ctxWithScopeHint ctx) src dst (copyOpts opts) w))
        = Some err ->
        fst run = (Some err, []))
  /\ (forall src dst desc w1,
        NewReadonlyTarget C = Ok src ->
        EnsureSourceTargetReferenceNotEmpty C = None ->
        NewTarget C = Ok dst ->
        Cp.doCopy O (ctxWithScopeHint ctx) src dst (copyOpts opts) w
        = ((desc, None), w1) ->
        OnCopied C w1 (correctedRawReference C opts desc) desc = None ->
        let copied := StepOnCopied (correctedRawReference C opts desc) desc in
        let tagged :=
          StepTagN dst (Cp.To_Reference (copyOpts opts)) (extraRefs opts)
            (Cp.concurrency (copyOpts opts)) in
        (extraRefs opts <> [] ->
         match oras_TagN C w1 (ctxWithScopeHint ctx) dst
                 (Cp.To_Reference (copyOpts opts)) (extraRefs opts)
                 (Cp.concurrency (copyOpts opts)) with
         | Some err => fst run = (Some err, [copied; tagged])
         | None => fst run = (Render C w1, [copied; tagged; StepRender])
         end)
        /\ (extraRefs opts = [] ->
            fst run = (Render C w1, [copied; StepRender]))).
Proof.
  cbv zeta. unfold runCopy. split; [| split].
  - intros dst srcRef refs n.
    destruct (NewReadonlyTarget C) as [src | e] eqn:Hsrc; [| intros []].
    destruct (EnsureSourceTargetReferenceNotEmpty C) as [e |]; [intros [] |].
    destruct (NewTarget C) as [dst0 | e] eqn:Hdst; [| intros []].
    run_go.
    destruct (Cp.doCopy O (ctxWithScopeHint ctx) src dst0 (copyOpts opts) w)
      as [[desc [e |]] w1] eqn:Hcopy; run_go; [intros [] |].
    destruct (OnCopied C w1 (correctedRawReference C opts desc) desc) as [e |] eqn:Hrep;
      run_go; [intros Hin; in_cases Hin; discriminate Hin |].
    destruct (extraRefs opts) as [| r rs] eqn:Hextra;
      [change (negb (List.length (@nil string) =? 0)%nat) with false
      | change (negb (List.length (r :: rs) =? 0)%nat) with true];
      cbv iota; run_go.
    + intros Hin; in_cases Hin; discriminate Hin.
    + destruct (oras_TagN C w1 (ctxWithScopeHint ctx) dst0
                  (Cp.To_Reference (copyOpts opts)) (r :: rs)
                  (Cp.concurrency (copyOpts opts))) as [e |]; run_go;
        intros Hin; in_cases Hin; try discriminate Hin;
        (inversion Hin; subst; repeat split; try reflexivity; try discriminate;
         exists src, (desc, w1); repeat split; assumption).
  - intros src dst err Hsrc Hens Hdst Hcopy.
    rewrite Hsrc, Hens, Hdst. run_go.
    destruct (Cp.doCopy O (ctxWithScopeHint ctx) src dst (copyOpts opts) w)
      as [[desc e] w1]. simpl in Hcopy. subst. reflexivity.
  - intros src dst desc w1 Hsrc Hens Hdst Hcopy Hrep.
    rewrite Hsrc, Hens, Hdst. run_go. rewrite Hcopy. run_go. rewrite Hrep.
    split.
    + intros Hne.
      destruct (extraRefs opts) as [| r rs]; [contradiction |].
      change (negb (List.length (r :: rs) =? 0)%nat) with true. cbv iota.
      run_go.
      destruct (oras_TagN C w1 (ctxWithScopeHint ctx) dst
                  (Cp.To_Reference (copyOpts opts)) (r :: rs)
                  (Cp.concurrency (copyOpts opts))) as [e |]; reflexivity.
    + intros ->. reflexivity.
Qed.

End CommandExtras.

(** ** More scripted runs *)

Module ExtraRuns.
Import GoStrings Regexp Backup Script ScriptExtras.

(** A failing fetch of the index: the error comes back as it is and the
    options are the ones given. *)
Lemma error_is_collaborators_run :
  fst (Cp.prepareCopyOption failingFetch ctxBackground srcRepo dstSameHost rootAaa
         (lookupOptions failingFetch))
  = lookupOptions failingFetch
  /\ FetchAll failingFetch ctxBackground srcRepo rootAaa = Err fetchFailed.
Proof.
  destruct (ClosureExtras.prepareCopyOption_error_is_collaborators failingFetch
              ctxBackground srcRepo dstSameHost rootAaa (lookupOptions failingFetch)
              fetchFailed eq_refl) as (Hopts & _ & _).
  split; [exact Hopts | reflexivity].
Defined.

(** The referrers [ddd], [eee] found in two orders: asked for the
    root, the two lookups answer with [ddd; eee] and with [eee; ddd]. *)
Lemma order_independent_run :
  callPredecessors
    (ECO_FindPredecessors
       (fst (Cp.prepareCopyOption referrersOneWay ctxBackground srcRepo
               dstSameHost rootAaa (lookupOptions (scripted quiet)))))
    ctxBackground srcRepo rootAaa
  = Returns ([referrerDdd; referrerEee], None)
  /\ callPredecessors
       (ECO_FindPredecessors
          (fst (Cp.prepareCopyOption referrersOtherWay ctxBackground srcRepo
                  dstSameHost rootAaa (lookupOptions (scripted quiet)))))
       ctxBackground srcRepo rootAaa
     = Returns ([referrerEee; referrerDdd], None)
  /\ Permutation [referrerDdd; referrerEee] [referrerEee; referrerDdd].
Proof.
  assert (Hperm : Permutation [referrerDdd; rootAaaAnnotated; referrerEee]
                    [referrerEee; referrerDdd; rootAaaAnnotated]).
  { apply Permutation_sym.
    apply (Permutation_cons_app [referrerDdd; rootAaaAnnotated] [] referrerEee).
    rewrite app_nil_r. apply Permutation_refl. }
  assert (Hne : Manifests scriptedIndex <> []) by discriminate.
  pose proof (ClosureExtras.prepareCopyOption_order_independent referrersOneWay
                referrersOtherWay ctxBackground srcRepo dstSameHost rootAaa
                (lookupOptions (scripted quiet)) "index bytes" scriptedIndex
                [referrerDdd; rootAaaAnnotated; referrerEee]
                [referrerEee; referrerDdd; rootAaaAnnotated]
                (or_introl eq_refl) eq_refl eq_refl eq_refl eq_refl
                Hne
                eq_refl eq_refl Hperm ctxBackground srcRepo rootAaa) as Hrun.
  change (@None error = None
          /\ Permutation ([] ++ [referrerDdd; referrerEee])
               ([] ++ [referrerEee; referrerDdd])) in Hrun.
  split; [reflexivity | split; [reflexivity | exact (proj2 Hrun)]].
Defined.

(** A plain copy to the reference [v1], and one with no destination
    reference. *)
Lemma plain_modes_run :
  events (snd (Cp.doCopyTracked (scripted quiet) ctxBackground srcRepo dstOtherHost
                 (plainCopyTo "v1") DefaultExtendedCopyOptions emptyWorld))
  = [EvCopy srcRepo "v1" dstOtherHost "v1"
       {| CO_CopyGraphOptions :=
            ECO_CopyGraphOptions (Cp.withStatusHandlers DefaultExtendedCopyOptions);
          CO_TargetPlatform := Some "linux/arm/v5" |}]
  /\ events (snd (Cp.doCopyTracked (scripted quiet) ctxBackground srcRepo
                    dstOtherHost (plainCopyTo "") DefaultExtendedCopyOptions
                    emptyWorld))
     = [EvCopyGraph srcRepo dstOtherHost rootAaa
          (ECO_CopyGraphOptions (Cp.withStatusHandlers DefaultExtendedCopyOptions))].
Proof.
  destruct (CopyExtras.doCopyTracked_plain_modes (scripted quiet) ctxBackground
              srcRepo dstOtherHost (plainCopyTo "v1") DefaultExtendedCopyOptions
              emptyWorld eq_refl) as [_ Htag].
  destruct (CopyExtras.doCopyTracked_plain_modes (scripted quiet) ctxBackground
              srcRepo dstOtherHost (plainCopyTo "") DefaultExtendedCopyOptions
              emptyWorld eq_refl) as [Hgraph _].
  split.
  - rewrite Htag; [reflexivity | discriminate].
  - specialize (Hgraph eq_refl). simpl in Hgraph. rewrite Hgraph. reflexivity.
Defined.

(** A failing push in the backup of [v1]: the error is the push error,
    wrapped with the tag. *)
Lemma error_names_tag_run :
  fst (backupTag failingCopy ctxBackground srcRepo (OCIStore "out") "v1" false
         plainCopyOptions DefaultExtendedCopyOptions emptyWorld)
  = (0%Z, Some (Wrapf "failed to copy ref %s: %w" ["v1"] pushFailed))
  /\ In "v1" (names (Wrapf "failed to copy ref %s: %w" ["v1"] pushFailed))
  /\ exists cause,
       snd (oras_Copy failingCopy emptyWorld ctxBackground srcRepo "v1"
              (OCIStore "out") "v1" plainCopyOptions) = Some cause
       /\ Wrapf "failed to copy ref %s: %w" ["v1"] pushFailed
          = Wrapf "failed to copy ref %s: %w" ["v1"] cause.
Proof.
  destruct (BackupExtras.backupTag_error_names_tag failingCopy ctxBackground srcRepo
              (OCIStore "out") "v1" false plainCopyOptions DefaultExtendedCopyOptions
              emptyWorld (Wrapf "failed to copy ref %s: %w" ["v1"] pushFailed)
              eq_refl) as (_ & Hin & Hcause).
  split; [reflexivity | split; [exact Hin |]].
  destruct Hcause as [[_ H] | [[H _] | [[H _] | [[H _] | [H _]]]]];
    [exact H | discriminate H ..].
Defined.

Lemma failingCopy_step_fails (t : string) (w' : World) :
  snd (fst (backupTagStep failingCopy ctxBackground srcRepo (OCIStore "out") t
              false plainCopyOptions DefaultExtendedCopyOptions w')) <> None.
Proof. discriminate. Qed.

(** With a failing push, the tags after [v1] are never looked at. *)
Lemma stops_at_failing_tag_run :
  backupTags failingCopy ctxBackground srcRepo (OCIStore "out") false
    plainCopyOptions DefaultExtendedCopyOptions ([] ++ "v1" :: ["v2"; "v3"])
    emptyWorld
  = backupTags failingCopy ctxBackground srcRepo (OCIStore "out") false
      plainCopyOptions DefaultExtendedCopyOptions ([] ++ ["v1"]) emptyWorld.
Proof.
  apply (BackupExtras.backupTags_stops_at_failing_tag failingCopy ctxBackground
           srcRepo (OCIStore "out") false plainCopyOptions
           DefaultExtendedCopyOptions [] ["v2"; "v3"] "v1" emptyWorld).
  apply failingCopy_step_fails.
Defined.

(** The staging directory of a tar backup is gone at the end, also when
    the archive could not be written. *)
Lemma removes_staging_directory_run :
  exists_path "/tmp/oras-backup-1"
    (snd (runBackup failingTar backupCommand ctxBackground
            (fst (backupCmd_PreRunE failingTar tarBackup "localhost:5000/hello:v1"))
            emptyWorld))
  = false.
Proof.
  destruct (BackupExtras.runBackup_removes_staging_directory failingTar
              backupCommand ctxBackground
              (fst (backupCmd_PreRunE failingTar tarBackup "localhost:5000/hello:v1"))
              emptyWorld "/tmp/oras-backup-1" eq_refl eq_refl) as [_ H].
  exact H.
Defined.

(** A directory backup finalizes without error. *)
Lemma directory_never_fails_run :
  fst (prepareBackupOutput (scripted quiet) ctxBackground "hello" dirBackup
         emptyWorld)
  = None.
Proof.
  destruct (BackupExtras.prepareBackupOutput_directory_never_fails (scripted quiet)
              ctxBackground "hello" dirBackup emptyWorld) as [H _].
  - discriminate.
  - exact H.
Defined.

(** A successful tar export to [hello.tar]. *)
Lemma tar_success_run :
  exists_path "/work/hello.tar"
    (snd (prepareBackupOutput (scripted quiet) ctxBackground "/tmp/oras-backup-1"
            tarBackup emptyWorld)) = true
  /\ exists_path "/tmp/oras-backup-2.tar"
       (snd (prepareBackupOutput (scripted quiet) ctxBackground "/tmp/oras-backup-1"
               tarBackup emptyWorld)) = false.
Proof.
  destruct (BackupExtras.prepareBackupOutput_tar_success (scripted quiet)
              ctxBackground "/tmp/oras-backup-1" tarBackup emptyWorld
              "/tmp/oras-backup-2.tar" "/work/hello.tar" 2048%Z)
    as (_ & Hout & Htmp & _);
    try (intros; reflexivity); try reflexivity; try discriminate.
  split; assumption.
Defined.

(** A failing fetch of the index ends the recursive copy and the backup
    of the tag before any copy. *)
Lemma closure_failure_run :
  Cp.recursiveCopy failingFetch ctxBackground srcRepo dstOtherHost "v1" rootAaa
    (lookupOptions failingFetch) emptyWorld
  = (Some fetchFailed, emptyWorld)
  /\ backupTag failingFetch ctxBackground srcRepo (OCIStore "out") "v1" true
       plainCopyOptions DefaultExtendedCopyOptions emptyWorld
     = ((0%Z,
         Some (Wrapf "failed to prepare extended copy options for %s: %w"
                 ["v1"] fetchFailed)), emptyWorld).
Proof.
  destruct (BackupExtras.closure_failure_aborts_before_copy failingFetch
              ctxBackground srcRepo dstOtherHost rootAaa (lookupOptions failingFetch)
              fetchFailed "v1" "v1" plainCopyOptions emptyWorld eq_refl)
    as [Hcopy _].
  destruct (BackupExtras.closure_failure_aborts_before_copy failingFetch
              ctxBackground srcRepo (OCIStore "out") rootAaa
              DefaultExtendedCopyOptions fetchFailed "v1" "v1" plainCopyOptions
              emptyWorld eq_refl) as [_ Htag].
  split; [exact Hcopy | apply Htag; reflexivity].
Defined.

(** The reference [localhost:5000/hello], with and without a colon at
    its end. *)
Lemma without_tags_run :
  parseArtifactsToBackup (scripted quiet) "localhost:5000/hello"
  = ("localhost:5000/hello", [], None)
  /\ parseArtifactsToBackup (scripted quiet) "localhost:5000/hello:"
     = ("localhost:5000/hello", [], None).
Proof.
  apply (ParseExtras.parseArtifactsToBackup_without_tags (scripted quiet)
           "localhost:5000" "hello" helloRepo); reflexivity.
Defined.

(** A repository without a registry, with tags. *)
Lemma invalid_repository_run :
  parseArtifactsToBackup (scripted quiet) "hello:v1,-bad"
  = ("", [],
     Some (Wrapf "invalid repository %q: %w" ["hello"]
             (ErrExternal "invalid reference: missing registry or repository"))).
Proof.
  apply (ParseExtras.parseArtifactsToBackup_invalid_repository (scripted quiet)
           "hello" "v1,-bad"); reflexivity.
Defined.

(** The tags of [localhost:5000/hello: v1 ,v2]. *)
Lemma sound_run :
  Forall (fun t => MatchString tagRegexp t = true
                   /\ 1 <= String.length t <= 128
                   /\ allBytes isWordDotDash t = true) ["v1"; "v2"].
Proof.
  destruct (ParseExtras.parseArtifactsToBackup_sound (scripted quiet)
              "localhost:5000/hello: v1 ,v2" "localhost:5000/hello" ["v1"; "v2"]
              eq_refl) as [H _].
  exact H.
Defined.

(** The outputs [hello.tar] and [hello]. *)
Lemma output_format_run :
  outputFormat_of (fst (backupCmd_PreRunE (scripted quiet) tarBackup
                          "localhost:5000/hello:v1")) = outputFormatTar
  /\ outputFormat_of (fst (backupCmd_PreRunE (scripted quiet) dirBackup
                             "localhost:5000/hello:v1")) = outputFormatDir.
Proof.
  destruct (ParseExtras.backupCmd_PreRunE_output_format (scripted quiet) tarBackup
              "localhost:5000/hello:v1" "localhost:5000/hello" ["v1"]
              eq_refl eq_refl) as (_ & Htar & _).
  destruct (ParseExtras.backupCmd_PreRunE_output_format (scripted quiet) dirBackup
              "localhost:5000/hello:v1" "localhost:5000/hello" ["v1"]
              eq_refl eq_refl) as (_ & _ & Hdir & _).
  split.
  - apply Htar. exists "hello". reflexivity.
  - apply Hdir. intros (front & H).
    destruct front as [| a [| b [| c [| d [| e [| f rest]]]]]]; discriminate H.
Defined.

(** A copy to [v1] with the extra references [v2] and [v3]: one report,
    one call of [oras.TagN] for both, then the rendering. *)
Lemma tags_after_copy_run :
  fst (CopyCommand.runCopy (scripted quiet) quietCommand ctxBackground
         copyWithExtraTags emptyWorld)
  = (None,
     [CopyCommand.StepOnCopied "localhost:5000/hello:v1" zeroDescriptor;
      CopyCommand.StepTagN dstOtherHost "v1" ["v2"; "v3"] 3;
      CopyCommand.StepRender]).
Proof.
  assert (Hne : CopyCommand.extraRefs copyWithExtraTags <> []) by discriminate.
  destruct (CommandExtras.runCopy_tags_only_after_copy (scripted quiet)
              quietCommand ctxBackground copyWithExtraTags emptyWorld)
    as (_ & _ & Hmade).
  destruct (Hmade srcRepo dstOtherHost zeroDescriptor
              (snd (Cp.doCopy (scripted quiet) (ctxWithScopeHint ctxBackground)
                      srcRepo dstOtherHost (plainCopyTo "v1") emptyWorld))
              eq_refl eq_refl eq_refl eq_refl eq_refl) as [Htag _].
  exact (Htag Hne).
Defined.

End ExtraRuns.

(** ** A failed tag and the finalization *)

Module FinalizeExtras.
Import Backup Trace TraceFacts Script ScriptExtras.





End FinalizeExtras.

(** ** The lookup a backup hands to the engine *)

Module LookupExtras.
Import Backup Trace TraceFacts Script ScriptExtras.

Lemma prepareCopyOption_without_lookup (O : Oracle) (ctx : Context)
  (src dst : Target) (root : Descriptor) (opts : ExtendedCopyOptions) :
  ECO_FindPredecessors opts = None ->
  noLookupOrPanics (fst (Cp.prepareCopyOption O ctx src dst root opts)).
Proof.
  intros Hnone. unfold Cp.prepareCopyOption.
  destruct (negb (MediaType root =? MediaTypeImageIndex)
            && negb (MediaType root =? MediaTypeManifestList));
    [left; exact Hnone |].
  destruct (FetchAll O ctx src root) as [fetched | e]; [| left; exact Hnone].
  destruct (UnmarshalIndex O fetched) as [index | e]; [| left; exact Hnone].
  destruct (List.length (Manifests index) =? 0)%nat; [left; exact Hnone |].
  destruct (graph_FindPredecessors O ctx src (Manifests index) opts)
    as [referrers | e]; [| left; exact Hnone].
  cbv zeta.
  destruct (List.length
              (Cp.DeleteFunc referrers (fun desc => Equal desc root)) =? 0)%nat;
    [left; exact Hnone |].
  right. eexists. split; [reflexivity |].
  intros qctx qsrc d. unfold Cp.augmentedPredecessors. rewrite Hnone. reflexivity.
Qed.

Lemma backupTags_lookup (O : Oracle) (ctx : Context)
  (srcRepo dstOCI : Target) (includeReferrers : bool) (copyOpts : CopyOptions)
  (extendedCopyOpts : ExtendedCopyOptions) (tags : list string) :
  ECO_FindPredecessors extendedCopyOpts = None ->
  emits (fun e => forall src srcRef dst dstRef o,
           e = EvExtendedCopy src srcRef dst dstRef o -> noLookupOrPanics o)
        (backupTags O ctx srcRepo dstOCI includeReferrers copyOpts
           extendedCopyOpts tags).
Proof.
  intros Hnone.
  assert (Htag : forall dst t,
            emits (fun e => forall src srcRef dst dstRef o,
                     e = EvExtendedCopy src srcRef dst dstRef o ->
                     noLookupOrPanics o)
                  (backupTag O ctx srcRepo dst t includeReferrers copyOpts
                     extendedCopyOpts)).
  { intros dst t. unfold backupTag.
    destruct (negb includeReferrers).
    - apply emits_bind; [apply emits_call; discriminate |].
      intros r. destruct (snd r); apply emits_ret.
    - destruct (oras_Resolve O ctx srcRepo t None) as [desc | e];
        [| apply emits_ret].
      pose proof (prepareCopyOption_without_lookup O ctx srcRepo dst desc
                    extendedCopyOpts Hnone) as Hprepared.
      destruct (Cp.prepareCopyOption O ctx srcRepo dst desc extendedCopyOpts)
        as [prepared [e |]]; [apply emits_ret |]. simpl in Hprepared.
      apply emits_bind.
      + apply emits_call. intros src srcRef dst' dstRef o Ho.
        inversion Ho; subst. exact Hprepared.
      + intros r. destruct (snd r); [apply emits_ret |].
        destruct (registry_Referrers O ctx dst desc ""); apply emits_ret. }
  induction tags as [| t tags IH]; cbn [backupTags]; [apply emits_ret |].
  apply emits_bind.
  - unfold backupTagStep.
    apply emits_bind; [apply emits_call; discriminate |].
    intros [tracked | e]; [| apply emits_ret].
    apply emits_defer; [apply Htag |]. intros r.
    apply stopTrackingDeferred_emits. discriminate.
  - intros r. destruct (snd r); [apply emits_ret |].
    apply emits_bind; [apply emits_call; discriminate |].
    intros [e |]; [apply emits_ret | exact IH].
Qed.

(** [runBackup] builds its options without a predecessor lookup, so the
    closure resolver wraps the nil lookup: every extended copy of a
    backup is handed either no lookup, or one that does not return
    whatever it is asked, as the call of the nil lookup inside it
    panics. *)
Theorem runBackup_lookup_never_returns
  (O : Oracle) (cmd : Command) (ctx : Context) (opts : backupOptions) :
  emits (fun e => forall src srcRef dst dstRef o,
           e = EvExtendedCopy src srcRef dst dstRef o -> noLookupOrPanics o)
        (runBackup O cmd ctx opts).
Proof.
  assert (Hin : forall dstRoot,
            emits (fun e => forall src srcRef dst dstRef o,
                     e = EvExtendedCopy src srcRef dst dstRef o ->
                     noLookupOrPanics o)
                  (runBackupIn O cmd ctx opts dstRoot)).
  { intros dstRoot. unfold runBackupIn.
    destruct (NewRepository O (repository opts)) as [srcRepo | e]; [| apply emits_ret].
    apply emits_bind; [apply emits_update; reflexivity |]. intros _.
    destruct (oci_New O dstRoot) as [dstOCI | e]; [| apply emits_ret].
    destruct (findTagsToBackup O ctx srcRepo opts) as [tags | e]; [| apply emits_ret].
    destruct (Z.of_nat (List.length tags) =? 0)%Z; [apply emits_ret |].
    apply emits_bind; [apply emits_call; discriminate |].
    intros [e |]; [apply emits_ret |].
    apply emits_bind; [apply backupTags_lookup; reflexivity |].
    intros [e |]; [apply emits_ret |].
    apply emits_bind.
    - apply BackupExtras.prepareBackupOutput_emits.
      intros e He _ _ src srcRef dst dstRef o Ho. subst e. discriminate He.
    - intros [e |]; [apply emits_ret |].
      apply emits_call. discriminate. }
  unfold runBackup.
  destruct (outputFormat_of opts =? outputFormatDir)%Z; [apply Hin |].
  destruct (outputFormat_of opts =? outputFormatTar)%Z; [| apply emits_ret].
  apply emits_bind; [apply emits_ask |].
  intros [tempDir | e]; [| apply emits_ret].
  apply emits_bind; [apply emits_update; reflexivity |]. intros _.
  apply emits_defer; [apply Hin |]. intros r.
  apply emits_bind; [| intros _; apply emits_ret].
  apply BackupExtras.removingAll_emits. intros e. apply emits_tell. discriminate.
Qed.

(** The directory backup of [v1] with referrers, [v1] being the index
    [sha256:aaa] whose child [ccc] has the referrer [ddd]: the extended
    copy is handed a lookup, and asked for the index it does not
    return. *)
Lemma lookup_never_returns_run :
  exists o : ExtendedCopyOptions,
    In (EvExtendedCopy srcRepo "sha256:aaa" (TrackedTarget (OCIStore "hello"))
          "v1" o)
       (events (snd (runBackup (scripted quiet) backupCommand ctxBackground
                       dirBackup emptyWorld)))
    /\ ECO_FindPredecessors o <> None
    /\ callPredecessors (ECO_FindPredecessors o) ctxBackground srcRepo rootAaa
       = NilFuncPanic.
Proof.
  destruct (runBackup_lookup_never_returns (scripted quiet) backupCommand
              ctxBackground dirBackup emptyWorld) as (made & Hmade & Hall).
  eexists. split; [| split].
  - right; right; right; left. reflexivity.
  - discriminate.
  - rewrite app_nil_r in Hmade. rewrite <- Hmade in Hall.
    rewrite Forall_forall in Hall.
    destruct (Hall _ (or_intror (or_intror (or_intror (or_introl eq_refl))))
                _ _ _ _ _ eq_refl) as [Hnone | (f & Hf & Hpanic)].
    + discriminate Hnone.
    + unfold callPredecessors. rewrite Hf. apply Hpanic.
Defined.

End LookupExtras.
